(** * Frame-pointer stack unwinding on x86
    (absl/debugging/internal/stacktrace_x86-inl.h)

    A shallow embedding of the unwinder: the trampoline instruction decoder
    [CountPushInstructions], the signal-context register reader [GetFP], the
    frame-step validator [NextStackFrame] and the driver [UnwindImpl],
    followed by the properties proved about them. *)

From Stdlib Require Import ZArith Bool Lia String.
From stdpp Require Import base option list.

Local Open Scope Z_scope.

(** ** Build configuration

    The header is conditionally compiled.  Each preprocessor symbol it tests
    is a boolean of the configuration; [def_NDEBUG] says whether [assert] is
    compiled out. *)

Record Config : Type := {
  def_linux : bool;    (* defined(__linux__) *)
  def_i386 : bool;     (* defined(__i386__) *)
  def_x86_64 : bool;   (* defined(__x86_64__) *)
  def_WIN32 : bool;    (* defined(_WIN32) *)
  def_NDEBUG : bool    (* assert() expands to nothing *)
}.

(** ** Machine integers *)

(** The size of a pointer in bytes: 4 on i386, 8 on x86-64. *)
Definition sizeof_ptr (cfg : Config) : Z := if def_i386 cfg then 4 else 8.

Definition ptr_bits (cfg : Config) : Z := 8 * sizeof_ptr cfg.

(** Reduction of an integer to a [uintptr_t]. *)
Definition wrap_ptr (cfg : Config) (x : Z) : Z := x mod 2 ^ ptr_bits cfg.

(** Conversion of an integer to a 32-bit [int] (two's complement). *)
Definition wrap_int (x : Z) : Z := (x + 2 ^ 31) mod 2 ^ 32 - 2 ^ 31.

(** Conversion of an integer to [ptrdiff_t] (pointer width, signed). *)
Definition wrap_ptrdiff (cfg : Config) (x : Z) : Z :=
  (x + 2 ^ (ptr_bits cfg - 1)) mod 2 ^ ptr_bits cfg - 2 ^ (ptr_bits cfg - 1).

(** ** Memory

    The inspected address space, byte by byte.  Reads are total: a fault on
    an unmapped page is outside the model, and whether an address may be
    dereferenced safely is the business of the external probe
    [AddressIsReadable] below. *)

Definition memory : Type := Z -> Z.

(** [((const unsigned char * )a)[0]] *)
Definition load_byte (cfg : Config) (m : memory) (a : Z) : Z :=
  m (wrap_ptr cfg a) mod 256.

(** Little-endian read of [k] bytes starting at [a]. *)
Fixpoint load_bytes (cfg : Config) (m : memory) (a : Z) (k : nat) : Z :=
  match k with
  | O => 0
  | S k' => load_byte cfg m a + 256 * load_bytes cfg m (a + 1) k'
  end.

(** [*(void ** )a]: the pointer-sized word stored at [a]. *)
Definition load_ptr (cfg : Config) (m : memory) (a : Z) : Z :=
  load_bytes cfg m a (Z.to_nat (sizeof_ptr cfg)).

(** [m] with the pointer-sized word [v] stored at [a] (used to lay out
    concrete stacks). *)
Definition store_byte (cfg : Config) (m : memory) (a v : Z) : memory :=
  fun x => if x =? wrap_ptr cfg a then v mod 256 else m x.

Fixpoint store_bytes (cfg : Config) (m : memory) (a v : Z) (k : nat) : memory :=
  match k with
  | O => m
  | S k' => store_bytes cfg (store_byte cfg m a v) (a + 1) (v / 256) k'
  end.

Definition store_ptr (cfg : Config) (m : memory) (a v : Z) : memory :=
  store_bytes cfg m a v (Z.to_nat (sizeof_ptr cfg)).

Definition zero_memory : memory := fun _ => 0.

(** ** Outcomes

    A call either returns, or trips an [assert] and aborts the process.
    Loops are defined by recursion on a step budget; [OutOfFuel] is the
    model's answer when the budget is too small, and the theorems show that
    the budgets used below never are. *)

Inductive outcome (A : Type) : Type :=
| Returned (a : A)
| AssertionFailed (msg : string)
| OutOfFuel.

Arguments Returned {A} a.
Arguments AssertionFailed {A} msg.
Arguments OutOfFuel {A}.

#[global] Instance outcome_ret : MRet outcome := fun A a => Returned a.

#[global] Instance outcome_bind : MBind outcome := fun A B f c =>
  match c with
  | Returned a => f a
  | AssertionFailed msg => AssertionFailed msg
  | OutOfFuel => OutOfFuel
  end.

(** [assert(cond); k] *)
Definition assert_then {A : Type} (cfg : Config) (cond : bool) (msg : string)
    (k : outcome A) : outcome A :=
  if def_NDEBUG cfg || cond then k else AssertionFailed msg.

(** ** Trampoline instruction decoder *)

Definition kMaxBytes : Z := 10.

(** The [for] loop of [CountPushInstructions], entered with the loop
    variable [i] and the accumulator [result]. *)
Fixpoint CountPushInstructions_loop (cfg : Config) (m : memory) (addr : Z)
    (fuel : nat) (i result : Z) : outcome Z :=
  match fuel with
  | O => OutOfFuel
  | S fuel' =>
    if i <? kMaxBytes then
      if load_byte cfg m (addr + i) =? 0x89 then
        (* "mov reg,reg" *)
        if load_byte cfg m (addr + (i + 1)) =? 0xE5 then
          (* Found "mov %esp,%ebp". *)
          Returned 0
        else
          (* ++i: skip register encoding byte; then the loop's own ++i. *)
          CountPushInstructions_loop cfg m addr fuel' (i + 1 + 1) result
      else if (load_byte cfg m (addr + i) =? 0x0F) &&
              ((load_byte cfg m (addr + (i + 1)) =? 0x34) ||
               (load_byte cfg m (addr + (i + 1)) =? 0x05)) then
        (* Found "sysenter" or "syscall". *)
        Returned result
      else if Z.land (load_byte cfg m (addr + i)) 0xF0 =? 0x50 then
        (* Found "push %reg". *)
        CountPushInstructions_loop cfg m addr fuel' (i + 1) (result + 1)
      else if (load_byte cfg m (addr + i) =? 0xCD) &&
              (load_byte cfg m (addr + (i + 1)) =? 0x80) then
        (* Found "int $0x80" *)
        assert_then cfg (result =? 0) "result == 0" (Returned 0)
      else
        (* Unexpected instruction. *)
        assert_then cfg false "unexpected instruction in __kernel_vsyscall"
          (Returned 0)
    else
      (* Unexpected: didn't find SYSENTER or SYSCALL. *)
      assert_then cfg false
        "did not find SYSENTER or SYSCALL in __kernel_vsyscall" (Returned 0)
  end.

Definition CountPushInstructions (cfg : Config) (m : memory) (addr : Z)
    : outcome Z :=
  CountPushInstructions_loop cfg m addr (S (Z.to_nat kMaxBytes)) 0 0.

(** ** Signal-context register reader *)

(** Assume stack frames larger than 100,000 bytes are bogus. *)
Definition kMaxFrameBytes : Z := 100000.

(** Indices into [uc_mcontext.gregs]. *)
Inductive greg_index : Type :=
| REG_EBP | REG_ESP | REG_EIP
| REG_RBP | REG_RSP.

(** The part of [ucontext_t] the unwinder reads: the register file
    [uc_mcontext.gregs].  Its element type [greg_t] is declared by the
    platform: on Linux x86 it is a signed integer of the width of a pointer
    ([int] on i386, [long long] on x86-64). *)
Record ucontext_t : Type := { uc_mcontext_gregs : greg_index -> Z }.

(** Conversion of an integer to a [greg_t] (two's complement, pointer
    width). *)
Definition wrap_greg_t (cfg : Config) (x : Z) : Z :=
  (x + 2 ^ (ptr_bits cfg - 1)) mod 2 ^ ptr_bits cfg - 2 ^ (ptr_bits cfg - 1).

(** A register as the [greg_t] it is stored as: what [const auto] gives
    [bp] and [sp] in [GetFP]. *)
Definition greg_t_value (cfg : Config) (uc : ucontext_t) (r : greg_index)
    : Z :=
  wrap_greg_t cfg (uc_mcontext_gregs uc r).

(** A register converted to a pointer or to [uintptr_t], as the casts of
    [NextStackFrame] and the return of [GetFP] do. *)
Definition greg (cfg : Config) (uc : ucontext_t) (r : greg_index) : Z :=
  wrap_ptr cfg (uc_mcontext_gregs uc r).

(** [vuc == nullptr] for an optional signal context. *)
Definition is_nullptr (vuc : option ucontext_t) : bool :=
  match vuc with
  | None => true
  | Some _ => false
  end.

(** Returns the stack frame pointer from signal context, 0 if unknown.
    [vuc = None] is the null pointer.  On x86 [bp] and [sp] are [greg_t]
    values, so the two tests are signed and [bp - sp] is a signed
    subtraction; C++ leaves its overflow undefined, and it is taken here as
    the machine computes it, in two's complement at the register's width.
    Elsewhere [bp] and [sp] are the [uintptr_t] zero.  The value returned is
    converted to [uintptr_t]. *)
Definition GetFP (cfg : Config) (vuc : option ucontext_t) : Z :=
  if negb (def_linux cfg) then 0
  else
    match vuc with
    | Some uc =>
      if def_i386 cfg then
        let bp := greg_t_value cfg uc REG_EBP in
        let sp := greg_t_value cfg uc REG_ESP in
        if (bp >=? sp) && (wrap_greg_t cfg (bp - sp) <=? kMaxFrameBytes)
        then wrap_ptr cfg bp else wrap_ptr cfg sp
      else if def_x86_64 cfg then
        let bp := greg_t_value cfg uc REG_RBP in
        let sp := greg_t_value cfg uc REG_RSP in
        if (bp >=? sp) && (wrap_greg_t cfg (bp - sp) <=? kMaxFrameBytes)
        then wrap_ptr cfg bp else wrap_ptr cfg sp
      else
        let bp := 0 in
        let sp := 0 in
        if (bp >=? sp) && (wrap_ptr cfg (bp - sp) <=? kMaxFrameBytes)
        then bp else sp
    | None => 0
    end.

(** ** External capabilities *)

(** [absl::debug_internal::VDSOSupport]: whether the kernel's helper object
    is mapped, and the lookup of an exported symbol by name, version and
    type.  [LookupSymbol] answers [Some a] when the symbol is found, [a]
    being the address stored in its [SymbolInfo] (possibly null). *)
Record VDSOSupport : Type := {
  IsPresent : bool;
  LookupSymbol : string -> string -> Z -> option Z
}.

(** The ELF symbol type of a function. *)
Definition STT_FUNC : Z := 2.

(** ** The process-wide trampoline cache

    The three function-local [static] variables of [NextStackFrame]. *)
Record TrampolineCache : Type := {
  num_push_instructions : Z;
  kernel_rt_sigreturn_address : Z;
  kernel_vsyscall_address : Z
}.

(** Sentinel: not computed yet. *)
Definition initial_cache : TrampolineCache :=
  {| num_push_instructions := -1;
     kernel_rt_sigreturn_address := 0;
     kernel_vsyscall_address := 0 |}.

Section Unwinder.

(** The build, the inspected memory, the readability probe
    [absl::debug_internal::AddressIsReadable] and the VDSO. *)
Variable cfg : Config.
Variable mem : memory.
Variable AddressIsReadable : Z -> bool.
Variable vdso : VDSOSupport.

(** ** Frame-step validator *)

(** First use of the cache: [if (num_push_instructions == -1) { ... }]. *)
Definition init_trampoline_cache (cache : TrampolineCache)
    : outcome TrampolineCache :=
  if num_push_instructions cache =? -1 then
    if IsPresent vdso then
      let missing :=
        (* Unexpected: 32-bit VDSO is present, yet one of the expected
           symbols is missing or null. *)
        assert_then cfg false
          "VDSO is present, but doesn't have expected symbols"
          (Returned {| num_push_instructions := 0;
                       kernel_rt_sigreturn_address :=
                         kernel_rt_sigreturn_address cache;
                       kernel_vsyscall_address :=
                         kernel_vsyscall_address cache |}) in
      match LookupSymbol vdso "__kernel_rt_sigreturn" "LINUX_2.5" STT_FUNC with
      | None => missing
      | Some rt_sigreturn_symbol_info =>
        match LookupSymbol vdso "__kernel_vsyscall" "LINUX_2.5" STT_FUNC with
        | None => missing
        | Some vsyscall_symbol_info =>
          if (rt_sigreturn_symbol_info =? 0) || (vsyscall_symbol_info =? 0)
          then missing
          else
            count ← CountPushInstructions cfg mem vsyscall_symbol_info;
            Returned {| num_push_instructions := count;
                        kernel_rt_sigreturn_address := rt_sigreturn_symbol_info;
                        kernel_vsyscall_address := vsyscall_symbol_info |}
        end
      end
    else
      Returned {| num_push_instructions := 0;
                  kernel_rt_sigreturn_address :=
                    kernel_rt_sigreturn_address cache;
                  kernel_vsyscall_address := kernel_vsyscall_address cache |}
  else Returned cache.

(** The block guarded by [WITH_CONTEXT && uc != nullptr] on 32-bit Linux:
    the candidate [new_fp] possibly replaced by a slot of the interrupted
    stack. *)
Definition trampoline_correction (old_fp new_fp : Z) (ucv : ucontext_t)
    (cache : TrampolineCache) : outcome (Z * TrampolineCache) :=
  cache ← init_trampoline_cache cache;
  if negb (num_push_instructions cache =? 0) &&
     negb (kernel_rt_sigreturn_address cache =? 0) &&
     (load_ptr cfg mem (old_fp + sizeof_ptr cfg) =?
      kernel_rt_sigreturn_address cache) then
    (* This kernel does not use frame pointer in its VDSO code,
       and so %ebp is not suitable for unwinding. *)
    let reg_ebp := greg cfg ucv REG_EBP in
    let reg_eip := greg cfg ucv REG_EIP in
    if (new_fp =? reg_ebp) &&
       (kernel_vsyscall_address cache <=? reg_eip) &&
       (wrap_ptrdiff cfg (reg_eip - kernel_vsyscall_address cache)
        <? kMaxBytes) then
      (* We "stepped up" to __kernel_vsyscall, but %ebp is not usable.
         Restore from 'ucv' instead. *)
      let reg_esp := greg cfg ucv REG_ESP in
      (* Check that alleged %esp is not null and is reasonably aligned. *)
      if negb (reg_esp =? 0) &&
         (Z.land reg_esp (sizeof_ptr cfg - 1) =? 0) then
        let reg_esp2 :=
          load_ptr cfg mem
            (reg_esp + sizeof_ptr cfg * (num_push_instructions cache - 1)) in
        if AddressIsReadable reg_esp2 then
          (* Alleged %esp is readable, use it for further unwinding. *)
          Returned (reg_esp2, cache)
        else Returned (new_fp, cache)
      else Returned (new_fp, cache)
    else Returned (new_fp, cache)
  else Returned (new_fp, cache).

(** The checks every candidate goes through after the transition check:
    alignment, the last two pages of a 32-bit address space, and in lax mode
    the readability probe.  0 is the null pointer. *)
Definition check_candidate (STRICT_UNWINDING : bool) (new_fp : Z) : Z :=
  let new_fp_u := new_fp in
  if negb (Z.land new_fp_u (sizeof_ptr cfg - 1) =? 0) then 0
  else if def_i386 cfg && (new_fp_u >=? 0xffffe000) then 0
  else if negb (def_WIN32 cfg) && negb STRICT_UNWINDING &&
          negb (AddressIsReadable new_fp) then 0
  else new_fp.

(** The transition check from [old_fp] to the candidate [new_fp], followed
    by [check_candidate]. *)
Definition validate_transition (STRICT_UNWINDING WITH_CONTEXT : bool)
    (old_fp new_fp : Z) (uc : option ucontext_t) : Z :=
  let old_fp_u := old_fp in
  let new_fp_u := new_fp in
  if STRICT_UNWINDING &&
     (negb WITH_CONTEXT || is_nullptr uc ||
      negb (new_fp_u =? GetFP cfg uc)) then
    (* With the stack growing downwards, older stack frame must be
       at a greater address that the current one. *)
    if new_fp_u <=? old_fp_u then 0
    else if new_fp_u - old_fp_u >? kMaxFrameBytes then 0
    else check_candidate STRICT_UNWINDING new_fp
  else
    if new_fp =? 0 then 0
    (* In the non-strict mode, allow discontiguous stack frames.
       (alternate-signal-stacks for example). *)
    else if new_fp =? old_fp then 0
    else check_candidate STRICT_UNWINDING new_fp.

(** Given a pointer to a stack frame, locate and return the calling
    stackframe, or return null (0) if no stackframe can be found.  The
    static cache is passed in and out. *)
Definition NextStackFrame (STRICT_UNWINDING WITH_CONTEXT : bool)
    (old_fp : Z) (uc : option ucontext_t) (cache : TrampolineCache)
    : outcome (Z * TrampolineCache) :=
  let new_fp := load_ptr cfg mem old_fp in
  '(new_fp, cache) ←
    (if def_linux cfg && def_i386 cfg then
       match uc with
       | Some ucv =>
         if WITH_CONTEXT then trampoline_correction old_fp new_fp ucv cache
         else Returned (new_fp, cache)
       | None => Returned (new_fp, cache)
       end
     else Returned (new_fp, cache));
  Returned
    (validate_transition STRICT_UNWINDING WITH_CONTEXT old_fp new_fp uc,
     cache).

(** ** Unwinder driver *)

(** The locals of [UnwindImpl] while it runs, the two output arrays and the
    static cache.  The output arrays are the caller's buffers, disjoint from
    the memory that is walked; a store past the end of a buffer is dropped
    (the caller owes [max_depth] slots). *)
Record unwind_state : Type := {
  st_n : Z;
  st_fp : Z;
  st_skip_count : Z;
  st_result : list Z;
  st_sizes : list Z;
  st_cache : TrampolineCache
}.

(** [kMaxUnwind]: the clamp on the frames counted past [max_depth]. *)
Definition kMaxUnwind : Z := 1000.

Section Driver.

Variable IS_STACK_FRAMES IS_WITH_CONTEXT : bool.
Variable max_depth : Z.
Variable ucp : option ucontext_t.

(** One pass through the body of [while (fp && n < max_depth)] after the
    null-return-address test, given the validator's answer [next_fp]. *)
Definition capture_frame (st : unwind_state) (next_fp : Z)
    (cache : TrampolineCache) : unwind_state :=
  let fp := st_fp st in
  let n := st_n st in
  if st_skip_count st >? 0 then
    {| st_n := n; st_fp := next_fp;
       st_skip_count := st_skip_count st - 1;
       st_result := st_result st; st_sizes := st_sizes st;
       st_cache := cache |}
  else
    {| st_n := n + 1; st_fp := next_fp;
       st_skip_count := st_skip_count st;
       st_result :=
         <[Z.to_nat n := load_ptr cfg mem (fp + sizeof_ptr cfg)]>
           (st_result st);
       st_sizes :=
         if IS_STACK_FRAMES then
           if next_fp >? fp then
             <[Z.to_nat n := wrap_int (next_fp - fp)]> (st_sizes st)
           else
             (* A frame-size of 0 is used to indicate unknown frame size. *)
             <[Z.to_nat n := 0]> (st_sizes st)
         else st_sizes st;
       st_cache := cache |}.

(** [while (fp && n < max_depth) { ... }] *)
Fixpoint capture_loop (fuel : nat) (st : unwind_state)
    : outcome unwind_state :=
  match fuel with
  | O => OutOfFuel
  | S fuel' =>
    if negb (st_fp st =? 0) && (st_n st <? max_depth) then
      if load_ptr cfg mem (st_fp st + sizeof_ptr cfg) =? 0 then
        (* In 64-bit code, we often see a frame that
           points to itself and has a return address of 0. *)
        Returned st
      else
        '(next_fp, cache) ←
          NextStackFrame (negb IS_STACK_FRAMES) IS_WITH_CONTEXT
            (st_fp st) ucp (st_cache st);
        capture_loop fuel' (capture_frame st next_fp cache)
    else Returned st
  end.

(** [for (; fp != nullptr && j < kMaxUnwind; j++) { fp = NextStackFrame(fp); }]
    yielding the final [j] and the cache. *)
Fixpoint count_dropped_loop (fuel : nat) (fp j : Z) (cache : TrampolineCache)
    : outcome (Z * TrampolineCache) :=
  match fuel with
  | O => OutOfFuel
  | S fuel' =>
    if negb (fp =? 0) && (j <? kMaxUnwind) then
      '(next_fp, cache) ←
        NextStackFrame (negb IS_STACK_FRAMES) IS_WITH_CONTEXT fp ucp cache;
      count_dropped_loop fuel' next_fp (j + 1) cache
    else Returned (j, cache)
  end.

(** What a call of [UnwindImpl] leaves behind: the returned [n], the two
    output arrays, the value stored through [min_dropped_frames] (if it was
    not null) and the static cache. *)
Record unwind_output : Type := {
  out_n : Z;
  out_result : list Z;
  out_sizes : list Z;
  out_min_dropped_frames : option Z;
  out_cache : TrampolineCache
}.

(** Steps the capture loop can take: every pass either uses up one unit of
    [skip_count] or one of the [max_depth] slots. *)
Definition capture_budget (skip_count : Z) : nat :=
  S (Z.to_nat skip_count + Z.to_nat max_depth).

(** [UnwindImpl<IS_STACK_FRAMES, IS_WITH_CONTEXT>(result, sizes, max_depth,
    skip_count, ucp, min_dropped_frames)], called with the frame address
    [frame_address] of the running function
    ([__builtin_frame_address(0)]).  [min_dropped_frames = None] is the null
    pointer, [Some v] a pointer to an [int] holding [v]. *)
Definition UnwindImpl (frame_address : Z) (result sizes : list Z)
    (skip_count : Z) (min_dropped_frames : option Z)
    (cache : TrampolineCache) : outcome unwind_output :=
  st ← capture_loop (capture_budget skip_count)
         {| st_n := 0; st_fp := frame_address;
            st_skip_count := skip_count;
            st_result := result; st_sizes := sizes; st_cache := cache |};
  match min_dropped_frames with
  | Some _ =>
    (* Implementation detail: we clamp the max of frames we are willing to
       count, so as not to spend too much time in the loop below. *)
    '(j, cache) ←
      count_dropped_loop (S (Z.to_nat kMaxUnwind)) (st_fp st) 0 (st_cache st);
    Returned {| out_n := st_n st; out_result := st_result st;
                out_sizes := st_sizes st;
                out_min_dropped_frames := Some j; out_cache := cache |}
  | None =>
    Returned {| out_n := st_n st; out_result := st_result st;
                out_sizes := st_sizes st;
                out_min_dropped_frames := None; out_cache := st_cache st |}
  end.

End Driver.

End Unwinder.

(** * Vocabulary of the properties *)

(** The frame-pointer and stack-pointer registers [GetFP] reads on the
    build at hand, as addresses. *)
Definition frame_pointer_register (cfg : Config) (uc : ucontext_t) : Z :=
  if def_i386 cfg then greg cfg uc REG_EBP else greg cfg uc REG_RBP.

Definition stack_pointer_register (cfg : Config) (uc : ucontext_t) : Z :=
  if def_i386 cfg then greg cfg uc REG_ESP else greg cfg uc REG_RSP.

(** The same two registers as the signed [greg_t] values [GetFP]
    compares. *)
Definition frame_pointer_value (cfg : Config) (uc : ucontext_t) : Z :=
  if def_i386 cfg then greg_t_value cfg uc REG_EBP
  else greg_t_value cfg uc REG_RBP.

Definition stack_pointer_value (cfg : Config) (uc : ucontext_t) : Z :=
  if def_i386 cfg then greg_t_value cfg uc REG_ESP
  else greg_t_value cfg uc REG_RSP.

Section Iteration.

Variable cfg : Config.
Variable mem : memory.
Variable AddressIsReadable : Z -> bool.
Variable vdso : VDSOSupport.
Variable STRICT_UNWINDING WITH_CONTEXT : bool.
Variable uc : option ucontext_t.

(** The frame pointer reached from [fp] by [k] applications of the
    validator; once it is null it stays null (the drivers never call the
    validator on a null frame pointer). *)
Fixpoint NextStackFrame_iter (k : nat) (fp : Z) (cache : TrampolineCache)
    : outcome (Z * TrampolineCache) :=
  match k with
  | O => Returned (fp, cache)
  | S k' =>
    if fp =? 0 then Returned (0, cache)
    else
      '(next_fp, cache) ←
        NextStackFrame cfg mem AddressIsReadable vdso
          STRICT_UNWINDING WITH_CONTEXT fp uc cache;
      NextStackFrame_iter k' next_fp cache
  end.

End Iteration.

(** ** Concrete builds and stacks used in the examples *)

Definition linux_x86_64 : Config :=
  {| def_linux := true; def_i386 := false; def_x86_64 := true;
     def_WIN32 := false; def_NDEBUG := false |}.

Definition linux_i386 : Config :=
  {| def_linux := true; def_i386 := true; def_x86_64 := false;
     def_WIN32 := false; def_NDEBUG := false |}.

Definition no_vdso : VDSOSupport :=
  {| IsPresent := false; LookupSymbol := fun _ _ _ => None |}.

Definition all_readable : Z -> bool := fun _ => true.

(** A signal context whose frame pointer is [bp] and stack pointer [sp]. *)
Definition context_with (bp sp ip : Z) : ucontext_t :=
  {| uc_mcontext_gregs := fun r =>
       match r with
       | REG_EBP | REG_RBP => bp
       | REG_ESP | REG_RSP => sp
       | REG_EIP => ip
       end |}.


(** Two frames whose saved frame pointers point at each other. *)
Definition two_cycle_memory : memory :=
  store_ptr linux_x86_64
    (store_ptr linux_x86_64 zero_memory 0x1000 0x2000) 0x2000 0x1000.

(** ** The trampoline decoder, shape by shape *)

(** What the decoder can find at a position of the scanned prologue. *)
Inductive shape : Type :=
| FramePointerSetup    (* 89 E5: mov %esp,%ebp *)
| SyscallEntry         (* 0F 34: sysenter, 0F 05: syscall *)
| PushRegister         (* 50..5F *)
| SoftwareInterrupt    (* CD 80: int $0x80 *)
| RegisterMove         (* 89 xx, xx other than E5: another mov reg,reg *)
| Unrecognised.

(** The four shapes of the decoder's description: a byte that starts none of
    them is unrecognised. *)
Definition classify_four_shapes (b0 b1 : Z) : shape :=
  if (b0 =? 0x89) && (b1 =? 0xE5) then FramePointerSetup
  else if (b0 =? 0x0F) && ((b1 =? 0x34) || (b1 =? 0x05)) then SyscallEntry
  else if (0x50 <=? b0) && (b0 <=? 0x5F) then PushRegister
  else if (b0 =? 0xCD) && (b1 =? 0x80) then SoftwareInterrupt
  else Unrecognised.

(** The same with a fifth shape: a register move other than
    [mov %esp,%ebp]. *)
Definition classify_five_shapes (b0 b1 : Z) : shape :=
  if (b0 =? 0x89) && negb (b1 =? 0xE5) then RegisterMove
  else classify_four_shapes b0 b1.

(** An invariant violation: a failed assertion, or 0 when assertions are
    compiled out. *)
Definition invariant_violation (cfg : Config) (msg : string) : outcome Z :=
  if def_NDEBUG cfg then Returned 0 else AssertionFailed msg.

(** Decoding a prologue given as a list of bytes, with [budget] positions
    left to look at and [count] pushes seen so far. *)
Fixpoint decode_prologue (classify : Z -> Z -> shape) (cfg : Config)
    (bytes : list Z) (budget count : Z) : outcome Z :=
  match bytes with
  | [] =>
    invariant_violation cfg
      "did not find SYSENTER or SYSCALL in __kernel_vsyscall"
  | b0 :: rest =>
    if budget <=? 0 then
      invariant_violation cfg
        "did not find SYSENTER or SYSCALL in __kernel_vsyscall"
    else
      match classify b0 (hd 0 rest) with
      | FramePointerSetup => Returned 0
      | SyscallEntry => Returned count
      | PushRegister => decode_prologue classify cfg rest (budget - 1) (count + 1)
      | SoftwareInterrupt =>
        if count =? 0 then Returned 0
        else invariant_violation cfg "result == 0"
      | RegisterMove =>
        match rest with
        | [] =>
          invariant_violation cfg
            "did not find SYSENTER or SYSCALL in __kernel_vsyscall"
        | _ :: rest' => decode_prologue classify cfg rest' (budget - 2) count
        end
      | Unrecognised =>
        invariant_violation cfg "unexpected instruction in __kernel_vsyscall"
      end
  end.

(** The bytes at offsets [from .. 10] of the routine at [addr]. *)
Definition prologue_bytes_from (cfg : Config) (m : memory) (addr from : Z)
    : list Z :=
  (fun i => load_byte cfg m (addr + i)) <$> seqZ from (kMaxBytes + 1 - from).

Definition prologue_bytes (cfg : Config) (m : memory) (addr : Z) : list Z :=
  prologue_bytes_from cfg m addr 0.

(** [m] with the bytes [bytes] stored from [addr] on. *)
Fixpoint store_code (cfg : Config) (m : memory) (addr : Z) (bytes : list Z)
    : memory :=
  match bytes with
  | [] => m
  | b :: bytes' => store_code cfg (store_byte cfg m addr b) (addr + 1) bytes'
  end.

(** [__kernel_vsyscall] as AMD processors have it:
    push %ebp; mov %ecx,%ebp; syscall. *)
Definition amd_vsyscall_memory : memory :=
  store_code linux_i386 zero_memory 0xffffe400 [0x55; 0x89; 0xCD; 0x0F; 0x05].

(** ** The unwinder described over the walk of the stack *)

(** The byte distance recorded for a frame at [fp] whose caller's frame is
    at [next_fp], as the [int] it is stored in; 0 when the caller's frame is
    not above. *)
Definition frame_size (fp next_fp : Z) : Z :=
  if next_fp >? fp then wrap_int (next_fp - fp) else 0.

(** [arr] with the values [vs] stored in consecutive slots from [i] on. *)
Fixpoint store_from (i : nat) (vs : list Z) (arr : list Z) : list Z :=
  match vs with
  | [] => arr
  | v :: vs' => store_from (S i) vs' (<[i := v]> arr)
  end.

Section Walk.

Variable cfg : Config.
Variable mem : memory.

(** The validator the driver steps with: from a frame pointer and the cache
    to the next frame pointer (or null) and the cache. *)
Variable step : Z -> TrampolineCache -> outcome (Z * TrampolineCache).

(** The word in the return-address slot of the frame at [fp]. *)
Definition return_address (fp : Z) : Z := load_ptr cfg mem (fp + sizeof_ptr cfg).

(** The walk of the stack from [fp]: the first [k] valid frames, each with
    the validator's answer for it, then the frame pointer the walk stopped
    at.  A frame is valid when its frame pointer is not null and its
    return-address slot does not read as null. *)
Fixpoint walk (k : nat) (fp : Z) (cache : TrampolineCache)
    : outcome (list (Z * Z) * Z * TrampolineCache) :=
  match k with
  | O => Returned ([], fp, cache)
  | S k' =>
    if (fp =? 0) || (return_address fp =? 0) then Returned ([], fp, cache)
    else
      '(next_fp, cache) ← step fp cache;
      '(frames, fp_end, cache) ← walk k' next_fp cache;
      Returned ((fp, next_fp) :: frames, fp_end, cache)
  end.

(** The number of validator steps from [fp] until the frame pointer is
    null, counted up to [limit]. *)
Fixpoint count_frames (limit : nat) (fp : Z) (cache : TrampolineCache)
    : outcome (Z * TrampolineCache) :=
  match limit with
  | O => Returned (0, cache)
  | S limit' =>
    if fp =? 0 then Returned (0, cache)
    else
      '(next_fp, cache) ← step fp cache;
      '(j, cache) ← count_frames limit' next_fp cache;
      Returned (1 + j, cache)
  end.

(** The unwinder in terms of the walk: the frames after the first
    [skip_count] are recorded, at most [max_depth] of them, and the frames
    left are counted from where the walk stopped. *)
Definition unwind_spec (IS_STACK_FRAMES : bool) (max_depth : Z)
    (frame_address : Z) (result sizes : list Z) (skip_count : Z)
    (min_dropped_frames : option Z) (cache : TrampolineCache)
    : outcome unwind_output :=
  let skipped := Z.to_nat skip_count in
  let visited :=
    if 0 <? max_depth then (skipped + Z.to_nat max_depth)%nat else O in
  '(frames, fp_end, cache) ← walk visited frame_address cache;
  let recorded := drop skipped frames in
  let out dropped cache :=
    {| out_n := Z.of_nat (length recorded);
       out_result :=
         store_from 0 ((fun f => return_address f.1) <$> recorded) result;
       out_sizes :=
         if IS_STACK_FRAMES then
           store_from 0 ((fun f => frame_size f.1 f.2) <$> recorded) sizes
         else sizes;
       out_min_dropped_frames := dropped;
       out_cache := cache |} in
  match min_dropped_frames with
  | Some _ =>
    '(j, cache) ← count_frames (Z.to_nat kMaxUnwind) fp_end cache;
    Returned (out (Some j) cache)
  | None => Returned (out None cache)
  end.

End Walk.

(** The state of the capture loop after it has visited [frames] from the
    state [st] and stopped at [fp_end]. *)
Definition record_frames (cfg : Config) (mem : memory)
    (IS_STACK_FRAMES : bool) (st : unwind_state) (frames : list (Z * Z))
    (fp_end : Z) (cache : TrampolineCache) : unwind_state :=
  let skipped := Z.to_nat (st_skip_count st) in
  let recorded := drop skipped frames in
  {| st_n := st_n st + Z.of_nat (length recorded);
     st_fp := fp_end;
     st_skip_count :=
       st_skip_count st - Z.of_nat (Nat.min skipped (length frames));
     st_result :=
       store_from (Z.to_nat (st_n st))
         ((fun f => return_address cfg mem f.1) <$> recorded) (st_result st);
     st_sizes :=
       if IS_STACK_FRAMES then
         store_from (Z.to_nat (st_n st))
           ((fun f => frame_size f.1 f.2) <$> recorded) (st_sizes st)
       else st_sizes st;
     st_cache := cache |}.

(** The frames the capture loop can visit from the state [st]. *)
Definition frames_to_visit (max_depth : Z) (st : unwind_state) : nat :=
  if st_n st <? max_depth then
    (Z.to_nat (st_skip_count st) + Z.to_nat (max_depth - st_n st))%nat
  else O.

(** ** Returning and aborting *)

(** The outcome [o] is a return with a value satisfying [P], or a failed
    assertion whose message satisfies [abort]; it is never a loop cut short
    by the step budget. *)
Definition returns_unless {A : Type} (abort : string -> Prop)
    (o : outcome A) (P : A -> Prop) : Prop :=
  match o with
  | Returned a => P a
  | AssertionFailed msg => abort msg
  | OutOfFuel => False
  end.

(** The one way a call of the validator can abort the process: on 32-bit
    Linux, with a signal context, the first use of the trampoline cache
    [cache] trips an assertion (the VDSO lacks an expected symbol, or the
    decoder does not recognise the prologue of [__kernel_vsyscall]). *)
Definition trampoline_abort (cfg : Config) (mem : memory) (vdso : VDSOSupport)
    (WITH_CONTEXT : bool) (uc : option ucontext_t) (cache : TrampolineCache)
    (msg : string) : Prop :=
  def_linux cfg && def_i386 cfg = true /\ WITH_CONTEXT = true /\
  uc <> None /\
  init_trampoline_cache cfg mem vdso cache = AssertionFailed msg.

(** The cache is still the one the call started with, or it has been
    computed. *)
Definition cache_ok (cache0 cache : TrampolineCache) : Prop :=
  cache = cache0 \/ num_push_instructions cache <> -1.

(** ** Concrete stacks *)

(** [m] with a frame at [fp]: the caller's frame pointer [saved_fp] at
    [fp], the return address [ret] one word above. *)
Definition store_frame (cfg : Config) (m : memory) (fp saved_fp ret : Z)
    : memory :=
  store_ptr cfg (store_ptr cfg m fp saved_fp) (fp + sizeof_ptr cfg) ret.

(** Three frames at 0x7000, 0x7020 and 0x7040 of a 64-bit stack, the last
    one with a null saved frame pointer. *)
Definition three_frame_memory : memory :=
  store_frame linux_x86_64
    (store_frame linux_x86_64
       (store_frame linux_x86_64 zero_memory 0x7000 0x7020 0x401000)
       0x7020 0x7040 0x401100)
    0x7040 0 0x401200.

(** A 32-bit process whose handler runs on an alternate signal stack in the
    heap: the frame at 0x08000000 links to the interrupted frame at
    0xbf000000 on the main stack. *)
Definition alternate_stack_memory : memory :=
  store_frame linux_i386
    (store_frame linux_i386 zero_memory 0x08000000 0xbf000000 0x08048000)
    0xbf000000 0 0x08049000.

(** A frame at 0x7000 whose return-address slot is null. *)
Definition idle_frame_memory : memory :=
  store_frame linux_x86_64 zero_memory 0x7000 0x7020 0.

(** ** Well-formed stacks *)

(** [frames] lists the frame pointers of a well-formed stack, innermost
    first: every frame is non-null, word-aligned, below the guard pages,
    readable, and has a non-null return address; each frame's saved frame
    pointer is the next frame of the list, above it and at most
    [kMaxFrameBytes] away; the last frame's saved frame pointer is null. *)
Fixpoint well_formed_stack (cfg : Config) (mem : memory)
    (readable : Z -> bool) (frames : list Z) : bool :=
  match frames with
  | [] => true
  | fp :: rest =>
    (0 <? fp) && (Z.land fp (sizeof_ptr cfg - 1) =? 0) &&
    (negb (def_i386 cfg) || (fp <? 0xffffe000)) && readable fp &&
    negb (return_address cfg mem fp =? 0) &&
    match rest with
    | [] => load_ptr cfg mem fp =? 0
    | next_fp :: _ =>
      (load_ptr cfg mem fp =? next_fp) && (fp <? next_fp) &&
      (next_fp - fp <=? kMaxFrameBytes)
    end &&
    well_formed_stack cfg mem readable rest
  end.

(** A 64-bit stack of [N] frames of 16 bytes from 0x10000 on: frame [i]
    saves the address of frame [i + 1] (null for the last frame) and has
    the return address [0x400000 + i]. *)
Definition deep_stack_memory (N : Z) : memory := fun a =>
  let off := a - 0x10000 in
  if (0 <=? off) && (off <? 16 * N) then
    let i := off / 16 in
    let r := off mod 16 in
    let word :=
      if r <? 8 then (if i + 1 <? N then 0x10000 + 16 * (i + 1) else 0)
      else 0x400000 + i in
    (word / 256 ^ (r mod 8)) mod 256
  else 0.

Definition deep_stack_frames (N : Z) : list Z :=
  (fun i => 0x10000 + 16 * i) <$> seqZ 0 N.

(** ** A 32-bit process interrupted inside [__kernel_vsyscall] *)

(** A VDSO exporting [__kernel_rt_sigreturn] at 0xffffe500 and
    [__kernel_vsyscall] at 0xffffe400. *)
Definition vdso_32 : VDSOSupport :=
  {| IsPresent := true;
     LookupSymbol := fun name version _ =>
       if String.eqb version "LINUX_2.5" then
         if String.eqb name "__kernel_rt_sigreturn" then Some 0xffffe500
         else if String.eqb name "__kernel_vsyscall" then Some 0xffffe400
         else None
       else None |}.

(** The handler's frame at 0xbf000100 returns into [__kernel_rt_sigreturn]
    and saves the interrupted %ebp, 0x1234, which the kernel routine (push
    %ebp; mov %ecx,%ebp; syscall) had clobbered; the interrupted stack
    pointer is 0xbf000400, where the routine pushed the caller's frame
    pointer 0xbf000800. *)
Definition vsyscall_signal_memory : memory :=
  store_ptr linux_i386
    (store_frame linux_i386
       (store_code linux_i386 zero_memory 0xffffe400
          [0x55; 0x89; 0xCD; 0x0F; 0x05])
       0xbf000100 0x1234 0xffffe500)
    0xbf000400 0xbf000800.

Definition vsyscall_signal_context : ucontext_t :=
  {| uc_mcontext_gregs := fun r =>
       match r with
       | REG_EBP | REG_RBP => 0x1234
       | REG_ESP | REG_RSP => 0xbf000400
       | REG_EIP => 0xffffe403
       end |}.

(** A prologue of two pushes followed by [sysenter]. *)
Definition two_push_sysenter_memory : memory :=
  store_code linux_i386 zero_memory 0xffffe400 [0x51; 0x52; 0x0F; 0x34].

(** ** Settled caches *)

(** From the cache [cache'] the validator [step] answers as from [cache],
    for every frame, and hands [cache'] back in both cases. *)
Definition settles (step : Z -> TrampolineCache -> outcome (Z * TrampolineCache))
    (cache cache' : TrampolineCache) : Prop :=
  forall fp, exists next_fp,
    step fp cache = Returned (next_fp, cache') /\
    step fp cache' = Returned (next_fp, cache').

(** Two frames of a 64-bit stack, with return addresses, whose saved frame
    pointers point at each other. *)
Definition two_cycle_frames_memory : memory :=
  store_frame linux_x86_64
    (store_frame linux_x86_64 zero_memory 0x1000 0x2000 0x401000)
    0x2000 0x1000 0x401100.


(** A 32-bit two-frame cycle met in a signal handler: the frame at
    0xbf000100 returns into [__kernel_rt_sigreturn] and saves 0xbf000200,
    the interrupted %ebp, and the frame at 0xbf000200 saves 0xbf000100.  The
    interrupted stack pointer is 0xbf000400, where [__kernel_vsyscall]
    pushed the frame pointer 0xbf000800 of a frame whose caller's frame is
    at 0xbf000900. *)
Definition vsyscall_cycle_memory : memory :=
  store_frame linux_i386
    (store_ptr linux_i386
       (store_frame linux_i386
          (store_frame linux_i386
             (store_code linux_i386 zero_memory 0xffffe400
                [0x55; 0x89; 0xCD; 0x0F; 0x05])
             0xbf000100 0xbf000200 0xffffe500)
          0xbf000200 0xbf000100 0x08048000)
       0xbf000400 0xbf000800)
    0xbf000800 0xbf000900 0x08049000.

Definition vsyscall_cycle_context : ucontext_t :=
  {| uc_mcontext_gregs := fun r =>
       match r with
       | REG_EBP | REG_RBP => 0xbf000200
       | REG_ESP | REG_RSP => 0xbf000400
       | REG_EIP => 0xffffe403
       end |}.

(** A 32-bit frame at 0x80000100 whose saved frame pointer, 0x80000010, lies
    below it. *)
Definition straddling_link_memory : memory :=
  store_ptr linux_i386 zero_memory 0x80000100 0x80000010.

(** * Properties *)

(** ** The register reader *)

Lemma ptr_bits_cases cfg : ptr_bits cfg = 32 \/ ptr_bits cfg = 64.
Proof. unfold ptr_bits, sizeof_ptr. destruct (def_i386 cfg); auto. Qed.

(** A number of the signed range of a [greg_t] is its own [greg_t]. *)
Lemma wrap_greg_t_small cfg x :
  - 2 ^ (ptr_bits cfg - 1) <= x < 2 ^ (ptr_bits cfg - 1) ->
  wrap_greg_t cfg x = x.
Proof.
  unfold wrap_greg_t.
  destruct (ptr_bits_cases cfg) as [-> | ->]; intros Hx;
    rewrite Z.mod_small; lia.
Qed.

(** Converted to an address, a [greg_t] is the register's word. *)
Lemma wrap_ptr_wrap_greg_t cfg x :
  wrap_ptr cfg (wrap_greg_t cfg x) = wrap_ptr cfg x.
Proof.
  unfold wrap_ptr, wrap_greg_t.
  assert (2 ^ (ptr_bits cfg - 1) + 2 ^ (ptr_bits cfg - 1) = 2 ^ ptr_bits cfg)
    as Hpow by (destruct (ptr_bits_cases cfg) as [-> | ->]; reflexivity).
  assert (0 < 2 ^ ptr_bits cfg) as Hpos
    by (destruct (ptr_bits_cases cfg) as [-> | ->]; reflexivity).
  set (h := 2 ^ (ptr_bits cfg - 1)) in *. set (n := 2 ^ ptr_bits cfg) in *.
  rewrite Zminus_mod_idemp_l.
  replace (x + h - h) with x by lia. reflexivity.
Qed.

(** On an x86 Linux build [GetFP] chooses between the two registers by the
    signed test. *)
Lemma GetFP_x86 cfg uc :
  def_linux cfg = true -> def_i386 cfg || def_x86_64 cfg = true ->
  GetFP cfg (Some uc)
  = if (frame_pointer_value cfg uc >=? stack_pointer_value cfg uc)
       && (wrap_greg_t cfg
             (frame_pointer_value cfg uc - stack_pointer_value cfg uc)
           <=? kMaxFrameBytes)
    then frame_pointer_register cfg uc
    else stack_pointer_register cfg uc.
Proof.
  unfold GetFP, frame_pointer_value, stack_pointer_value,
    frame_pointer_register, stack_pointer_register, greg_t_value, greg.
  intros -> Harch. cbn [negb].
  destruct (def_i386 cfg); [| destruct (def_x86_64 cfg); [| done]];
    cbv zeta; by rewrite !wrap_ptr_wrap_greg_t.
Qed.




(** ** The frame-step validator *)

Section ValidatorFacts.

Variable cfg : Config.
Variable mem : memory.
Variable AddressIsReadable : Z -> bool.
Variable vdso : VDSOSupport.

Local Abbreviation check := (check_candidate cfg AddressIsReadable).
Local Abbreviation validate := (validate_transition cfg AddressIsReadable).
Local Abbreviation next_frame :=
  (NextStackFrame cfg mem AddressIsReadable vdso).

(** [check_candidate] hands back the candidate itself or null. *)
Lemma check_candidate_cases strict new_fp :
  check strict new_fp = 0 \/
  (check strict new_fp = new_fp /\
   Z.land new_fp (sizeof_ptr cfg - 1) = 0 /\
   (def_i386 cfg = true -> new_fp < 0xffffe000) /\
   (def_WIN32 cfg = false -> strict = false ->
    AddressIsReadable new_fp = true)).
Proof.
  unfold check_candidate.
  destruct (Z.land new_fp (sizeof_ptr cfg - 1) =? 0) eqn:Hal; simpl; [| by left].
  apply Z.eqb_eq in Hal.
  destruct (def_i386 cfg && (new_fp >=? 0xffffe000)) eqn:Hpg; [by left |].
  destruct (negb (def_WIN32 cfg) && negb strict &&
            negb (AddressIsReadable new_fp)) eqn:Hrd; [by left |].
  right. repeat split; try done.
  - intros Hi. rewrite Hi in Hpg. simpl in Hpg.
    destruct (new_fp >=? 0xffffe000) eqn:E; [done |].
    rewrite Z.geb_leb in E. apply Z.leb_gt in E. lia.
  - intros Hw Hs. rewrite Hw, Hs in Hrd. simpl in Hrd.
    by destruct (AddressIsReadable new_fp).
Qed.

(** A candidate that passes every test is handed back unchanged. *)
Lemma check_candidate_accept strict new_fp :
  Z.land new_fp (sizeof_ptr cfg - 1) = 0 ->
  (def_i386 cfg = true -> new_fp < 0xffffe000) ->
  AddressIsReadable new_fp = true ->
  check strict new_fp = new_fp.
Proof.
  intros Hal Hpg Hrd. unfold check_candidate.
  rewrite Hal, Hrd. simpl.
  destruct (def_i386 cfg) eqn:Hi; simpl.
  - specialize (Hpg eq_refl).
    destruct (new_fp >=? 0xffffe000) eqn:E.
    + rewrite Z.geb_leb in E. apply Z.leb_le in E. lia.
    + by rewrite !andb_false_r.
  - by rewrite !andb_false_r.
Qed.

(** What the validator hands back is null or the candidate. *)
Lemma validate_transition_cases strict wc old_fp new_fp uc :
  validate strict wc old_fp new_fp uc = 0 \/
  validate strict wc old_fp new_fp uc = new_fp.
Proof.
  unfold validate_transition.
  repeat match goal with
         | |- context [if ?b then _ else _] => destruct b
         end;
    try (by left);
    destruct (check_candidate_cases strict new_fp) as [-> | [-> _]];
    auto.
Qed.

(** Strict mode: an accepted candidate that did not skip the checks by
    matching the context's frame pointer lies above the current frame, at
    most [kMaxFrameBytes] away. *)
Lemma validate_transition_strict wc old_fp new_fp uc :
  validate true wc old_fp new_fp uc <> 0 ->
  wc = false \/ uc = None \/ new_fp <> GetFP cfg uc ->
  old_fp < new_fp /\ new_fp - old_fp <= 100000.
Proof.
  unfold validate_transition, kMaxFrameBytes. intros Hacc Hctx.
  assert (negb wc || is_nullptr uc || negb (new_fp =? GetFP cfg uc) = true)
    as Hc.
  { destruct Hctx as [-> | [-> | Hne]]; [done | by destruct wc |].
    apply Z.eqb_neq in Hne. rewrite Hne. by destruct wc, (is_nullptr uc). }
  rewrite Hc in Hacc. simpl in Hacc.
  destruct (new_fp <=? old_fp) eqn:E1; [done |].
  destruct (new_fp - old_fp >? 100000) eqn:E2; [done |].
  apply Z.leb_gt in E1. rewrite Z.gtb_ltb in E2. apply Z.ltb_ge in E2. lia.
Qed.

(** Strict mode rejects a candidate that is not above the current frame,
    unless the candidate matches the context's frame pointer. *)
Lemma validate_transition_strict_reject wc old_fp new_fp uc :
  new_fp <= old_fp ->
  wc = false \/ uc = None \/ new_fp <> GetFP cfg uc ->
  validate true wc old_fp new_fp uc = 0.
Proof.
  intros Hle Hctx.
  destruct (Z.eq_dec (validate true wc old_fp new_fp uc) 0)
    as [| Hne]; [done |].
  apply validate_transition_strict in Hne; [lia | done].
Qed.

(** Lax mode: a non-null candidate other than the current frame that is
    aligned, below the guard pages and readable is accepted. *)
Lemma validate_transition_lax_accept wc old_fp new_fp uc :
  new_fp <> 0 -> new_fp <> old_fp ->
  Z.land new_fp (sizeof_ptr cfg - 1) = 0 ->
  (def_i386 cfg = true -> new_fp < 0xffffe000) ->
  AddressIsReadable new_fp = true ->
  validate false wc old_fp new_fp uc = new_fp.
Proof.
  intros H0 Hne Hal Hpg Hrd. unfold validate_transition. simpl.
  apply Z.eqb_neq in H0, Hne. rewrite H0, Hne.
  by apply check_candidate_accept.
Qed.


(** Without a signal context in use the validator is a pure function of the
    word stored at the current frame, and leaves the cache alone. *)
Lemma NextStackFrame_no_context strict wc old_fp uc cache :
  wc = false \/ uc = None \/ def_linux cfg && def_i386 cfg = false ->
  next_frame strict wc old_fp uc cache =
  Returned (validate strict wc old_fp (load_ptr cfg mem old_fp) uc,
            cache).
Proof.
  unfold NextStackFrame.
  intros [-> | [-> | ->]]; [| | done];
    destruct (def_linux cfg && def_i386 cfg); try done; by destruct uc.
Qed.

(** Whatever the validator returns went through [validate_transition]. *)
Lemma NextStackFrame_validated strict wc old_fp uc cache new_fp cache' :
  next_frame strict wc old_fp uc cache = Returned (new_fp, cache') ->
  exists candidate,
    new_fp = validate strict wc old_fp candidate uc.
Proof.
  unfold NextStackFrame.
  match goal with
  | |- context [mbind _ ?c] => destruct c as [[cand c1] | |] eqn:E
  end; simpl; [| done | done].
  intros [= <- <-]. by exists cand.
Qed.

End ValidatorFacts.




(** The exemption is decided by [GetFP(uc)], not by the frame-pointer
    register alone.  With %ebp = 0x80000010 and %esp = 0x7ffffff0 the frame
    pointer is below the stack pointer as a signed value, [GetFP] falls back
    to the stack pointer, and the strict checks reject the descending link
    from 0x80000100 to 0x80000010 although it is the context's %ebp. *)
Lemma NextStackFrame_strict_context_fallback :
  GetFP linux_i386 (Some (context_with 0x80000010 0x7ffffff0 0)) = 0x7ffffff0 /\
  exists cache',
    NextStackFrame linux_i386 straddling_link_memory all_readable no_vdso
      true true 0x80000100 (Some (context_with 0x80000010 0x7ffffff0 0))
      initial_cache = Returned (0, cache').
Proof.
  split; [vm_compute; reflexivity |].
  eexists. vm_compute. reflexivity.
Qed.

(** An accepted strict step that did not match the signal context goes
    up the stack. *)
Lemma NextStackFrame_strict_ascends (cfg : Config) (mem : memory)
    (AddressIsReadable : Z -> bool) (vdso : VDSOSupport)
    (WITH_CONTEXT : bool) (fp : Z) (uc : option ucontext_t)
    (cache : TrampolineCache) (next_fp : Z) (cache' : TrampolineCache) :
  NextStackFrame cfg mem AddressIsReadable vdso true WITH_CONTEXT fp uc cache
    = Returned (next_fp, cache') ->
  next_fp <> 0 ->
  WITH_CONTEXT = false \/ uc = None \/ next_fp <> GetFP cfg uc ->
  fp < next_fp.
Proof.
  intros Hret Hne Hctx.
  apply NextStackFrame_validated in Hret as [cand ->].
  destruct (validate_transition_cases cfg AddressIsReadable true WITH_CONTEXT
              fp cand uc) as [E | E]; [done |].
  rewrite E in Hctx, Hne |- *.
  eapply (validate_transition_strict cfg AddressIsReadable WITH_CONTEXT fp
            cand uc); [by rewrite E | exact Hctx].
Qed.

(** ** Frame-pointer cycles *)

Section Cycles.

Variable cfg : Config.
Variable mem : memory.
Variable AddressIsReadable : Z -> bool.
Variable vdso : VDSOSupport.
Variable WITH_CONTEXT : bool.
Variable uc : option ucontext_t.

Local Abbreviation iter strict :=
  (NextStackFrame_iter cfg mem AddressIsReadable vdso strict WITH_CONTEXT uc).

(** Strict mode stops a two-frame cycle within two steps when neither frame
    matches the frame pointer of a signal context. *)
Lemma NextStackFrame_iter_strict_cycle A B cache :
  load_ptr cfg mem A = B -> load_ptr cfg mem B = A ->
  WITH_CONTEXT = false \/ uc = None \/
    (def_linux cfg && def_i386 cfg = false /\
     GetFP cfg uc <> A /\ GetFP cfg uc <> B) ->
  exists k, (k <= 2)%nat /\ iter true k A cache = Returned (0, cache).
Proof.
  intros HA HB Hctx.
  assert (WITH_CONTEXT = false \/ uc = None \/
          def_linux cfg && def_i386 cfg = false) as Hpure by tauto.
  assert (forall x, x = A \/ x = B ->
            WITH_CONTEXT = false \/ uc = None \/ x <> GetFP cfg uc) as Hne.
  { intros x Hx. destruct Hctx as [? | [? | (_ & ? & ?)]]; auto.
    right; right. destruct Hx; congruence. }
  destruct (Z.eq_dec A 0) as [-> | HA0];
    [exists 1%nat; split; [lia | done] |].
  pose proof (NextStackFrame_no_context cfg mem AddressIsReadable vdso
                true WITH_CONTEXT A uc cache Hpure) as H1.
  rewrite HA in H1.
  destruct (validate_transition_cases cfg AddressIsReadable true
              WITH_CONTEXT A B uc) as [E | E].
  - exists 1%nat. split; [lia |]. simpl.
    apply Z.eqb_neq in HA0. by rewrite HA0, H1, E.
  - destruct (Z.eq_dec B 0) as [HB0 | HB0].
    { exists 1%nat. split; [lia |]. simpl.
      apply Z.eqb_neq in HA0. by rewrite HA0, H1, E, HB0. }
    assert (A < B) as Hlt.
    { eapply (validate_transition_strict cfg AddressIsReadable
                WITH_CONTEXT A B uc); [by rewrite E | auto]. }
    exists 2%nat. split; [lia |]. simpl.
    apply Z.eqb_neq in HA0. rewrite HA0, H1, E. simpl.
    apply Z.eqb_neq in HB0. rewrite HB0.
    rewrite (NextStackFrame_no_context cfg mem AddressIsReadable vdso
               true WITH_CONTEXT B uc cache Hpure), HB.
    rewrite validate_transition_strict_reject; [done | lia | auto].
Qed.

(** Two frames the validator steps between, each to the other, are
    revisited for ever. *)
Lemma NextStackFrame_iter_alternates strict A B cache :
  NextStackFrame cfg mem AddressIsReadable vdso strict WITH_CONTEXT A uc cache
    = Returned (B, cache) ->
  NextStackFrame cfg mem AddressIsReadable vdso strict WITH_CONTEXT B uc cache
    = Returned (A, cache) ->
  A <> 0 -> B <> 0 ->
  forall k, iter strict k A cache
            = Returned (if Nat.even k then A else B, cache).
Proof.
  intros HAB HBA HA0 HB0.
  assert (forall k x y, (x = A /\ y = B) \/ (x = B /\ y = A) ->
            iter strict k x cache
            = Returned (if Nat.even k then x else y, cache)) as Hboth.
  { induction k as [| k IH]; intros x y Hxy; [done |].
    simpl NextStackFrame_iter.
    assert (x <> 0) as Hx0 by (destruct Hxy as [[-> _] | [-> _]]; done).
    assert (NextStackFrame cfg mem AddressIsReadable vdso strict WITH_CONTEXT
              x uc cache = Returned (y, cache)) as Hstep
      by (destruct Hxy as [[-> ->] | [-> ->]]; done).
    apply Z.eqb_neq in Hx0. rewrite Hx0, Hstep. simpl.
    rewrite (IH y x) by tauto.
    destruct k as [| k]; [done |].
    change (Nat.even (S (S k))) with (Nat.even k).
    destruct (Nat.even (S k)) eqn:E1, (Nat.even k) eqn:E2; try done;
      rewrite Nat.even_succ, <- Nat.negb_even, E2 in E1; done. }
  intros k. apply Hboth. tauto.
Qed.

(** Lax mode never stops a cycle of two distinct, aligned, readable
    frames: the walk alternates between them for ever. *)
Lemma NextStackFrame_iter_lax_cycle A B cache :
  load_ptr cfg mem A = B -> load_ptr cfg mem B = A ->
  WITH_CONTEXT = false \/ uc = None \/ def_linux cfg && def_i386 cfg = false ->
  A <> 0 -> B <> 0 -> A <> B ->
  Z.land A (sizeof_ptr cfg - 1) = 0 -> Z.land B (sizeof_ptr cfg - 1) = 0 ->
  (def_i386 cfg = true -> A < 0xffffe000 /\ B < 0xffffe000) ->
  AddressIsReadable A = true -> AddressIsReadable B = true ->
  forall k, iter false k A cache
            = Returned (if Nat.even k then A else B, cache).
Proof.
  intros HA HB Hpure HA0 HB0 HAB HalA HalB Hpg HrdA HrdB.
  apply NextStackFrame_iter_alternates; try done;
    rewrite NextStackFrame_no_context by done; f_equal; f_equal;
    rewrite ?HA, ?HB; apply validate_transition_lax_accept; auto;
    intros Hi; by destruct (Hpg Hi).
Qed.

End Cycles.

(** C3 (as amended): for two frames whose saved frame pointers point at each
    other.  In strict mode, provided neither frame matches the frame pointer
    of a signal context in use, the validator never accepts both links of
    the cycle: when the step from [A] yields [B], the step from [B] does not
    yield [A]; and where the 32-bit Linux trampoline correction is not in
    play, it returns "none" within the first two steps.  In lax mode, where
    the trampoline correction is not in play, the validator does not stop
    the cycle: when both frames are non-null, aligned, below the guard pages
    and readable, every step is accepted and the walk alternates between
    the two frames until the driver's own bounds end it. *)
Theorem two_frame_cycle (cfg : Config) (mem : memory)
    (AddressIsReadable : Z -> bool) (vdso : VDSOSupport)
    (WITH_CONTEXT : bool) (uc : option ucontext_t) (A B : Z)
    (cache : TrampolineCache) :
  load_ptr cfg mem A = B -> load_ptr cfg mem B = A -> A <> B ->
  (WITH_CONTEXT = false \/ uc = None \/
     (GetFP cfg uc <> A /\ GetFP cfg uc <> B) ->
   (A <> 0 -> B <> 0 ->
    forall c1 n2 c2,
      NextStackFrame cfg mem AddressIsReadable vdso true WITH_CONTEXT A uc
        cache = Returned (B, c1) ->
      NextStackFrame cfg mem AddressIsReadable vdso true WITH_CONTEXT B uc
        c1 = Returned (n2, c2) ->
      n2 <> A) /\
   (WITH_CONTEXT = false \/ uc = None \/
      def_linux cfg && def_i386 cfg = false ->
    exists k, (k <= 2)%nat /\
      NextStackFrame_iter cfg mem AddressIsReadable vdso true WITH_CONTEXT uc
        k A cache = Returned (0, cache))) /\
  (WITH_CONTEXT = false \/ uc = None \/ def_linux cfg && def_i386 cfg = false ->
   A <> 0 -> B <> 0 ->
   Z.land A (sizeof_ptr cfg - 1) = 0 -> Z.land B (sizeof_ptr cfg - 1) = 0 ->
   (def_i386 cfg = true -> A < 0xffffe000 /\ B < 0xffffe000) ->
   AddressIsReadable A = true -> AddressIsReadable B = true ->
   forall k,
     NextStackFrame_iter cfg mem AddressIsReadable vdso false WITH_CONTEXT uc
       k A cache = Returned (if Nat.even k then A else B, cache)).
Proof.
  intros HA HB HAB. split.
  - intros Hctx. split.
    + intros HA0 HB0 c1 n2 c2 H1 H2 ->.
      assert (A < B) as Hup.
      { eapply NextStackFrame_strict_ascends; [exact H1 | exact HB0 |].
        destruct Hctx as [? | [? | [_ ?]]]; auto. }
      assert (B < A) as Hdown.
      { eapply NextStackFrame_strict_ascends; [exact H2 | exact HA0 |].
        destruct Hctx as [? | [? | [? _]]]; auto. }
      lia.
    + intros Hpure. apply NextStackFrame_iter_strict_cycle with (B := B);
        try done.
      destruct Hpure as [? | [? | ?]]; auto.
      destruct Hctx as [? | [? | [? ?]]]; auto.
  - intros. by apply NextStackFrame_iter_lax_cycle.
Qed.

Lemma two_frame_cycle_witness :
  (exists k, (k <= 2)%nat /\
     NextStackFrame_iter linux_x86_64 two_cycle_memory all_readable no_vdso
       true false None k 0x1000 initial_cache = Returned (0, initial_cache)) /\
  NextStackFrame_iter linux_x86_64 two_cycle_memory all_readable no_vdso
    false false None 7 0x1000 initial_cache = Returned (0x2000, initial_cache).
Proof.
  pose proof (two_frame_cycle linux_x86_64 two_cycle_memory all_readable
                no_vdso false None 0x1000 0x2000 initial_cache
                eq_refl eq_refl ltac:(discriminate)) as [Hstrict Hlax].
  split.
  - apply (proj2 (Hstrict (or_introl eq_refl))). left. reflexivity.
  - apply (Hlax (or_introl eq_refl) ltac:(discriminate) ltac:(discriminate)
             eq_refl eq_refl ltac:(discriminate) eq_refl eq_refl 7%nat).
Defined.

(** C3, counterexample: in lax mode the frames at 0x1000 and 0x2000 point at
    each other, and no number of validator steps ever yields "none". *)
Lemma lax_two_frame_cycle_never_stops :
  ~ (exists k cache',
       NextStackFrame_iter linux_x86_64 two_cycle_memory all_readable no_vdso
         false false None k 0x1000 initial_cache = Returned (0, cache')).
Proof.
  intros (k & cache' & H).
  rewrite (NextStackFrame_iter_lax_cycle linux_x86_64 two_cycle_memory
             all_readable no_vdso false None 0x1000 0x2000 initial_cache)
    in H; try done; try (by left).
  destruct (Nat.even k); discriminate.
Qed.

(** Strict mode with a signal context does not stop every cycle either: the
    frame at 0x2000 links down to 0x1000, which is accepted because it is
    the context's frame pointer, and 0x1000 links up to 0x2000, which the
    strict checks accept. *)
Lemma strict_context_two_frame_cycle_never_stops :
  ~ (exists k cache',
       NextStackFrame_iter linux_x86_64 two_cycle_memory all_readable no_vdso
         true true (Some (context_with 0x1000 0x0ff0 0)) k 0x2000
         initial_cache = Returned (0, cache')).
Proof.
  intros (k & cache' & H).
  rewrite (NextStackFrame_iter_alternates linux_x86_64 two_cycle_memory
             all_readable no_vdso true (Some (context_with 0x1000 0x0ff0 0))
             true 0x2000 0x1000 initial_cache) in H; try done.
  destruct (Nat.even k); discriminate.
Qed.

(** Where the 32-bit Linux trampoline correction is in play, strict mode
    need not return "none" within two steps of a cycle either.  The frames
    at 0xbf000100 and 0xbf000200 point at each other and neither is
    [GetFP(uc)], but the first returns into [__kernel_rt_sigreturn]: the
    step from it is corrected to the frame pointer 0xbf000800 found on the
    interrupted stack, and the walk goes on from there, off the cycle. *)
Lemma strict_trampoline_leaves_two_frame_cycle :
  load_ptr linux_i386 vsyscall_cycle_memory 0xbf000100 = 0xbf000200 /\
  load_ptr linux_i386 vsyscall_cycle_memory 0xbf000200 = 0xbf000100 /\
  GetFP linux_i386 (Some vsyscall_cycle_context) = 0xbf000400 /\
  exists cache',
    NextStackFrame_iter linux_i386 vsyscall_cycle_memory all_readable vdso_32
      true true (Some vsyscall_cycle_context) 1 0xbf000100 initial_cache
    = Returned (0xbf000800, cache') /\
    NextStackFrame_iter linux_i386 vsyscall_cycle_memory all_readable vdso_32
      true true (Some vsyscall_cycle_context) 2 0xbf000100 initial_cache
    = Returned (0xbf000900, cache').
Proof.
  split; [vm_compute; reflexivity |].
  split; [vm_compute; reflexivity |].
  split; [vm_compute; reflexivity |].
  eexists. split; vm_compute; reflexivity.
Qed.

(** ** The trampoline instruction decoder *)

Lemma assert_then_false {A : Type} cfg msg (k : outcome A) :
  assert_then cfg false msg k
  = if def_NDEBUG cfg then k else AssertionFailed msg.
Proof. unfold assert_then. by rewrite orb_false_r. Qed.

Lemma load_byte_range cfg m a : 0 <= load_byte cfg m a < 256.
Proof. unfold load_byte. apply Z.mod_pos_bound. lia. Qed.

(** The mask test of the decoder selects exactly the bytes 0x50..0x5F. *)
Lemma push_register_range b :
  0 <= b < 256 ->
  (Z.land b 0xF0 =? 0x50) = (0x50 <=? b) && (b <=? 0x5F).
Proof.
  intros Hb.
  assert (forallb (fun b => Bool.eqb (Z.land b 0xF0 =? 0x50)
                              ((0x50 <=? b) && (b <=? 0x5F)))
            (seqZ 0 256) = true) as Hall by (vm_compute; reflexivity).
  rewrite forallb_forall in Hall.
  apply eqb_prop, Hall, list_elem_of_In, elem_of_seqZ. lia.
Qed.

Lemma prologue_bytes_from_cons cfg m addr i :
  0 <= i <= kMaxBytes ->
  prologue_bytes_from cfg m addr i
  = load_byte cfg m (addr + i) :: prologue_bytes_from cfg m addr (i + 1).
Proof.
  intros Hi. unfold prologue_bytes_from.
  rewrite seqZ_cons by lia. simpl. do 3 f_equal; lia.
Qed.

Lemma prologue_bytes_from_end cfg m addr i :
  kMaxBytes < i -> prologue_bytes_from cfg m addr i = [].
Proof.
  intros Hi. unfold prologue_bytes_from. rewrite seqZ_nil; [done | lia].
Qed.

(** The five-shape classification, written as the decoder's chain of
    tests. *)
Lemma classify_five_shapes_chain b0 b1 :
  0 <= b0 < 256 ->
  classify_five_shapes b0 b1
  = if b0 =? 0x89 then
      if b1 =? 0xE5 then FramePointerSetup else RegisterMove
    else if (b0 =? 0x0F) && ((b1 =? 0x34) || (b1 =? 0x05)) then SyscallEntry
    else if Z.land b0 0xF0 =? 0x50 then PushRegister
    else if (b0 =? 0xCD) && (b1 =? 0x80) then SoftwareInterrupt
    else Unrecognised.
Proof.
  intros Hb0. unfold classify_five_shapes, classify_four_shapes.
  rewrite <- (push_register_range b0 Hb0).
  destruct (b0 =? 0x89), (b1 =? 0xE5); done.
Qed.

Lemma decode_prologue_cons classify cfg b0 rest budget count :
  decode_prologue classify cfg (b0 :: rest) budget count
  = if budget <=? 0 then
      invariant_violation cfg
        "did not find SYSENTER or SYSCALL in __kernel_vsyscall"
    else
      match classify b0 (hd 0 rest) with
      | FramePointerSetup => Returned 0
      | SyscallEntry => Returned count
      | PushRegister =>
        decode_prologue classify cfg rest (budget - 1) (count + 1)
      | SoftwareInterrupt =>
        if count =? 0 then Returned 0
        else invariant_violation cfg "result == 0"
      | RegisterMove =>
        match rest with
        | [] =>
          invariant_violation cfg
            "did not find SYSENTER or SYSCALL in __kernel_vsyscall"
        | _ :: rest' => decode_prologue classify cfg rest' (budget - 2) count
        end
      | Unrecognised =>
        invariant_violation cfg "unexpected instruction in __kernel_vsyscall"
      end.
Proof. reflexivity. Qed.

(** The loop of the decoder, entered at position [i], decodes the bytes from
    [i] on with the five shapes. *)
Lemma CountPushInstructions_loop_decode cfg m addr fuel :
  forall i result,
    0 <= i <= kMaxBytes + 1 ->
    Z.max 0 (kMaxBytes - i) < Z.of_nat fuel ->
    CountPushInstructions_loop cfg m addr fuel i result
    = decode_prologue classify_five_shapes cfg
        (prologue_bytes_from cfg m addr i) (kMaxBytes - i) result.
Proof.
  induction fuel as [| fuel IH]; intros i result Hi Hfuel; [lia |].
  simpl CountPushInstructions_loop.
  destruct (i <? kMaxBytes) eqn:Hlt.
  - apply Z.ltb_lt in Hlt.
    rewrite prologue_bytes_from_cons by lia.
    rewrite decode_prologue_cons.
    rewrite (proj2 (Z.leb_gt _ _)) by lia.
    rewrite (prologue_bytes_from_cons cfg m addr (i + 1)) by lia.
    simpl hd.
    pose proof (load_byte_range cfg m (addr + i)) as Hb0.
    set (b0 := load_byte cfg m (addr + i)) in *.
    set (b1 := load_byte cfg m (addr + (i + 1))) in *.
    rewrite (classify_five_shapes_chain b0 b1 Hb0).
    rewrite !assert_then_false. unfold assert_then, invariant_violation.
    destruct (b0 =? 0x89) eqn:E89.
    + destruct (b1 =? 0xE5) eqn:EE5; [done |].
      rewrite IH by (unfold kMaxBytes in *; lia).
      f_equal; lia.
    + destruct ((b0 =? 0x0F) && ((b1 =? 0x34) || (b1 =? 0x05))); [done |].
      destruct (Z.land b0 0xF0 =? 0x50).
      * rewrite IH by (unfold kMaxBytes in *; lia).
        rewrite (prologue_bytes_from_cons cfg m addr (i + 1)) by lia.
        f_equal; lia.
      * destruct ((b0 =? 0xCD) && (b1 =? 0x80)); [| done].
        by destruct (result =? 0), (def_NDEBUG cfg).
  - apply Z.ltb_ge in Hlt. rewrite assert_then_false.
    destruct (Z.eq_dec i kMaxBytes) as [-> | Hne].
    + rewrite prologue_bytes_from_cons by (unfold kMaxBytes; lia). done.
    + rewrite prologue_bytes_from_end by lia. done.
Qed.

(** C9 (as amended): [CountPushInstructions] decodes the eleven bytes at
    offsets 0..10 of the routine, starting a shape at each of at most ten
    positions, and recognises five shapes: [mov %esp,%ebp] ends the scan
    with 0; [sysenter] or [syscall] ends it with the number of pushes seen;
    a byte in 0x50..0x5F counts as a push and the scan goes on;
    [int $0x80] ends it with 0 and asserts that no push was seen; and any
    other [mov reg,reg] (0x89 followed by a byte other than 0xE5) is skipped,
    both bytes, and the scan goes on.  Any other byte, or running out of
    positions, is an invariant violation: a failed assertion, or 0 when
    assertions are compiled out. *)
Theorem CountPushInstructions_decodes (cfg : Config) (m : memory) (addr : Z) :
  CountPushInstructions cfg m addr
  = decode_prologue classify_five_shapes cfg (prologue_bytes cfg m addr)
      kMaxBytes 0.
Proof.
  unfold CountPushInstructions, prologue_bytes.
  rewrite CountPushInstructions_loop_decode;
    [f_equal | unfold kMaxBytes; lia | unfold kMaxBytes; lia].
Qed.

(** C9, counterexample: on the prologue push %ebp; mov %ecx,%ebp; syscall
    the decoder skips the register move and returns 1, in a build with
    assertions on, where a decoder that knew only the four shapes would
    have stopped at the byte 0x89 with an invariant violation. *)
Lemma CountPushInstructions_skips_register_move :
  CountPushInstructions linux_i386 amd_vsyscall_memory 0xffffe400
    = Returned 1 /\
  decode_prologue classify_four_shapes linux_i386
    (prologue_bytes linux_i386 amd_vsyscall_memory 0xffffe400) kMaxBytes 0
    = AssertionFailed "unexpected instruction in __kernel_vsyscall".
Proof. split; vm_compute; reflexivity. Qed.

(** ** The driver and the walk of the stack *)

Lemma wrap_int_small d : - 2 ^ 31 <= d < 2 ^ 31 -> wrap_int d = d.
Proof. intros Hd. unfold wrap_int. rewrite Z.mod_small; lia. Qed.

Lemma frame_size_exact fp next_fp :
  fp < next_fp -> next_fp - fp < 2 ^ 31 -> frame_size fp next_fp = next_fp - fp.
Proof.
  intros Hlt Hd. unfold frame_size.
  rewrite (proj2 (Z.gtb_lt _ _)) by lia. apply wrap_int_small. lia.
Qed.

Lemma frame_size_unknown fp next_fp :
  next_fp <= fp -> frame_size fp next_fp = 0.
Proof.
  intros Hle. unfold frame_size.
  destruct (next_fp >? fp) eqn:E; [| done]. apply Z.gtb_lt in E. lia.
Qed.

Lemma length_store_from vs : forall i arr,
  length (store_from i vs arr) = length arr.
Proof.
  induction vs as [| v vs IH]; intros i arr; simpl; [done |].
  by rewrite IH, length_insert.
Qed.

(** Slots outside [i .. i + length vs - 1] keep their value. *)
Lemma store_from_lookup_other vs : forall i arr j,
  (j < i \/ i + length vs <= j)%nat ->
  store_from i vs arr !! j = arr !! j.
Proof.
  induction vs as [| v vs IH]; intros i arr j Hj; simpl; [done |].
  simpl in Hj. rewrite IH by lia. apply list_lookup_insert_ne. lia.
Qed.

(** Slot [i + j] receives the [j]-th value, if the array has that slot. *)
Lemma store_from_lookup vs : forall i arr j v,
  vs !! j = Some v -> (i + j < length arr)%nat ->
  store_from i vs arr !! (i + j)%nat = Some v.
Proof.
  induction vs as [| w vs IH]; intros i arr j v Hv Hlen; [done |].
  simpl. destruct j as [| j]; simpl in Hv.
  - injection Hv as ->. rewrite store_from_lookup_other by lia.
    rewrite Nat.add_0_r. apply list_lookup_insert_eq. lia.
  - replace (i + S j)%nat with (S i + j)%nat by lia.
    apply IH; [done |]. rewrite length_insert. lia.
Qed.

Section DriverRefinement.

Variable cfg : Config.
Variable mem : memory.
Variable AddressIsReadable : Z -> bool.
Variable vdso : VDSOSupport.
Variable IS_STACK_FRAMES IS_WITH_CONTEXT : bool.
Variable max_depth : Z.
Variable ucp : option ucontext_t.

(** The validator as the driver instantiates it. *)
Local Abbreviation step :=
  (fun fp cache =>
     NextStackFrame cfg mem AddressIsReadable vdso
       (negb IS_STACK_FRAMES) IS_WITH_CONTEXT fp ucp cache).

Local Abbreviation capture :=
  (capture_loop cfg mem AddressIsReadable vdso IS_STACK_FRAMES
     IS_WITH_CONTEXT max_depth ucp).

(** The capture loop, run from any state with enough fuel, visits the walk
    of the stack and records the frames after the skipped ones. *)
Lemma capture_loop_walk fuel : forall st,
  0 <= st_n st ->
  (Z.to_nat (st_skip_count st) + Z.to_nat (max_depth - st_n st) < fuel)%nat ->
  capture fuel st
  = '(frames, fp_end, cache) ←
      walk cfg mem step (frames_to_visit max_depth st) (st_fp st) (st_cache st);
    Returned (record_frames cfg mem IS_STACK_FRAMES st frames fp_end cache).
Proof.
  induction fuel as [| fuel IH]; intros st Hn Hfuel; [lia |].
  destruct st as [n fp skip result sizes cache]. simpl in Hn, Hfuel.
  simpl capture_loop. unfold frames_to_visit. simpl st_n. simpl st_fp.
  simpl st_skip_count. simpl st_cache.
  assert (forall st : unwind_state,
            record_frames cfg mem IS_STACK_FRAMES st [] (st_fp st) (st_cache st)
            = st) as Hnil.
  { intros [n0 fp0 skip0 result0 sizes0 cache0].
    unfold record_frames. simpl. rewrite drop_nil. simpl.
    rewrite Nat.min_0_r. f_equal; [lia | lia | by destruct IS_STACK_FRAMES]. }
  destruct (n <? max_depth) eqn:Hlt; simpl.
  2:{ rewrite andb_false_r. f_equal. symmetry.
      apply (Hnil (Build_unwind_state n fp skip result sizes cache)). }
  apply Z.ltb_lt in Hlt. rewrite andb_true_r.
  assert (exists k, (Z.to_nat skip + Z.to_nat (max_depth - n))%nat = S k)
    as [k Hk] by (exists (Z.to_nat skip + Z.to_nat (max_depth - n) - 1)%nat; lia).
  rewrite Hk. simpl walk. unfold return_address.
  destruct (fp =? 0) eqn:Hfp0; simpl.
  { f_equal. symmetry.
    apply (Hnil (Build_unwind_state n fp skip result sizes cache)). }
  destruct (load_ptr cfg mem (fp + sizeof_ptr cfg) =? 0) eqn:Hra; simpl.
  { f_equal. symmetry.
    apply (Hnil (Build_unwind_state n fp skip result sizes cache)). }
  destruct (NextStackFrame cfg mem AddressIsReadable vdso
              (negb IS_STACK_FRAMES) IS_WITH_CONTEXT fp ucp cache)
    as [[next_fp cache'] | msg |] eqn:Hstep; simpl; [| done | done].
  unfold capture_frame. simpl.
  destruct (skip >? 0) eqn:Hskip.
  - apply Z.gtb_lt in Hskip.
    rewrite IH by (simpl; lia).
    unfold frames_to_visit. simpl.
    rewrite (proj2 (Z.ltb_lt _ _) Hlt).
    replace (Z.to_nat (skip - 1) + Z.to_nat (max_depth - n))%nat with k by lia.
    destruct (walk cfg mem _ k next_fp cache') as [[[fs fpe] ce] | msg |];
      simpl; [| done | done].
    unfold record_frames. simpl.
    replace (Z.to_nat skip) with (S (Z.to_nat (skip - 1))) by lia.
    simpl. apply (f_equal Returned). f_equal. lia.
  - rewrite Z.gtb_ltb in Hskip. apply Z.ltb_ge in Hskip.
    assert (Z.to_nat skip = O) as Hs0 by lia.
    rewrite IH by (simpl; lia).
    unfold frames_to_visit. simpl.
    assert ((if n + 1 <? max_depth
             then (Z.to_nat skip + Z.to_nat (max_depth - (n + 1)))%nat
             else O) = k) as ->.
    { destruct (n + 1 <? max_depth) eqn:E;
        [apply Z.ltb_lt in E | apply Z.ltb_ge in E]; lia. }
    destruct (walk cfg mem _ k next_fp cache') as [[[fs fpe] ce] | msg |];
      simpl; [| done | done].
    unfold record_frames. simpl. rewrite Hs0. simpl. rewrite !drop_0.
    replace (Z.to_nat (n + 1)) with (S (Z.to_nat n)) by lia.
    apply (f_equal Returned). f_equal; [lia |].
    by destruct IS_STACK_FRAMES, (next_fp >? fp) eqn:E; unfold frame_size;
      rewrite ?E.
Qed.

Local Abbreviation count_dropped :=
  (count_dropped_loop cfg mem AddressIsReadable vdso IS_STACK_FRAMES
     IS_WITH_CONTEXT ucp).

(** The counting loop, entered with [j], adds to [j] the number of steps to
    a null frame pointer, counted up to what is left of [kMaxUnwind]. *)
Lemma count_dropped_loop_count fuel : forall fp j cache,
  0 <= j <= kMaxUnwind ->
  (Z.to_nat (kMaxUnwind - j) < fuel)%nat ->
  count_dropped fuel fp j cache
  = '(j', cache) ← count_frames step (Z.to_nat (kMaxUnwind - j)) fp cache;
    Returned (j + j', cache).
Proof.
  induction fuel as [| fuel IH]; intros fp j cache Hj Hfuel; [lia |].
  simpl count_dropped_loop.
  destruct (j <? kMaxUnwind) eqn:Hlt.
  - apply Z.ltb_lt in Hlt. rewrite andb_true_r.
    replace (Z.to_nat (kMaxUnwind - j))
      with (S (Z.to_nat (kMaxUnwind - (j + 1)))) by lia.
    simpl count_frames.
    destruct (fp =? 0); simpl; [by rewrite Z.add_0_r |].
    destruct (NextStackFrame cfg mem AddressIsReadable vdso
                (negb IS_STACK_FRAMES) IS_WITH_CONTEXT fp ucp cache)
      as [[next_fp cache'] | msg |]; simpl; [| done | done].
    rewrite IH by lia.
    destruct (count_frames _ _ next_fp cache') as [[j' ce] | msg |];
      simpl; [| done | done].
    apply (f_equal Returned). f_equal. lia.
  - apply Z.ltb_ge in Hlt. rewrite andb_false_r.
    replace (Z.to_nat (kMaxUnwind - j)) with O by lia.
    simpl. by rewrite Z.add_0_r.
Qed.

(** The driver is the unwinder described over the walk, stepping with the
    validator in the mode opposite to [IS_STACK_FRAMES]. *)
Lemma UnwindImpl_walk frame_address result sizes skip_count
    min_dropped_frames cache :
  UnwindImpl cfg mem AddressIsReadable vdso IS_STACK_FRAMES IS_WITH_CONTEXT
    max_depth ucp frame_address result sizes skip_count min_dropped_frames
    cache
  = unwind_spec cfg mem step IS_STACK_FRAMES max_depth frame_address result
      sizes skip_count min_dropped_frames cache.
Proof.
  unfold UnwindImpl, unwind_spec, capture_budget.
  rewrite capture_loop_walk by (cbn [st_n st_skip_count]; lia).
  unfold frames_to_visit. cbn [st_n st_fp st_skip_count st_cache].
  rewrite Z.sub_0_r.
  destruct (walk cfg mem _ _ frame_address cache) as [[[fs fpe] ce] | msg |];
    [| done | done].
  unfold mbind, outcome_bind. cbv beta match.
  unfold record_frames.
  cbn [st_n st_fp st_skip_count st_cache st_result st_sizes].
  destruct min_dropped_frames as [v |]; [| done].
  rewrite count_dropped_loop_count by (unfold kMaxUnwind; lia).
  rewrite Z.sub_0_r.
  destruct (count_frames _ _ fpe ce) as [[j cj] | msg |]; [| done | done].
  unfold mbind, outcome_bind. cbv beta match.
  reflexivity.
Qed.

End DriverRefinement.

(** ** Outcomes of the validator and of the driver *)

Lemma returns_unless_bind {A B : Type} abort (o : outcome A)
    (f : A -> outcome B) (P : A -> Prop) (Q : B -> Prop) :
  returns_unless abort o P ->
  (forall a, P a -> returns_unless abort (f a) Q) ->
  returns_unless abort (o ≫= f) Q.
Proof. destruct o; simpl; auto. Qed.

Lemma returns_unless_weaken {A : Type} abort (o : outcome A)
    (P Q : A -> Prop) :
  returns_unless abort o P ->
  (forall a, o = Returned a -> P a -> Q a) ->
  returns_unless abort o Q.
Proof. destruct o; simpl; auto. Qed.

(** Decoding never runs out of budget, a count it returns is not negative,
    and it fails an assertion only where assertions are compiled in. *)
Lemma decode_prologue_outcome classify cfg bytes : forall budget count,
  0 <= count ->
  returns_unless (fun _ => def_NDEBUG cfg = false)
    (decode_prologue classify cfg bytes budget count) (fun v => 0 <= v).
Proof.
  assert (forall msg, returns_unless (fun _ => def_NDEBUG cfg = false)
            (invariant_violation cfg msg) (fun v => 0 <= v)) as Hviol.
  { intros msg. unfold invariant_violation. by destruct (def_NDEBUG cfg). }
  remember (length bytes) as n eqn:Hn. revert bytes Hn.
  induction n as [n IH] using lt_wf_ind.
  intros bytes Hn budget count Hcount.
  destruct bytes as [| b0 rest']; [apply Hviol |].
  rewrite decode_prologue_cons.
  destruct (budget <=? 0); [apply Hviol |].
  destruct (classify b0 (hd 0 rest')); simpl; try done; try apply Hviol.
  - eapply IH; [| reflexivity | lia]. simpl in Hn. lia.
  - destruct (count =? 0); [done | apply Hviol].
  - destruct rest' as [| b1 rest'']; [apply Hviol |].
    eapply IH; [| reflexivity | lia]. simpl in Hn. lia.
Qed.

Lemma CountPushInstructions_outcome cfg m addr :
  returns_unless (fun _ => def_NDEBUG cfg = false)
    (CountPushInstructions cfg m addr)
    (fun v => 0 <= v).
Proof.
  unfold CountPushInstructions.
  rewrite CountPushInstructions_loop_decode by (unfold kMaxBytes; lia).
  by apply decode_prologue_outcome.
Qed.

Section ValidatorOutcomes.

Variable cfg : Config.
Variable mem : memory.
Variable AddressIsReadable : Z -> bool.
Variable vdso : VDSOSupport.

(** A cache that has been computed is left alone. *)
Lemma init_trampoline_cache_computed cache :
  num_push_instructions cache <> -1 ->
  init_trampoline_cache cfg mem vdso cache = Returned cache.
Proof.
  intros H. unfold init_trampoline_cache.
  apply Z.eqb_neq in H. by rewrite H.
Qed.

(** The first use of the cache returns a computed cache or trips an
    assertion. *)
Lemma init_trampoline_cache_outcome cache :
  returns_unless (fun _ => def_NDEBUG cfg = false)
    (init_trampoline_cache cfg mem vdso cache)
    (fun cache' => num_push_instructions cache' <> -1).
Proof.
  unfold init_trampoline_cache.
  destruct (num_push_instructions cache =? -1) eqn:E; simpl;
    [| by apply Z.eqb_neq in E].
  destruct (IsPresent vdso); [| done].
  assert (forall msg c,
            num_push_instructions c = 0 ->
            returns_unless (fun _ => def_NDEBUG cfg = false)
              (assert_then cfg false msg (Returned c))
              (fun cache' => num_push_instructions cache' <> -1)) as Hmiss.
  { intros msg c Hc. rewrite assert_then_false.
    destruct (def_NDEBUG cfg); simpl; [lia | done]. }
  destruct (LookupSymbol vdso "__kernel_rt_sigreturn" "LINUX_2.5" STT_FUNC)
    as [rt |]; [| by apply Hmiss].
  destruct (LookupSymbol vdso "__kernel_vsyscall" "LINUX_2.5" STT_FUNC)
    as [vs |]; [| by apply Hmiss].
  destruct ((rt =? 0) || (vs =? 0)); [by apply Hmiss |].
  pose proof (CountPushInstructions_outcome cfg mem vs) as Hc.
  destruct (CountPushInstructions cfg mem vs); simpl in *; [lia | done | done].
Qed.

(** The validator returns, keeping the cache in order, unless the first use
    of the cache aborts. *)
Lemma NextStackFrame_outcome strict wc old_fp uc cache0 cache :
  cache_ok cache0 cache ->
  returns_unless (trampoline_abort cfg mem vdso wc uc cache0)
    (NextStackFrame cfg mem AddressIsReadable vdso strict wc old_fp uc cache)
    (fun r => cache_ok cache0 r.2).
Proof.
  intros Hok. unfold NextStackFrame.
  destruct (def_linux cfg && def_i386 cfg) eqn:Hcfg; [| done].
  destruct uc as [ucv |]; [| done].
  destruct wc; [| done].
  unfold trampoline_correction.
  assert (returns_unless (trampoline_abort cfg mem vdso true (Some ucv) cache0)
            (init_trampoline_cache cfg mem vdso cache)
            (fun cache' => num_push_instructions cache' <> -1)) as Hinit.
  { destruct (Z.eq_dec (num_push_instructions cache) (-1)) as [Heq | Hne].
    - destruct Hok as [-> | ?]; [| done].
      pose proof (init_trampoline_cache_outcome cache0) as Ho.
      destruct (init_trampoline_cache cfg mem vdso cache0) eqn:E; simpl in *;
        done.
    - by rewrite init_trampoline_cache_computed. }
  destruct (init_trampoline_cache cfg mem vdso cache) as [c1 | msg |];
    simpl in *; [| done | done].
  repeat match goal with
         | |- context [if ?b then _ else _] => destruct b
         end; simpl; by right.
Qed.

End ValidatorOutcomes.

(** ** Facts about the walk *)

Section WalkFacts.

Variable cfg : Config.
Variable mem : memory.
Variable step : Z -> TrampolineCache -> outcome (Z * TrampolineCache).

Local Abbreviation walk' := (walk cfg mem step).
Local Abbreviation ret_addr := (return_address cfg mem).

(** The walk visits at most [k] frames. *)
Lemma walk_length k : forall fp cache frames fp_end cache',
  walk' k fp cache = Returned (frames, fp_end, cache') ->
  (length frames <= k)%nat.
Proof.
  induction k as [| k IH]; intros fp cache frames fp_end cache' H; simpl in H.
  - injection H as <- _ _. simpl. lia.
  - destruct ((fp =? 0) || (ret_addr fp =? 0)).
    { injection H as <- _ _. simpl. lia. }
    destruct (step fp cache) as [[nf c1] | |]; simpl in H; [| done | done].
    destruct (walk' k nf c1) as [[[fs fpe] ce] | |] eqn:Hw; simpl in H;
      [| done | done].
    injection H as <- _ _. simpl. apply IH in Hw. lia.
Qed.

(** Every visited frame has a frame pointer and a return address that are
    not null, and comes with the validator's answer for it. *)
Lemma walk_frames k : forall fp cache frames fp_end cache',
  walk' k fp cache = Returned (frames, fp_end, cache') ->
  Forall (fun f => f.1 <> 0 /\ ret_addr f.1 <> 0 /\
                   exists c c', step f.1 c = Returned (f.2, c')) frames.
Proof.
  induction k as [| k IH]; intros fp cache frames fp_end cache' H; simpl in H.
  - injection H as <- _ _. constructor.
  - destruct ((fp =? 0) || (ret_addr fp =? 0)) eqn:Hstop.
    { injection H as <- _ _. constructor. }
    apply orb_false_iff in Hstop as [Hfp Hra].
    apply Z.eqb_neq in Hfp, Hra.
    destruct (step fp cache) as [[nf c1] | |] eqn:Hs; simpl in H;
      [| done | done].
    destruct (walk' k nf c1) as [[[fs fpe] ce] | |] eqn:Hw; simpl in H;
      [| done | done].
    injection H as <- _ _. constructor; [| by eapply IH].
    simpl. repeat split; eauto.
Qed.

(** A walk that visits fewer than [k] frames stopped at a null frame pointer
    or at a frame whose return address reads as null. *)
Lemma walk_stopped k : forall fp cache frames fp_end cache',
  walk' k fp cache = Returned (frames, fp_end, cache') ->
  (length frames < k)%nat ->
  fp_end = 0 \/ ret_addr fp_end = 0.
Proof.
  induction k as [| k IH]; intros fp cache frames fp_end cache' H Hlen;
    [lia |]. simpl in H.
  destruct ((fp =? 0) || (ret_addr fp =? 0)) eqn:Hstop.
  { injection H as _ <- _. apply orb_true_iff in Hstop as [E | E];
      apply Z.eqb_eq in E; auto. }
  destruct (step fp cache) as [[nf c1] | |] eqn:Hs; simpl in H;
    [| done | done].
  destruct (walk' k nf c1) as [[[fs fpe] ce] | |] eqn:Hw; simpl in H;
    [| done | done].
  injection H as <- <- _. simpl in Hlen. eapply IH; [done | lia].
Qed.

(** A count of frames is between 0 and the limit, and 0 from a null frame
    pointer. *)
Lemma count_frames_range limit : forall fp cache j cache',
  count_frames step limit fp cache = Returned (j, cache') ->
  0 <= j <= Z.of_nat limit /\ (fp = 0 -> j = 0).
Proof.
  induction limit as [| limit IH]; intros fp cache j cache' H; simpl in H.
  - injection H as <- _. lia.
  - destruct (fp =? 0) eqn:Hfp.
    { injection H as <- _. lia. }
    apply Z.eqb_neq in Hfp.
    destruct (step fp cache) as [[nf c1] | |]; simpl in H; [| done | done].
    destruct (count_frames step limit nf c1) as [[j' cj] | |] eqn:Hc;
      simpl in H; [| done | done].
    injection H as <- _. apply IH in Hc. lia.
Qed.

Variable abort : string -> Prop.
Variable cache0 : TrampolineCache.

Hypothesis step_outcome : forall fp cache,
  cache_ok cache0 cache ->
  returns_unless abort (step fp cache) (fun r => cache_ok cache0 r.2).

Lemma walk_outcome k : forall fp cache,
  cache_ok cache0 cache ->
  returns_unless abort (walk' k fp cache) (fun r => cache_ok cache0 r.2).
Proof.
  induction k as [| k IH]; intros fp cache Hok; simpl; [done |].
  destruct ((fp =? 0) || (ret_addr fp =? 0)); [done |].
  eapply returns_unless_bind; [by apply step_outcome |].
  intros [nf c1] Hc1.
  eapply returns_unless_bind; [by apply IH |].
  by intros [[fs fpe] ce] Hce.
Qed.

Lemma count_frames_outcome limit : forall fp cache,
  cache_ok cache0 cache ->
  returns_unless abort (count_frames step limit fp cache)
    (fun r => cache_ok cache0 r.2).
Proof.
  induction limit as [| limit IH]; intros fp cache Hok; simpl; [done |].
  destruct (fp =? 0); [done |].
  eapply returns_unless_bind; [by apply step_outcome |].
  intros [nf c1] Hc1.
  eapply returns_unless_bind; [by apply IH |].
  by intros [j cj] Hcj.
Qed.

(** The unwinder over the walk returns unless the validator aborts. *)
Lemma unwind_spec_outcome isf max_depth frame_address result sizes skip_count
    min_dropped_frames :
  returns_unless abort
    (unwind_spec cfg mem step isf max_depth frame_address result sizes
       skip_count min_dropped_frames cache0)
    (fun _ => True).
Proof.
  unfold unwind_spec.
  eapply returns_unless_bind; [apply walk_outcome; by left |].
  intros [[fs fpe] ce] Hce. simpl in Hce.
  destruct min_dropped_frames as [v |]; [| done].
  eapply returns_unless_bind; [by apply count_frames_outcome |].
  by intros [j cj] _.
Qed.

End WalkFacts.

(** ** The driver *)

Section DriverFacts.

Variable cfg : Config.
Variable mem : memory.
Variable AddressIsReadable : Z -> bool.
Variable vdso : VDSOSupport.
Variable IS_STACK_FRAMES IS_WITH_CONTEXT : bool.
Variable max_depth : Z.
Variable ucp : option ucontext_t.

Local Abbreviation step :=
  (fun fp cache =>
     NextStackFrame cfg mem AddressIsReadable vdso
       (negb IS_STACK_FRAMES) IS_WITH_CONTEXT fp ucp cache).

Local Abbreviation unwind :=
  (UnwindImpl cfg mem AddressIsReadable vdso IS_STACK_FRAMES IS_WITH_CONTEXT
     max_depth ucp).

(** The frames the capture loop visits at most. *)
Local Abbreviation visited skip_count :=
  (if 0 <? max_depth then (Z.to_nat skip_count + Z.to_nat max_depth)%nat
   else O).

(** The driver terminates: it returns, unless the first use of the
    trampoline cache aborts the process. *)
Lemma UnwindImpl_outcome frame_address result sizes skip_count
    min_dropped_frames cache :
  returns_unless (trampoline_abort cfg mem vdso IS_WITH_CONTEXT ucp cache)
    (unwind frame_address result sizes skip_count min_dropped_frames cache)
    (fun _ => True).
Proof.
  rewrite UnwindImpl_walk. apply unwind_spec_outcome.
  intros fp c Hok. by apply NextStackFrame_outcome.
Qed.

(** What a returning call has done, in terms of the walk. *)
Lemma UnwindImpl_Returned frame_address result sizes skip_count
    min_dropped_frames cache out :
  unwind frame_address result sizes skip_count min_dropped_frames cache
    = Returned out ->
  exists frames fp_end cache',
    walk cfg mem step (visited skip_count) frame_address cache
      = Returned (frames, fp_end, cache') /\
    let recorded := drop (Z.to_nat skip_count) frames in
    out_n out = Z.of_nat (length recorded) /\
    out_result out
      = store_from 0 ((fun f => return_address cfg mem f.1) <$> recorded)
          result /\
    out_sizes out
      = (if IS_STACK_FRAMES then
           store_from 0 ((fun f => frame_size f.1 f.2) <$> recorded) sizes
         else sizes) /\
    match min_dropped_frames with
    | Some _ =>
      exists j cache'',
        count_frames step (Z.to_nat kMaxUnwind) fp_end cache'
          = Returned (j, cache'') /\
        out_min_dropped_frames out = Some j
    | None => out_min_dropped_frames out = None
    end.
Proof.
  rewrite UnwindImpl_walk. unfold unwind_spec.
  destruct (walk cfg mem _ _ frame_address cache) as [[[fs fpe] ce] | |];
    [| done | done].
  unfold mbind at 1. unfold outcome_bind at 1. cbv beta match.
  intros H. exists fs, fpe, ce. split; [done |].
  destruct min_dropped_frames as [v |].
  - destruct (count_frames _ _ fpe ce) as [[j cj] | |]; [| done | done].
    unfold mbind, outcome_bind in H. cbv beta match in H.
    injection H as <-. cbn [out_n out_result out_sizes out_min_dropped_frames].
    repeat split. by exists j, cj.
  - injection H as <-. by repeat split.
Qed.

(** C1: for every [max_depth >= 0], every [skip_count] and every stack, the
    call terminates and (unless the first use of the trampoline cache trips
    its assertion) returns a count [n] with [0 <= n <= max_depth]; the
    [result] array keeps its length and every slot from [n] on keeps the
    value it had, so only the slots [0 .. n-1] are written. *)
Theorem UnwindImpl_count_bound frame_address result sizes skip_count
    min_dropped_frames cache :
  0 <= max_depth ->
  returns_unless (trampoline_abort cfg mem vdso IS_WITH_CONTEXT ucp cache)
    (UnwindImpl cfg mem AddressIsReadable vdso IS_STACK_FRAMES
       IS_WITH_CONTEXT max_depth ucp frame_address result sizes skip_count
       min_dropped_frames cache)
    (fun out =>
       0 <= out_n out <= max_depth /\
       length (out_result out) = length result /\
       forall i : nat,
         out_n out <= Z.of_nat i -> out_result out !! i = result !! i).
Proof.
  intros Hd.
  eapply returns_unless_weaken; [apply UnwindImpl_outcome |].
  intros out Hout _.
  apply UnwindImpl_Returned in Hout
    as (fs & fpe & ce & Hwalk & Hn & Hres & _).
  apply walk_length in Hwalk. rewrite Hn, Hres.
  rewrite length_drop in *. repeat split.
  - lia.
  - destruct (0 <? max_depth) eqn:E; [apply Z.ltb_lt in E |]; lia.
  - apply length_store_from.
  - intros i Hi. apply store_from_lookup_other.
    right. rewrite length_fmap, length_drop. lia.
Qed.

(** C7: whenever the return-address slot of the current frame reads as
    null, the capture loop stops there, leaving its state as it is (the
    frame is neither recorded nor skipped); and every return address a
    returning call has placed in [result] (the slots below [n]) is not
    null. *)
Theorem UnwindImpl_null_return_address :
  (forall fuel st,
     st_fp st <> 0 -> st_n st < max_depth ->
     load_ptr cfg mem (st_fp st + sizeof_ptr cfg) = 0 ->
     capture_loop cfg mem AddressIsReadable vdso IS_STACK_FRAMES
       IS_WITH_CONTEXT max_depth ucp (S fuel) st = Returned st) /\
  (forall frame_address result sizes skip_count min_dropped_frames cache,
     returns_unless (trampoline_abort cfg mem vdso IS_WITH_CONTEXT ucp cache)
       (UnwindImpl cfg mem AddressIsReadable vdso IS_STACK_FRAMES
          IS_WITH_CONTEXT max_depth ucp frame_address result sizes skip_count
          min_dropped_frames cache)
       (fun out =>
          forall (i : nat) v,
            Z.of_nat i < out_n out -> out_result out !! i = Some v ->
            v <> 0)).
Proof.
  split.
  - intros fuel st Hfp Hn Hra. simpl.
    apply Z.eqb_neq in Hfp. apply Z.ltb_lt in Hn.
    by rewrite Hfp, Hn, Hra.
  - intros frame_address result sizes skip_count min_dropped_frames cache.
    eapply returns_unless_weaken; [apply UnwindImpl_outcome |].
    intros out Hout _ i v Hi Hv.
    apply UnwindImpl_Returned in Hout
      as (fs & fpe & ce & Hwalk & Hn & Hres & _).
    apply walk_frames in Hwalk.
    rewrite Hn in Hi. rewrite Hres in Hv.
    destruct (drop (Z.to_nat skip_count) fs !! i) as [[fp nf] |] eqn:Hf.
    2:{ apply lookup_ge_None in Hf. lia. }
    assert (i < length result)%nat as Hlen.
    { apply lookup_lt_Some in Hv. by rewrite length_store_from in Hv. }
    rewrite (store_from_lookup _ 0 result i (return_address cfg mem fp))
      in Hv; [| by rewrite list_lookup_fmap, Hf | done].
    injection Hv as <-.
    rewrite lookup_drop in Hf.
    eapply Forall_lookup_1 in Hwalk; [| exact Hf]. simpl in Hwalk. tauto.
Qed.

End DriverFacts.

Lemma UnwindImpl_count_bound_witness :
  returns_unless
    (trampoline_abort linux_x86_64 three_frame_memory no_vdso false None
       initial_cache)
    (UnwindImpl linux_x86_64 three_frame_memory all_readable no_vdso false
       false 2 None 0x7000 [0; 0; 0] [] 0 None initial_cache)
    (fun out =>
       0 <= out_n out <= 2 /\
       length (out_result out) = length [0; 0; 0] /\
       forall i : nat,
         out_n out <= Z.of_nat i -> out_result out !! i = [0; 0; 0] !! i).
Proof.
  apply (UnwindImpl_count_bound linux_x86_64 three_frame_memory all_readable
           no_vdso false false 2 None 0x7000 [0; 0; 0] [] 0 None
           initial_cache).
  lia.
Defined.

Lemma UnwindImpl_null_return_address_witness :
  capture_loop linux_x86_64 idle_frame_memory all_readable no_vdso false false
    5 None 1
    {| st_n := 0; st_fp := 0x7000; st_skip_count := 0; st_result := [0];
       st_sizes := []; st_cache := initial_cache |}
  = Returned
      {| st_n := 0; st_fp := 0x7000; st_skip_count := 0; st_result := [0];
         st_sizes := []; st_cache := initial_cache |}.
Proof.
  apply (proj1 (UnwindImpl_null_return_address linux_x86_64 idle_frame_memory
                  all_readable no_vdso false false 5 None) O
           {| st_n := 0; st_fp := 0x7000; st_skip_count := 0;
              st_result := [0]; st_sizes := []; st_cache := initial_cache |}).
  - discriminate.
  - reflexivity.
  - reflexivity.
Defined.

(** C4: let [frames] be the walk of the stack, up to
    [skip_count + max_depth] valid frames.  The call records the frames
    after the first [skip_count] of them: [n] is their number, slot [i] of
    [result] holds the return address of frame [skip_count + i] of the
    walk, and when the walk has [skip_count + max_depth] frames, [n] is
    [max_depth]. *)
Theorem UnwindImpl_skip_count (cfg : Config) (mem : memory)
    (AddressIsReadable : Z -> bool) (vdso : VDSOSupport)
    (IS_STACK_FRAMES IS_WITH_CONTEXT : bool) (max_depth : Z)
    (ucp : option ucontext_t) (frame_address : Z) (result sizes : list Z)
    (skip_count : Z) (min_dropped_frames : option Z)
    (cache : TrampolineCache) (frames : list (Z * Z)) (fp_end : Z)
    (cache' : TrampolineCache) :
  0 <= skip_count -> 0 <= max_depth ->
  walk cfg mem
    (fun fp c =>
       NextStackFrame cfg mem AddressIsReadable vdso (negb IS_STACK_FRAMES)
         IS_WITH_CONTEXT fp ucp c)
    (Z.to_nat (skip_count + max_depth)) frame_address cache
    = Returned (frames, fp_end, cache') ->
  returns_unless (trampoline_abort cfg mem vdso IS_WITH_CONTEXT ucp cache)
    (UnwindImpl cfg mem AddressIsReadable vdso IS_STACK_FRAMES
       IS_WITH_CONTEXT max_depth ucp frame_address result sizes skip_count
       min_dropped_frames cache)
    (fun out =>
       out_n out = Z.of_nat (length (drop (Z.to_nat skip_count) frames)) /\
       (forall i : nat,
          Z.of_nat i < out_n out -> (i < length result)%nat ->
          exists fp next_fp,
            frames !! (Z.to_nat skip_count + i)%nat = Some (fp, next_fp) /\
            out_result out !! i = Some (return_address cfg mem fp)) /\
       (length frames = Z.to_nat (skip_count + max_depth) ->
        out_n out = max_depth)).
Proof.
  intros Hs Hd Hframes.
  eapply returns_unless_weaken; [apply UnwindImpl_outcome |].
  intros out Hout _.
  apply UnwindImpl_Returned in Hout
    as (fs & fpe & ce & Hwalk & Hn & Hres & _).
  pose proof (walk_length _ _ _ _ _ _ _ _ _ Hframes) as Hlen.
  destruct (0 <? max_depth) eqn:E.
  - apply Z.ltb_lt in E.
    replace (Z.to_nat skip_count + Z.to_nat max_depth)%nat
      with (Z.to_nat (skip_count + max_depth)) in Hwalk by lia.
    rewrite Hframes in Hwalk. injection Hwalk as <- <- <-.
    split; [done |]. split.
    + intros i Hi Hlt. rewrite Hn, length_drop in Hi.
      destruct (frames !! (Z.to_nat skip_count + i)%nat) as [[fp nf] |] eqn:Hf.
      2:{ apply lookup_ge_None in Hf. lia. }
      exists fp, nf. split; [done |]. rewrite Hres.
      apply (store_from_lookup _ 0 result i); [| done].
      by rewrite list_lookup_fmap, lookup_drop, Hf.
    + intros Hfull. rewrite Hn, length_drop. lia.
  - apply Z.ltb_ge in E. assert (max_depth = 0) as -> by lia.
    simpl in Hwalk. injection Hwalk as <- <- <-.
    rewrite drop_nil in Hn. simpl in Hn. rewrite Hn, length_drop.
    replace (skip_count + 0) with skip_count in * by lia.
    split; [lia |]. split; [intros i Hi; lia | lia].
Qed.

Lemma UnwindImpl_skip_count_witness :
  returns_unless
    (trampoline_abort linux_x86_64 three_frame_memory no_vdso false None
       initial_cache)
    (UnwindImpl linux_x86_64 three_frame_memory all_readable no_vdso false
       false 2 None 0x7000 [0; 0] [] 1 None initial_cache)
    (fun out =>
       out_n out
       = Z.of_nat (length (drop (Z.to_nat 1)
                             [(0x7000, 0x7020); (0x7020, 0x7040); (0x7040, 0)])) /\
       (forall i : nat,
          Z.of_nat i < out_n out -> (i < length [0; 0])%nat ->
          exists fp next_fp,
            [(0x7000, 0x7020); (0x7020, 0x7040); (0x7040, 0)]
              !! (Z.to_nat 1 + i)%nat = Some (fp, next_fp) /\
            out_result out !! i
            = Some (return_address linux_x86_64 three_frame_memory fp)) /\
       (length [(0x7000, 0x7020); (0x7020, 0x7040); (0x7040, 0)]
        = Z.to_nat (1 + 2) -> out_n out = 2)).
Proof.
  apply (UnwindImpl_skip_count linux_x86_64 three_frame_memory all_readable
           no_vdso false false 2 None 0x7000 [0; 0] [] 1 None initial_cache
           [(0x7000, 0x7020); (0x7020, 0x7040); (0x7040, 0)] 0 initial_cache).
  - lia.
  - lia.
  - vm_compute. reflexivity.
Defined.

(** C5 (as amended): with frame sizes enabled, every recorded frame [i] is a
    frame [fp] of the walk with the validator's answer [next_fp] for it, and
    [sizes[i]] is 0 when [next_fp] is not above [fp] (in particular when
    there is no next frame); otherwise it is the byte difference
    [next_fp - fp] converted to [int], which is the difference itself
    whenever that is below 2^31. *)
Theorem UnwindImpl_frame_sizes (cfg : Config) (mem : memory)
    (AddressIsReadable : Z -> bool) (vdso : VDSOSupport)
    (IS_WITH_CONTEXT : bool) (max_depth : Z) (ucp : option ucontext_t)
    (frame_address : Z) (result sizes : list Z) (skip_count : Z)
    (min_dropped_frames : option Z) (cache : TrampolineCache) :
  returns_unless (trampoline_abort cfg mem vdso IS_WITH_CONTEXT ucp cache)
    (UnwindImpl cfg mem AddressIsReadable vdso true IS_WITH_CONTEXT max_depth
       ucp frame_address result sizes skip_count min_dropped_frames cache)
    (fun out =>
       forall i : nat,
         Z.of_nat i < out_n out -> (i < length sizes)%nat ->
         exists fp next_fp c c' sz,
           NextStackFrame cfg mem AddressIsReadable vdso false IS_WITH_CONTEXT
             fp ucp c = Returned (next_fp, c') /\
           ((i < length result)%nat ->
            out_result out !! i = Some (return_address cfg mem fp)) /\
           out_sizes out !! i = Some sz /\
           (next_fp <= fp -> sz = 0) /\
           (fp < next_fp -> sz = wrap_int (next_fp - fp)) /\
           (fp < next_fp -> next_fp - fp < 2 ^ 31 -> sz = next_fp - fp)).
Proof.
  eapply returns_unless_weaken; [apply UnwindImpl_outcome |].
  intros out Hout _ i Hi Hlt.
  apply UnwindImpl_Returned in Hout
    as (fs & fpe & ce & Hwalk & Hn & Hres & Hsz & _).
  apply walk_frames in Hwalk.
  rewrite Hn in Hi. rewrite Hres, Hsz.
  destruct (drop (Z.to_nat skip_count) fs !! i) as [[fp nf] |] eqn:Hf.
  2:{ apply lookup_ge_None in Hf. lia. }
  pose proof Hf as Hf'. rewrite lookup_drop in Hf'.
  eapply Forall_lookup_1 in Hwalk; [| exact Hf'].
  destruct Hwalk as (_ & _ & c & c' & Hstep). simpl in Hstep.
  exists fp, nf, c, c', (frame_size fp nf). split; [done |]. split.
  { intros Hlr. apply (store_from_lookup _ 0 result i); [| done].
    by rewrite list_lookup_fmap, Hf. }
  split.
  { apply (store_from_lookup _ 0 sizes i); [| done].
    by rewrite list_lookup_fmap, Hf. }
  split; [apply frame_size_unknown |]. split; [| apply frame_size_exact].
  intros Hlt'. unfold frame_size. by rewrite (proj2 (Z.gtb_lt _ _)) by lia.
Qed.

Lemma UnwindImpl_frame_sizes_witness :
  returns_unless
    (trampoline_abort linux_x86_64 three_frame_memory no_vdso false None
       initial_cache)
    (UnwindImpl linux_x86_64 three_frame_memory all_readable no_vdso true
       false 3 None 0x7000 [0; 0; 0] [7; 7; 7] 0 None initial_cache)
    (fun out =>
       forall i : nat,
         Z.of_nat i < out_n out -> (i < length [7; 7; 7])%nat ->
         exists fp next_fp c c' sz,
           NextStackFrame linux_x86_64 three_frame_memory all_readable no_vdso
             false false fp None c = Returned (next_fp, c') /\
           ((i < length [0; 0; 0])%nat ->
            out_result out !! i
            = Some (return_address linux_x86_64 three_frame_memory fp)) /\
           out_sizes out !! i = Some sz /\
           (next_fp <= fp -> sz = 0) /\
           (fp < next_fp -> sz = wrap_int (next_fp - fp)) /\
           (fp < next_fp -> next_fp - fp < 2 ^ 31 -> sz = next_fp - fp)).
Proof.
  exact (UnwindImpl_frame_sizes linux_x86_64 three_frame_memory all_readable
           no_vdso false 3 None 0x7000 [0; 0; 0] [7; 7; 7] 0 None
           initial_cache).
Defined.

(** C5, counterexample: a 32-bit process, frame sizes enabled.  The frame
    at 0x08000000 (alternate signal stack) links to 0xbf000000 (main
    stack); the validator accepts the link, the next frame is above the
    current one, and the size recorded is -1224736768, not the difference
    0xb7000000 of the two frame pointers. *)
Lemma UnwindImpl_frame_size_truncated :
  NextStackFrame linux_i386 alternate_stack_memory all_readable no_vdso
    false false 0x08000000 None initial_cache
    = Returned (0xbf000000, initial_cache) /\
  UnwindImpl linux_i386 alternate_stack_memory all_readable no_vdso true false
    1 None 0x08000000 [0] [0] 0 None initial_cache
    = Returned {| out_n := 1; out_result := [0x08048000];
                  out_sizes := [-1224736768];
                  out_min_dropped_frames := None;
                  out_cache := initial_cache |} /\
  0x08000000 < 0xbf000000 /\
  -1224736768 <> 0xbf000000 - 0x08000000.
Proof.
  split; [vm_compute; reflexivity |].
  split; [vm_compute; reflexivity |].
  split; [lia | discriminate].
Qed.

(** ** Well-formed stacks and the dropped-frame count *)

Section WellFormed.

Variable cfg : Config.
Variable mem : memory.
Variable AddressIsReadable : Z -> bool.
Variable vdso : VDSOSupport.
Variable strict wc : bool.

Local Abbreviation wf := (well_formed_stack cfg mem AddressIsReadable).
Local Abbreviation step :=
  (fun fp cache =>
     NextStackFrame cfg mem AddressIsReadable vdso strict wc fp None cache).

Lemma well_formed_stack_cons fp rest :
  wf (fp :: rest) = true ->
  0 < fp /\ Z.land fp (sizeof_ptr cfg - 1) = 0 /\
  (def_i386 cfg = true -> fp < 0xffffe000) /\
  AddressIsReadable fp = true /\
  return_address cfg mem fp <> 0 /\
  match rest with
  | [] => load_ptr cfg mem fp = 0
  | next_fp :: _ =>
    load_ptr cfg mem fp = next_fp /\ fp < next_fp /\ next_fp - fp <= 100000
  end /\
  wf rest = true.
Proof.
  simpl. rewrite !andb_true_iff.
  intros ((((((H0 & Hal) & Hpg) & Hrd) & Hra) & Hlink) & Hrest).
  apply Z.ltb_lt in H0. apply Z.eqb_eq in Hal.
  apply negb_true_iff, Z.eqb_neq in Hra.
  repeat split; try done.
  - intros Hi. rewrite Hi in Hpg. simpl in Hpg. by apply Z.ltb_lt in Hpg.
  - destruct rest as [| nf rest'].
    + by apply Z.eqb_eq in Hlink.
    + rewrite !andb_true_iff in Hlink. destruct Hlink as ((H1 & H2) & H3).
      apply Z.eqb_eq in H1. apply Z.ltb_lt in H2.
      unfold kMaxFrameBytes in H3. apply Z.leb_le in H3. done.
Qed.

(** On a well-formed stack, without a signal context, the validator steps
    from each frame to the next one of the list, and from the last frame
    to null, in strict and in lax mode alike. *)
Lemma well_formed_stack_step fp rest cache :
  wf (fp :: rest) = true ->
  step fp cache = Returned (hd 0 rest, cache).
Proof.
  intros Hwf. apply well_formed_stack_cons in Hwf
    as (H0 & Hal & Hpg & Hrd & Hra & Hlink & Hrest).
  rewrite NextStackFrame_no_context by (right; by left).
  f_equal. f_equal. unfold validate_transition.
  simpl is_nullptr. rewrite orb_true_r. simpl orb. rewrite andb_true_r.
  destruct rest as [| nf rest']; simpl hd.
  - rewrite Hlink. destruct strict; [| done].
    by rewrite (proj2 (Z.leb_le 0 fp)) by lia.
  - destruct Hlink as (-> & Hlt & Hd).
    apply well_formed_stack_cons in Hrest
      as (Hn0 & Hnal & Hnpg & Hnrd & _).
    destruct strict.
    + rewrite (proj2 (Z.leb_gt nf fp)) by lia.
      unfold kMaxFrameBytes.
      destruct (nf - fp >? 100000) eqn:E; [apply Z.gtb_lt in E; lia |].
      by apply check_candidate_accept.
    + rewrite (proj2 (Z.eqb_neq nf 0)) by lia.
      rewrite (proj2 (Z.eqb_neq nf fp)) by lia.
      by apply check_candidate_accept.
Qed.

Lemma well_formed_stack_drop k : forall frames,
  wf frames = true -> wf (drop k frames) = true.
Proof.
  induction k as [| k IH]; intros frames Hwf; [by rewrite drop_0 |].
  destruct frames as [| fp rest]; [done |]. simpl.
  apply IH. by apply well_formed_stack_cons in Hwf as (_&_&_&_&_&_&?).
Qed.

(** The walk of a well-formed stack visits its frames in order. *)
Lemma walk_well_formed k : forall frames cache,
  wf frames = true ->
  exists visited,
    walk cfg mem step k (hd 0 frames) cache
      = Returned (visited, hd 0 (drop k frames), cache) /\
    visited.*1 = take k frames.
Proof.
  induction k as [| k IH]; intros frames cache Hwf.
  - exists []. by rewrite drop_0.
  - destruct frames as [| fp rest]; [by exists [] |].
    pose proof (well_formed_stack_step fp rest cache Hwf) as Hstep.
    apply well_formed_stack_cons in Hwf
      as (H0 & _ & _ & _ & Hra & _ & Hrest).
    destruct (IH rest cache Hrest) as (fs & Hw & Hfs).
    exists ((fp, hd 0 rest) :: fs). split.
    + simpl walk. simpl hd.
      rewrite (proj2 (Z.eqb_neq fp 0)) by lia.
      rewrite (proj2 (Z.eqb_neq _ 0) Hra). simpl orb. cbv beta.
      rewrite Hstep. unfold mbind at 1. unfold outcome_bind at 1.
      cbv beta match. by rewrite Hw.
    + rewrite fmap_cons, Hfs. done.
Qed.

(** The frames counted from the top of a well-formed stack: all of them, up
    to the limit. *)
Lemma count_frames_well_formed limit : forall frames cache,
  wf frames = true ->
  count_frames step limit (hd 0 frames) cache
  = Returned (Z.of_nat (Nat.min limit (length frames)), cache).
Proof.
  induction limit as [| limit IH]; intros frames cache Hwf; [done |].
  destruct frames as [| fp rest]; [done |].
  pose proof (well_formed_stack_step fp rest cache Hwf) as Hstep.
  apply well_formed_stack_cons in Hwf as (H0 & _ & _ & _ & _ & _ & Hrest).
  simpl count_frames. simpl hd.
  rewrite (proj2 (Z.eqb_neq fp 0)) by lia. cbv beta.
  rewrite Hstep. unfold mbind at 1. unfold outcome_bind at 1.
  cbv beta match. rewrite (IH rest cache Hrest). simpl.
  do 2 f_equal. lia.
Qed.

End WellFormed.

Section DroppedFrames.

Variable cfg : Config.
Variable mem : memory.
Variable AddressIsReadable : Z -> bool.
Variable vdso : VDSOSupport.
Variable IS_STACK_FRAMES IS_WITH_CONTEXT : bool.
Variable max_depth : Z.
Variable ucp : option ucontext_t.

Local Abbreviation step :=
  (fun fp cache =>
     NextStackFrame cfg mem AddressIsReadable vdso
       (negb IS_STACK_FRAMES) IS_WITH_CONTEXT fp ucp cache).

Local Abbreviation iter :=
  (NextStackFrame_iter cfg mem AddressIsReadable vdso
     (negb IS_STACK_FRAMES) IS_WITH_CONTEXT ucp).

(** A count [j] of frames means [j] validator steps: the frame pointer is
    not null before any of them, and it is null after the last one unless
    the count stopped at the limit. *)
Lemma count_frames_iter limit : forall fp cache j cache',
  count_frames step limit fp cache = Returned (j, cache') ->
  (forall i : nat, Z.of_nat i < j ->
     exists f c, iter i fp cache = Returned (f, c) /\ f <> 0) /\
  (j = Z.of_nat limit \/
   exists c, iter (Z.to_nat j) fp cache = Returned (0, c)).
Proof.
  induction limit as [| limit IH]; intros fp cache j cache' H.
  - simpl in H. injection H as <- _. split; [intros i Hi; lia | by left].
  - simpl in H. destruct (fp =? 0) eqn:Hfp.
    { injection H as <- _. apply Z.eqb_eq in Hfp as ->.
      split; [intros i Hi; lia | right; by exists cache]. }
    destruct (NextStackFrame cfg mem AddressIsReadable vdso
                (negb IS_STACK_FRAMES) IS_WITH_CONTEXT fp ucp cache)
      as [[nf c1] | |] eqn:Hstep; simpl in H; [| done | done].
    destruct (count_frames _ limit nf c1) as [[j' cj] | |] eqn:Hc;
      simpl in H; [| done | done].
    injection H as <- _.
    pose proof (count_frames_range _ _ _ _ _ _ Hc) as [Hj' _].
    destruct (IH _ _ _ _ Hc) as [Hbefore Hafter]. split.
    + intros [| i] Hi.
      * exists fp, cache. split; [done |]. by apply Z.eqb_neq.
      * destruct (Hbefore i ltac:(lia)) as (f & c & Hf & Hne).
        exists f, c. split; [| done].
        simpl. by rewrite Hfp, Hstep.
    + destruct Hafter as [-> | [c Hc0]]; [left; lia |].
      right. exists c.
      replace (Z.to_nat (1 + j')) with (S (Z.to_nat j')) by lia.
      simpl. by rewrite Hfp, Hstep.
Qed.

End DroppedFrames.

(** C6 (as amended): when a dropped-frame count is requested, a returning
    call assigns it a value [j] with [0 <= j <= 1000], the number of
    validator steps taken from the frame pointer [st_fp st] at which the
    capture loop stopped: the frame pointer is not null before any of the
    [j] steps, and it is null after them unless [j] is the cap 1000; so [j]
    is 0 when no frame pointer remained.  On a well-formed stack of [N]
    frames, walked without a signal context and with [skip_count = 0] and
    [max_depth = k < N], the call records [k] frames and the value is
    [min (N - k) 1000]: the number of frames left, capped at 1000. *)
Theorem UnwindImpl_min_dropped_frames (cfg : Config) (mem : memory)
    (AddressIsReadable : Z -> bool) (vdso : VDSOSupport)
    (IS_STACK_FRAMES IS_WITH_CONTEXT : bool) (max_depth : Z)
    (ucp : option ucontext_t) (frame_address : Z) (result sizes : list Z)
    (skip_count : Z) (v : Z) (cache : TrampolineCache) :
  returns_unless (trampoline_abort cfg mem vdso IS_WITH_CONTEXT ucp cache)
    (UnwindImpl cfg mem AddressIsReadable vdso IS_STACK_FRAMES
       IS_WITH_CONTEXT max_depth ucp frame_address result sizes skip_count
       (Some v) cache)
    (fun out =>
       exists st j,
         capture_loop cfg mem AddressIsReadable vdso IS_STACK_FRAMES
           IS_WITH_CONTEXT max_depth ucp (capture_budget max_depth skip_count)
           {| st_n := 0; st_fp := frame_address;
              st_skip_count := skip_count; st_result := result;
              st_sizes := sizes; st_cache := cache |} = Returned st /\
         out_n out = st_n st /\
         out_min_dropped_frames out = Some j /\
         0 <= j <= 1000 /\
         (st_fp st = 0 -> j = 0) /\
         (forall i : nat, Z.of_nat i < j ->
            exists f c,
              NextStackFrame_iter cfg mem AddressIsReadable vdso
                (negb IS_STACK_FRAMES) IS_WITH_CONTEXT ucp i
                (st_fp st) (st_cache st) = Returned (f, c) /\ f <> 0) /\
         (j = 1000 \/
          exists c,
            NextStackFrame_iter cfg mem AddressIsReadable vdso
              (negb IS_STACK_FRAMES) IS_WITH_CONTEXT ucp (Z.to_nat j)
              (st_fp st) (st_cache st) = Returned (0, c))) /\
  (forall frames : list Z,
     well_formed_stack cfg mem AddressIsReadable frames = true ->
     ucp = None -> skip_count = 0 ->
     frame_address = hd 0 frames ->
     0 <= max_depth < Z.of_nat (length frames) ->
     exists out,
       UnwindImpl cfg mem AddressIsReadable vdso IS_STACK_FRAMES
         IS_WITH_CONTEXT max_depth ucp frame_address result sizes skip_count
         (Some v) cache = Returned out /\
       out_n out = max_depth /\
       out_min_dropped_frames out
       = Some (Z.min (Z.of_nat (length frames) - max_depth) 1000)).
Proof.
  split.
  - eapply returns_unless_weaken; [apply UnwindImpl_outcome |].
    intros out Hout _. unfold UnwindImpl in Hout.
    destruct (capture_loop cfg mem AddressIsReadable vdso IS_STACK_FRAMES
                IS_WITH_CONTEXT max_depth ucp _ _) as [st | |] eqn:Hcap;
      [| done | done].
    unfold mbind at 1 in Hout. unfold outcome_bind at 1 in Hout.
    cbv beta match in Hout.
    rewrite count_dropped_loop_count in Hout by (unfold kMaxUnwind; lia).
    rewrite Z.sub_0_r in Hout.
    destruct (count_frames _ _ (st_fp st) (st_cache st))
      as [[j cj] | |] eqn:Hcount; [| done | done].
    unfold mbind, outcome_bind in Hout. cbv beta match in Hout.
    injection Hout as <-. cbn [out_n out_min_dropped_frames].
    exists st, (0 + j). rewrite Z.add_0_l.
    pose proof (count_frames_range _ _ _ _ _ _ Hcount) as [Hj Hnull].
    pose proof (count_frames_iter _ _ _ _ _ _ _ _ _ _ _ _ Hcount)
      as [Hbefore Hafter].
    change (Z.of_nat (Z.to_nat kMaxUnwind)) with 1000 in *.
    repeat split; try done; lia.
  - intros frames Hwf -> -> -> Hk.
    rewrite UnwindImpl_walk. unfold unwind_spec.
    change (Z.to_nat 0) with O. rewrite Nat.add_0_l.
    assert ((if 0 <? max_depth then Z.to_nat max_depth else O)
            = Z.to_nat max_depth) as ->.
    { destruct (0 <? max_depth) eqn:E; [done |]. apply Z.ltb_ge in E. lia. }
    destruct (walk_well_formed cfg mem AddressIsReadable vdso
                (negb IS_STACK_FRAMES) IS_WITH_CONTEXT (Z.to_nat max_depth)
                frames cache Hwf) as (fs & -> & Hfs).
    unfold mbind at 1. unfold outcome_bind at 1. cbv beta match.
    rewrite (count_frames_well_formed cfg mem AddressIsReadable vdso
               (negb IS_STACK_FRAMES) IS_WITH_CONTEXT)
      by (by apply well_formed_stack_drop).
    unfold mbind, outcome_bind. cbv beta match.
    eexists. split; [reflexivity |]. cbn [out_n out_min_dropped_frames].
    rewrite drop_0.
    assert (length fs = Z.to_nat max_depth) as Hlen.
    { rewrite <- (length_fmap fst fs), Hfs, length_take. lia. }
    split; [lia |]. f_equal. rewrite length_drop.
    change (Z.to_nat kMaxUnwind) with 1000%nat. lia.
Qed.

Lemma UnwindImpl_min_dropped_frames_witness :
  exists out,
    UnwindImpl linux_x86_64 three_frame_memory all_readable no_vdso false
      false 1 None 0x7000 [0] [] 0 (Some 0) initial_cache = Returned out /\
    out_n out = 1 /\
    out_min_dropped_frames out
    = Some (Z.min (Z.of_nat (length [0x7000; 0x7020; 0x7040]) - 1) 1000).
Proof.
  apply (proj2 (UnwindImpl_min_dropped_frames linux_x86_64 three_frame_memory
                  all_readable no_vdso false false 1 None 0x7000 [0] [] 0 0
                  initial_cache) [0x7000; 0x7020; 0x7040]).
  - vm_compute. reflexivity.
  - reflexivity.
  - reflexivity.
  - reflexivity.
  - simpl. lia.
Defined.

(** C6, counterexample: a well-formed stack of N = 1002 frames, unwound
    with [max_depth = k = 1] and no skipping.  One frame is recorded and
    1001 are left, but the count stops at the cap: the value assigned is
    1000, which is less than N - k = 1001. *)
Lemma UnwindImpl_min_dropped_frames_capped :
  well_formed_stack linux_x86_64 (deep_stack_memory 1002) all_readable
    (deep_stack_frames 1002) = true /\
  length (deep_stack_frames 1002) = 1002%nat /\
  UnwindImpl linux_x86_64 (deep_stack_memory 1002) all_readable no_vdso false
    false 1 None 0x10000 [0] [] 0 (Some 0) initial_cache
    = Returned {| out_n := 1; out_result := [0x400000]; out_sizes := [];
                  out_min_dropped_frames := Some 1000;
                  out_cache := initial_cache |} /\
  ~ (1000 >= 1002 - 1).
Proof.
  split; [vm_compute; reflexivity |].
  split; [vm_compute; reflexivity |].
  split; [vm_compute; reflexivity | lia].
Qed.

(** ** Strictness of the validation *)




(** ** Further properties of the driver *)

(** X1: in a build with assertions compiled out, in a build without the
    32-bit Linux trampoline correction, and in any call without a signal
    context, [UnwindImpl] returns: no path raises or runs for ever. *)
Theorem UnwindImpl_returns (cfg : Config) (mem : memory)
    (AddressIsReadable : Z -> bool) (vdso : VDSOSupport)
    (IS_STACK_FRAMES IS_WITH_CONTEXT : bool) (max_depth : Z)
    (ucp : option ucontext_t) (frame_address : Z) (result sizes : list Z)
    (skip_count : Z) (min_dropped_frames : option Z)
    (cache : TrampolineCache) :
  def_NDEBUG cfg = true \/ def_linux cfg && def_i386 cfg = false \/
    IS_WITH_CONTEXT = false \/ ucp = None ->
  exists out,
    UnwindImpl cfg mem AddressIsReadable vdso IS_STACK_FRAMES IS_WITH_CONTEXT
      max_depth ucp frame_address result sizes skip_count min_dropped_frames
      cache = Returned out.
Proof.
  intros Hcase.
  pose proof (UnwindImpl_outcome cfg mem AddressIsReadable vdso
                IS_STACK_FRAMES IS_WITH_CONTEXT max_depth ucp frame_address
                result sizes skip_count min_dropped_frames cache) as Ho.
  destruct (UnwindImpl cfg mem AddressIsReadable vdso IS_STACK_FRAMES
              IS_WITH_CONTEXT max_depth ucp frame_address result sizes
              skip_count min_dropped_frames cache) as [out | msg |];
    simpl in Ho; [by exists out | | done].
  destruct Ho as (Hcfg & Hwc & Huc & Hinit).
  pose proof (init_trampoline_cache_outcome cfg mem vdso cache) as Hi.
  rewrite Hinit in Hi. simpl in Hi.
  destruct Hcase as [? | [? | [? | ?]]]; congruence.
Qed.

Lemma UnwindImpl_returns_witness :
  exists out,
    UnwindImpl linux_x86_64 three_frame_memory all_readable no_vdso false
      true 2 (Some (context_with 0x7000 0x6ff0 0)) 0x7000 [0; 0] [] 0 None
      initial_cache = Returned out.
Proof.
  apply (UnwindImpl_returns linux_x86_64 three_frame_memory all_readable
           no_vdso false true 2 (Some (context_with 0x7000 0x6ff0 0)) 0x7000
           [0; 0] [] 0 None initial_cache).
  right. left. reflexivity.
Defined.

(** X2: a well-formed stack of N frames, unwound without a signal context,
    with no skipping and [max_depth >= N] into a buffer of at least N slots:
    the call returns N, [result] holds the return addresses of the frames in
    order, and the dropped-frame count is 0. *)
Theorem UnwindImpl_well_formed_stack (cfg : Config) (mem : memory)
    (AddressIsReadable : Z -> bool) (vdso : VDSOSupport)
    (IS_STACK_FRAMES IS_WITH_CONTEXT : bool) (max_depth : Z)
    (result sizes : list Z) (v : Z) (cache : TrampolineCache)
    (frames : list Z) :
  well_formed_stack cfg mem AddressIsReadable frames = true ->
  Z.of_nat (length frames) <= max_depth ->
  (length frames <= length result)%nat ->
  exists out,
    UnwindImpl cfg mem AddressIsReadable vdso IS_STACK_FRAMES IS_WITH_CONTEXT
      max_depth None (hd 0 frames) result sizes 0 (Some v) cache
      = Returned out /\
    out_n out = Z.of_nat (length frames) /\
    (forall (i : nat) fp,
       frames !! i = Some fp ->
       out_result out !! i = Some (return_address cfg mem fp)) /\
    out_min_dropped_frames out = Some 0.
Proof.
  intros Hwf Hdepth Hbuf.
  rewrite UnwindImpl_walk. unfold unwind_spec.
  change (Z.to_nat 0) with O. rewrite Nat.add_0_l.
  assert ((if 0 <? max_depth then Z.to_nat max_depth else O)
          = Z.to_nat max_depth) as ->.
  { destruct (0 <? max_depth) eqn:E; [done |]. apply Z.ltb_ge in E. lia. }
  destruct (walk_well_formed cfg mem AddressIsReadable vdso
              (negb IS_STACK_FRAMES) IS_WITH_CONTEXT (Z.to_nat max_depth)
              frames cache Hwf) as (fs & -> & Hfs).
  rewrite take_ge in Hfs by lia. rewrite drop_ge by lia.
  unfold mbind at 1. unfold outcome_bind at 1. cbv beta match.
  rewrite (count_frames_well_formed cfg mem AddressIsReadable vdso
             (negb IS_STACK_FRAMES) IS_WITH_CONTEXT _ [] cache eq_refl).
  unfold mbind, outcome_bind. cbv beta match.
  eexists. split; [reflexivity |].
  cbn [out_n out_result out_min_dropped_frames]. rewrite drop_0.
  assert (length fs = length frames) as Hlen
    by (by rewrite <- (length_fmap fst fs), Hfs).
  split; [by rewrite Hlen |]. split.
  - intros i fp Hi. rewrite <- Hfs, list_lookup_fmap in Hi.
    destruct (fs !! i) as [[fp' nf] |] eqn:Hf; [| done].
    injection Hi as <-.
    apply (store_from_lookup _ 0 result i).
    + by rewrite list_lookup_fmap, Hf.
    + apply lookup_lt_Some in Hf. lia.
  - change (length (@nil Z)) with O. by rewrite Nat.min_0_r.
Qed.

Lemma UnwindImpl_well_formed_stack_witness :
  exists out,
    UnwindImpl linux_x86_64 three_frame_memory all_readable no_vdso false
      false 8 None (hd 0 [0x7000; 0x7020; 0x7040]) [0; 0; 0; 0] [] 0
      (Some 0) initial_cache = Returned out /\
    out_n out = Z.of_nat (length [0x7000; 0x7020; 0x7040]) /\
    (forall (i : nat) fp,
       [0x7000; 0x7020; 0x7040] !! i = Some fp ->
       out_result out !! i
       = Some (return_address linux_x86_64 three_frame_memory fp)) /\
    out_min_dropped_frames out = Some 0.
Proof.
  apply (UnwindImpl_well_formed_stack linux_x86_64 three_frame_memory
           all_readable no_vdso false false 8 [0; 0; 0; 0] [] 0
           initial_cache [0x7000; 0x7020; 0x7040]).
  - vm_compute. reflexivity.
  - simpl. lia.
  - simpl. lia.
Defined.

(** * Further properties *)

(** ** The validator *)

Section ValidatorExtras.

Variable cfg : Config.
Variable mem : memory.
Variable AddressIsReadable : Z -> bool.
Variable vdso : VDSOSupport.

(** An accepted candidate differs from the current frame and went through
    the alignment, guard-page and (in lax mode) readability tests. *)
Lemma validate_transition_accepted strict wc old_fp new_fp uc :
  validate_transition cfg AddressIsReadable strict wc old_fp new_fp uc <> 0 ->
  new_fp <> old_fp /\
  Z.land new_fp (sizeof_ptr cfg - 1) = 0 /\
  (def_i386 cfg = true -> new_fp < 0xffffe000) /\
  (strict = false -> def_WIN32 cfg = false ->
   AddressIsReadable new_fp = true).
Proof.
  unfold validate_transition. intros Hacc.
  assert (new_fp <> old_fp /\
          check_candidate cfg AddressIsReadable strict new_fp <> 0)
    as [Hne Hchk].
  { destruct (strict && _).
    - destruct (new_fp <=? old_fp) eqn:E; [done |].
      apply Z.leb_gt in E.
      destruct (new_fp - old_fp >? kMaxFrameBytes); [done |].
      split; [lia | done].
    - destruct (new_fp =? 0); [done |].
      destruct (new_fp =? old_fp) eqn:E; [done |].
      by apply Z.eqb_neq in E. }
  destruct (check_candidate_cases cfg AddressIsReadable strict new_fp)
    as [? | (_ & Hal & Hpg & Hrd)]; [done |].
  repeat split; auto.
Qed.

(** X3: whatever the mode, the build and the signal context, a non-null
    frame pointer returned by [NextStackFrame] is never the current frame
    itself, is pointer-aligned, lies below the last two pages of a 32-bit
    address space, and in lax mode (Windows apart) passed the readability
    probe. *)
Theorem NextStackFrame_accepts_only_plausible strict wc old_fp uc cache
    new_fp cache' :
  NextStackFrame cfg mem AddressIsReadable vdso strict wc old_fp uc cache
    = Returned (new_fp, cache') ->
  new_fp <> 0 ->
  new_fp <> old_fp /\
  Z.land new_fp (sizeof_ptr cfg - 1) = 0 /\
  (def_i386 cfg = true -> new_fp < 0xffffe000) /\
  (strict = false -> def_WIN32 cfg = false ->
   AddressIsReadable new_fp = true).
Proof.
  intros Hret Hne.
  apply NextStackFrame_validated in Hret as [cand ->].
  destruct (validate_transition_cases cfg AddressIsReadable strict wc
              old_fp cand uc) as [E | E]; [done |].
  rewrite E. apply (validate_transition_accepted strict wc old_fp cand uc).
  by rewrite E in Hne |- *.
Qed.

(** Without the trampoline correction the validator's answer is null or
    the word saved at the current frame, and the cache is left alone. *)
Lemma NextStackFrame_follows_saved_frame_pointer_aux strict wc old_fp uc
    cache new_fp cache' :
  NextStackFrame cfg mem AddressIsReadable vdso strict wc old_fp uc cache
    = Returned (new_fp, cache') ->
  wc = false \/ uc = None \/ def_linux cfg && def_i386 cfg = false ->
  cache' = cache /\ (new_fp = 0 \/ new_fp = load_ptr cfg mem old_fp).
Proof.
  intros Hret Hpure. rewrite NextStackFrame_no_context in Hret by done.
  injection Hret as <- <-. split; [done |].
  apply validate_transition_cases.
Qed.

(** X4: when no signal context is in use, and on every build but 32-bit
    Linux, [NextStackFrame] returns null or the very word saved at the
    current frame, and leaves the trampoline cache as it found it. *)
Theorem NextStackFrame_follows_saved_frame_pointer strict wc old_fp uc cache
    new_fp cache' :
  wc = false \/ uc = None \/ def_linux cfg && def_i386 cfg = false ->
  NextStackFrame cfg mem AddressIsReadable vdso strict wc old_fp uc cache
    = Returned (new_fp, cache') ->
  cache' = cache /\ (new_fp = 0 \/ new_fp = load_ptr cfg mem old_fp).
Proof.
  intros Hpure Hret.
  by apply (NextStackFrame_follows_saved_frame_pointer_aux strict wc old_fp
              uc cache).
Qed.

End ValidatorExtras.

Lemma NextStackFrame_accepts_only_plausible_witness :
  0xbf000000 <> 0x08000000 /\
  Z.land 0xbf000000 (sizeof_ptr linux_i386 - 1) = 0 /\
  (def_i386 linux_i386 = true -> 0xbf000000 < 0xffffe000) /\
  (false = false -> def_WIN32 linux_i386 = false ->
   all_readable 0xbf000000 = true).
Proof.
  apply (NextStackFrame_accepts_only_plausible linux_i386
           alternate_stack_memory all_readable no_vdso false false 0x08000000
           None initial_cache 0xbf000000 initial_cache).
  - vm_compute. reflexivity.
  - discriminate.
Defined.

Lemma NextStackFrame_follows_saved_frame_pointer_witness :
  initial_cache = initial_cache /\
  (0x7020 = 0 \/ 0x7020 = load_ptr linux_x86_64 three_frame_memory 0x7000).
Proof.
  apply (NextStackFrame_follows_saved_frame_pointer linux_x86_64
           three_frame_memory all_readable no_vdso true true 0x7000
           (Some (context_with 0x7000 0x6ff0 0)) initial_cache 0x7020
           initial_cache).
  - right. right. reflexivity.
  - vm_compute. reflexivity.
Defined.

Section TrampolineExtras.

Variable cfg : Config.
Variable mem : memory.
Variable AddressIsReadable : Z -> bool.
Variable vdso : VDSOSupport.

Local Abbreviation init := (init_trampoline_cache cfg mem vdso).
Local Abbreviation correct :=
  (trampoline_correction cfg mem AddressIsReadable vdso).
Local Abbreviation next_frame :=
  (NextStackFrame cfg mem AddressIsReadable vdso).

(** The cache the correction hands back is the one its first use
    produced. *)
Lemma trampoline_correction_cache old_fp new_fp ucv cache x cache' :
  correct old_fp new_fp ucv cache = Returned (x, cache') ->
  init cache = Returned cache'.
Proof.
  unfold trampoline_correction.
  destruct (init cache) as [c1 | |]; simpl; [| done | done].
  repeat match goal with
         | |- context [if ?b then _ else _] => destruct b
         end; by intros [= _ <-].
Qed.

(** The correction answers from the cache its first use produces, as it
    does from that cache itself. *)
Lemma trampoline_correction_settled old_fp new_fp ucv cache cache' :
  init cache = Returned cache' ->
  correct old_fp new_fp ucv cache = correct old_fp new_fp ucv cache'.
Proof.
  intros Hinit. unfold trampoline_correction.
  pose proof (init_trampoline_cache_outcome cfg mem vdso cache) as Ho.
  rewrite Hinit in Ho. simpl in Ho.
  by rewrite Hinit, (init_trampoline_cache_computed cfg mem vdso cache' Ho).
Qed.

(** What the correction returns: the candidate it was given, or the slot of
    the interrupted stack, under the conditions the code tests. *)
Lemma trampoline_correction_cases old_fp new_fp ucv cache x cache' :
  correct old_fp new_fp ucv cache = Returned (x, cache') ->
  x = new_fp \/
  (num_push_instructions cache' <> 0 /\
   kernel_rt_sigreturn_address cache' <> 0 /\
   load_ptr cfg mem (old_fp + sizeof_ptr cfg)
     = kernel_rt_sigreturn_address cache' /\
   new_fp = greg cfg ucv REG_EBP /\
   kernel_vsyscall_address cache' <= greg cfg ucv REG_EIP /\
   greg cfg ucv REG_ESP <> 0 /\
   Z.land (greg cfg ucv REG_ESP) (sizeof_ptr cfg - 1) = 0 /\
   x = load_ptr cfg mem
         (greg cfg ucv REG_ESP
          + sizeof_ptr cfg * (num_push_instructions cache' - 1)) /\
   AddressIsReadable x = true).
Proof.
  unfold trampoline_correction.
  destruct (init cache) as [c1 | |]; [| done | done].
  unfold mbind, outcome_bind. cbv beta match.
  destruct (negb (num_push_instructions c1 =? 0) &&
            negb (kernel_rt_sigreturn_address c1 =? 0) &&
            (load_ptr cfg mem (old_fp + sizeof_ptr cfg) =?
             kernel_rt_sigreturn_address c1)) eqn:H1;
    [| intros [= <- <-]; by left].
  destruct ((new_fp =? greg cfg ucv REG_EBP) &&
            (kernel_vsyscall_address c1 <=? greg cfg ucv REG_EIP) &&
            (wrap_ptrdiff cfg
               (greg cfg ucv REG_EIP - kernel_vsyscall_address c1)
             <? kMaxBytes)) eqn:H2;
    [| intros [= <- <-]; by left].
  destruct (negb (greg cfg ucv REG_ESP =? 0) &&
            (Z.land (greg cfg ucv REG_ESP) (sizeof_ptr cfg - 1) =? 0)) eqn:H3;
    [| intros [= <- <-]; by left].
  destruct (AddressIsReadable _) eqn:H4; [| intros [= <- <-]; by left].
  intros [= <- <-]. right.
  apply andb_true_iff in H1 as [H1 Hra]. apply andb_true_iff in H1 as [Hn Hrt].
  apply andb_true_iff in H2 as [H2 _]. apply andb_true_iff in H2 as [Hbp Hip].
  apply andb_true_iff in H3 as [Hsp Hal].
  apply negb_true_iff, Z.eqb_neq in Hn, Hrt, Hsp.
  apply Z.eqb_eq in Hra, Hbp, Hal. apply Z.leb_le in Hip.
  repeat split; done.
Qed.

(** X5: [NextStackFrame] returns a frame pointer other than the word saved
    at the current frame only through the trampoline correction: on 32-bit
    Linux, with a signal context, a computed push count other than 0, the
    current frame returning into [__kernel_rt_sigreturn] and saving the
    context's %ebp, and an aligned non-null %esp; what it returns then is
    the slot [num_push_instructions - 1] of the interrupted stack, which
    passed the readability probe. *)
Theorem NextStackFrame_corrects_only_at_sigreturn strict wc old_fp uc cache
    new_fp cache' :
  NextStackFrame cfg mem AddressIsReadable vdso strict wc old_fp uc cache
    = Returned (new_fp, cache') ->
  new_fp <> 0 -> new_fp <> load_ptr cfg mem old_fp ->
  def_linux cfg && def_i386 cfg = true /\ wc = true /\
  exists ucv,
    uc = Some ucv /\
    num_push_instructions cache' <> 0 /\
    kernel_rt_sigreturn_address cache' <> 0 /\
    load_ptr cfg mem (old_fp + sizeof_ptr cfg)
      = kernel_rt_sigreturn_address cache' /\
    load_ptr cfg mem old_fp = greg cfg ucv REG_EBP /\
    kernel_vsyscall_address cache' <= greg cfg ucv REG_EIP /\
    greg cfg ucv REG_ESP <> 0 /\
    Z.land (greg cfg ucv REG_ESP) (sizeof_ptr cfg - 1) = 0 /\
    new_fp = load_ptr cfg mem
               (greg cfg ucv REG_ESP
                + sizeof_ptr cfg * (num_push_instructions cache' - 1)) /\
    AddressIsReadable new_fp = true.
Proof.
  intros Hret Hne Hnaive.
  destruct (def_linux cfg && def_i386 cfg) eqn:Hcfg.
  2:{ apply NextStackFrame_follows_saved_frame_pointer_aux in Hret; tauto. }
  destruct wc.
  2:{ apply NextStackFrame_follows_saved_frame_pointer_aux in Hret; tauto. }
  destruct uc as [ucv |].
  2:{ apply NextStackFrame_follows_saved_frame_pointer_aux in Hret; tauto. }
  split; [done |]. split; [done |]. exists ucv. split; [done |].
  unfold NextStackFrame in Hret. rewrite Hcfg in Hret.
  destruct (correct old_fp (load_ptr cfg mem old_fp) ucv cache)
    as [[x c1] | |] eqn:Hcorr; simpl in Hret; [| done | done].
  injection Hret as Hval <-.
  destruct (validate_transition_cases cfg AddressIsReadable strict true
              old_fp x (Some ucv)) as [E | E]; [congruence |].
  rewrite E in Hval. subst x.
  apply trampoline_correction_cases in Hcorr as [-> | Hcase]; [done |].
  tauto.
Qed.

(** After a returning call the cache is settled: from the returned cache
    every call with the same context answers as from the original one, and
    hands the cache back unchanged. *)
Lemma NextStackFrame_settled strict wc old_fp uc cache new_fp cache' :
  next_frame strict wc old_fp uc cache = Returned (new_fp, cache') ->
  (cache' = cache \/
   (num_push_instructions cache = -1 /\
    num_push_instructions cache' <> -1)) /\
  forall strict2 old_fp2,
    exists new_fp2,
      next_frame strict2 wc old_fp2 uc cache = Returned (new_fp2, cache') /\
      next_frame strict2 wc old_fp2 uc cache' = Returned (new_fp2, cache').
Proof.
  intros Hret.
  destruct (def_linux cfg && def_i386 cfg) eqn:Hcfg.
  2:{ apply NextStackFrame_follows_saved_frame_pointer_aux in Hret
        as [-> _]; [| tauto].
      split; [by left |]. intros strict2 old_fp2. eexists.
      rewrite NextStackFrame_no_context by tauto. done. }
  destruct wc.
  2:{ apply NextStackFrame_follows_saved_frame_pointer_aux in Hret
        as [-> _]; [| tauto].
      split; [by left |]. intros strict2 old_fp2. eexists.
      rewrite NextStackFrame_no_context by tauto. done. }
  destruct uc as [ucv |].
  2:{ apply NextStackFrame_follows_saved_frame_pointer_aux in Hret
        as [-> _]; [| tauto].
      split; [by left |]. intros strict2 old_fp2. eexists.
      rewrite NextStackFrame_no_context by tauto. done. }
  unfold NextStackFrame in Hret |- *. rewrite Hcfg in Hret |- *.
  destruct (correct old_fp (load_ptr cfg mem old_fp) ucv cache)
    as [[x c1] | |] eqn:Hcorr; simpl in Hret; [| done | done].
  injection Hret as _ <-.
  apply trampoline_correction_cache in Hcorr as Hinit.
  pose proof (init_trampoline_cache_outcome cfg mem vdso cache) as Ho.
  rewrite Hinit in Ho. simpl in Ho. split.
  - destruct (Z.eq_dec (num_push_instructions cache) (-1)) as [? | Hne];
      [by right |].
    left. rewrite init_trampoline_cache_computed in Hinit by done.
    by injection Hinit.
  - intros strict2 old_fp2.
    rewrite (trampoline_correction_settled old_fp2 _ ucv cache c1 Hinit).
    destruct (correct old_fp2 (load_ptr cfg mem old_fp2) ucv c1)
      as [[x2 c2] | msg |] eqn:Hcorr2.
    + apply trampoline_correction_cache in Hcorr2 as Hinit2.
      rewrite init_trampoline_cache_computed in Hinit2 by done.
      injection Hinit2 as <-. simpl. by eexists.
    + unfold trampoline_correction in Hcorr2.
      rewrite init_trampoline_cache_computed in Hcorr2 by done.
      simpl in Hcorr2.
      repeat match type of Hcorr2 with
             | context [if ?b then _ else _] => destruct b
             end; done.
    + unfold trampoline_correction in Hcorr2.
      rewrite init_trampoline_cache_computed in Hcorr2 by done.
      simpl in Hcorr2.
      repeat match type of Hcorr2 with
             | context [if ?b then _ else _] => destruct b
             end; done.
Qed.

(** X6: the trampoline cache is computed at most once.  A returning call of
    [NextStackFrame] hands back the cache it was given or, given the
    sentinel, a computed cache; and from then on every call with the same
    signal context, whatever the frame and the mode, returns (no assertion
    can fail any more), gives the answer it would have given from the
    original cache, and leaves the computed cache as it is. *)
Theorem NextStackFrame_cache_computed_once strict wc old_fp uc cache new_fp
    cache' :
  NextStackFrame cfg mem AddressIsReadable vdso strict wc old_fp uc cache
    = Returned (new_fp, cache') ->
  (cache' = cache \/
   (num_push_instructions cache = -1 /\
    num_push_instructions cache' <> -1)) /\
  forall strict2 old_fp2,
    exists new_fp2,
      NextStackFrame cfg mem AddressIsReadable vdso strict2 wc old_fp2 uc
        cache = Returned (new_fp2, cache') /\
      NextStackFrame cfg mem AddressIsReadable vdso strict2 wc old_fp2 uc
        cache' = Returned (new_fp2, cache').
Proof.
  intros Hret.
  destruct (NextStackFrame_settled strict wc old_fp uc cache new_fp cache'
              Hret) as [Honce Hlater].
  split; [exact Honce | exact Hlater].
Qed.

End TrampolineExtras.

Lemma NextStackFrame_corrects_only_at_sigreturn_witness :
  def_linux linux_i386 && def_i386 linux_i386 = true /\ true = true /\
  exists ucv,
    Some vsyscall_signal_context = Some ucv /\
    num_push_instructions
      {| num_push_instructions := 1;
         kernel_rt_sigreturn_address := 0xffffe500;
         kernel_vsyscall_address := 0xffffe400 |} <> 0 /\
    kernel_rt_sigreturn_address
      {| num_push_instructions := 1;
         kernel_rt_sigreturn_address := 0xffffe500;
         kernel_vsyscall_address := 0xffffe400 |} <> 0 /\
    load_ptr linux_i386 vsyscall_signal_memory
      (0xbf000100 + sizeof_ptr linux_i386)
    = kernel_rt_sigreturn_address
        {| num_push_instructions := 1;
           kernel_rt_sigreturn_address := 0xffffe500;
           kernel_vsyscall_address := 0xffffe400 |} /\
    load_ptr linux_i386 vsyscall_signal_memory 0xbf000100
    = greg linux_i386 ucv REG_EBP /\
    kernel_vsyscall_address
      {| num_push_instructions := 1;
         kernel_rt_sigreturn_address := 0xffffe500;
         kernel_vsyscall_address := 0xffffe400 |}
    <= greg linux_i386 ucv REG_EIP /\
    greg linux_i386 ucv REG_ESP <> 0 /\
    Z.land (greg linux_i386 ucv REG_ESP) (sizeof_ptr linux_i386 - 1) = 0 /\
    0xbf000800
    = load_ptr linux_i386 vsyscall_signal_memory
        (greg linux_i386 ucv REG_ESP
         + sizeof_ptr linux_i386
           * (num_push_instructions
                {| num_push_instructions := 1;
                   kernel_rt_sigreturn_address := 0xffffe500;
                   kernel_vsyscall_address := 0xffffe400 |} - 1)) /\
    all_readable 0xbf000800 = true.
Proof.
  apply (NextStackFrame_corrects_only_at_sigreturn linux_i386
           vsyscall_signal_memory all_readable vdso_32 true true 0xbf000100
           (Some vsyscall_signal_context) initial_cache 0xbf000800
           {| num_push_instructions := 1;
              kernel_rt_sigreturn_address := 0xffffe500;
              kernel_vsyscall_address := 0xffffe400 |}).
  - vm_compute. reflexivity.
  - discriminate.
  - vm_compute. discriminate.
Defined.

Lemma NextStackFrame_cache_computed_once_witness :
  ({| num_push_instructions := 1;
      kernel_rt_sigreturn_address := 0xffffe500;
      kernel_vsyscall_address := 0xffffe400 |} = initial_cache \/
   (num_push_instructions initial_cache = -1 /\
    num_push_instructions
      {| num_push_instructions := 1;
         kernel_rt_sigreturn_address := 0xffffe500;
         kernel_vsyscall_address := 0xffffe400 |} <> -1)) /\
  forall strict2 old_fp2,
    exists new_fp2,
      NextStackFrame linux_i386 vsyscall_signal_memory all_readable vdso_32
        strict2 true old_fp2 (Some vsyscall_signal_context) initial_cache
      = Returned
          (new_fp2,
           {| num_push_instructions := 1;
              kernel_rt_sigreturn_address := 0xffffe500;
              kernel_vsyscall_address := 0xffffe400 |}) /\
      NextStackFrame linux_i386 vsyscall_signal_memory all_readable vdso_32
        strict2 true old_fp2 (Some vsyscall_signal_context)
        {| num_push_instructions := 1;
           kernel_rt_sigreturn_address := 0xffffe500;
           kernel_vsyscall_address := 0xffffe400 |}
      = Returned
          (new_fp2,
           {| num_push_instructions := 1;
              kernel_rt_sigreturn_address := 0xffffe500;
              kernel_vsyscall_address := 0xffffe400 |}).
Proof.
  apply (NextStackFrame_cache_computed_once linux_i386
           vsyscall_signal_memory all_readable vdso_32 true true 0xbf000100
           (Some vsyscall_signal_context) initial_cache 0xbf000800).
  vm_compute. reflexivity.
Defined.

(** ** The trampoline instruction decoder *)

(** What decoding can return: 0, or the pushes seen so far plus at most one
    push for each position left but the last. *)
Lemma decode_prologue_bound classify cfg bytes : forall budget count v,
  decode_prologue classify cfg bytes budget count = Returned v ->
  v = 0 \/ count <= v <= count + budget - 1.
Proof.
  assert (forall msg v, invariant_violation cfg msg = Returned v -> v = 0)
    as Hviol.
  { intros msg v. unfold invariant_violation.
    destruct (def_NDEBUG cfg); [| done]. by intros [= <-]. }
  remember (length bytes) as n eqn:Hn. revert bytes Hn.
  induction n as [n IH] using lt_wf_ind.
  intros bytes Hn budget count v H.
  destruct bytes as [| b0 rest]; [left; by eapply Hviol |].
  rewrite decode_prologue_cons in H.
  destruct (budget <=? 0) eqn:Hb; [left; by eapply Hviol |].
  apply Z.leb_gt in Hb.
  destruct (classify b0 (hd 0 rest)).
  - injection H as <-. by left.
  - injection H as <-. right. lia.
  - eapply IH in H; [| | reflexivity]; [lia | simpl in Hn; lia].
  - destruct (count =? 0); [injection H as <-; by left |].
    left. by eapply Hviol.
  - destruct rest as [| b1 rest']; [left; by eapply Hviol |].
    eapply IH in H; [| | reflexivity]; [lia | simpl in Hn; lia].
  - left. by eapply Hviol.
Qed.

(** X7: [CountPushInstructions] always terminates; it fails an assertion
    only in a build with assertions compiled in, and the count it returns
    lies between 0 and 9: at most [kMaxBytes - 1] pushes can precede a
    syscall-entry opcode that still starts within the ten positions. *)
Theorem CountPushInstructions_range (cfg : Config) (m : memory) (addr : Z) :
  returns_unless (fun _ => def_NDEBUG cfg = false)
    (CountPushInstructions cfg m addr) (fun v => 0 <= v <= 9).
Proof.
  eapply returns_unless_weaken; [apply CountPushInstructions_outcome |].
  intros v Hv H0. unfold CountPushInstructions in Hv.
  rewrite CountPushInstructions_loop_decode in Hv
    by (unfold kMaxBytes; lia).
  apply decode_prologue_bound in Hv. unfold kMaxBytes in Hv. lia.
Qed.

(** The loop of the decoder over a run of pushes: from position [i] with
    [k - i] pushes ahead, it reaches position [k] with as many pushes
    added. *)
Lemma CountPushInstructions_loop_pushes cfg m addr k : forall n fuel i result,
  Z.of_nat n = k - i -> 0 <= i -> k <= 9 ->
  (forall p, i <= p < k -> 0x50 <= load_byte cfg m (addr + p) <= 0x5F) ->
  CountPushInstructions_loop cfg m addr (n + fuel) i result
  = CountPushInstructions_loop cfg m addr fuel k (result + (k - i)).
Proof.
  induction n as [| n IH]; intros fuel i result Hn Hi Hk Hpush.
  - assert (i = k) as -> by lia. simpl. f_equal. lia.
  - pose proof (Hpush i ltac:(lia)) as Hb.
    pose proof (load_byte_range cfg m (addr + i)) as Hr.
    change (S n + fuel)%nat with (S (n + fuel)).
    simpl CountPushInstructions_loop.
    rewrite (proj2 (Z.ltb_lt i kMaxBytes)) by (unfold kMaxBytes; lia).
    rewrite (proj2 (Z.eqb_neq _ 0x89)) by lia.
    rewrite (proj2 (Z.eqb_neq _ 0x0F)) by lia. simpl andb.
    rewrite push_register_range by done.
    rewrite (proj2 (Z.leb_le 0x50 _)) by lia.
    rewrite (proj2 (Z.leb_le _ 0x5F)) by lia. simpl andb. cbv iota.
    rewrite IH; [f_equal; lia | lia | lia | lia |].
    intros p Hp. apply Hpush. lia.
Qed.

(** X8: a prologue of [k] push bytes (0x50..0x5F), [k <= 9], followed by
    [sysenter] (0F 34) or [syscall] (0F 05) decodes to [k]; followed
    instead by [mov %esp,%ebp] (89 E5) it decodes to 0, the kernel routine
    setting up a frame pointer of its own. *)
Theorem CountPushInstructions_pushes_then_terminal (cfg : Config)
    (m : memory) (addr k : Z) :
  0 <= k <= 9 ->
  (forall p, 0 <= p < k -> 0x50 <= load_byte cfg m (addr + p) <= 0x5F) ->
  (load_byte cfg m (addr + k) = 0x0F ->
   load_byte cfg m (addr + (k + 1)) = 0x34 \/
     load_byte cfg m (addr + (k + 1)) = 0x05 ->
   CountPushInstructions cfg m addr = Returned k) /\
  (load_byte cfg m (addr + k) = 0x89 ->
   load_byte cfg m (addr + (k + 1)) = 0xE5 ->
   CountPushInstructions cfg m addr = Returned 0).
Proof.
  intros Hk Hpush.
  assert (CountPushInstructions cfg m addr
          = CountPushInstructions_loop cfg m addr
              (S (Z.to_nat (kMaxBytes - k))) k k) as Hrun.
  { unfold CountPushInstructions.
    replace (S (Z.to_nat kMaxBytes))
      with (Z.to_nat k + S (Z.to_nat (kMaxBytes - k)))%nat
      by (unfold kMaxBytes; lia).
    rewrite (CountPushInstructions_loop_pushes cfg m addr k) by
      (try done; lia).
    f_equal; lia. }
  rewrite Hrun. simpl CountPushInstructions_loop.
  rewrite (proj2 (Z.ltb_lt k kMaxBytes)) by (unfold kMaxBytes; lia).
  split.
  - intros H0 H1. rewrite H0. simpl.
    destruct H1 as [-> | ->]; done.
  - intros H0 H1. by rewrite H0, H1.
Qed.

Lemma CountPushInstructions_pushes_then_terminal_witness :
  CountPushInstructions linux_i386 two_push_sysenter_memory 0xffffe400
  = Returned 2.
Proof.
  apply (proj1 (CountPushInstructions_pushes_then_terminal linux_i386
                  two_push_sysenter_memory 0xffffe400 2 ltac:(lia)
                  ltac:(intros p Hp;
                        assert (p = 0 \/ p = 1) as [-> | ->] by lia;
                        vm_compute; split; discriminate))).
  - vm_compute. reflexivity.
  - left. vm_compute. reflexivity.
Defined.

(** X9: the decoder looks at the eleven bytes at offsets 0..10 of the
    routine and at nothing else: two memories that agree there decode
    alike. *)
Theorem CountPushInstructions_reads_eleven_bytes (cfg : Config)
    (m1 m2 : memory) (addr : Z) :
  (forall p, 0 <= p <= kMaxBytes ->
     load_byte cfg m1 (addr + p) = load_byte cfg m2 (addr + p)) ->
  CountPushInstructions cfg m1 addr = CountPushInstructions cfg m2 addr.
Proof.
  intros Hagree. unfold CountPushInstructions.
  rewrite !CountPushInstructions_loop_decode by (unfold kMaxBytes; lia).
  f_equal. unfold prologue_bytes_from.
  apply list_fmap_ext. intros i p Hp.
  apply lookup_seqZ in Hp as [-> Hi]. apply Hagree. lia.
Qed.

Lemma CountPushInstructions_reads_eleven_bytes_witness :
  CountPushInstructions linux_i386 amd_vsyscall_memory 0xffffe400
  = CountPushInstructions linux_i386
      (store_byte linux_i386 amd_vsyscall_memory 0xffffe40b 0x90) 0xffffe400.
Proof.
  apply (CountPushInstructions_reads_eleven_bytes linux_i386
           amd_vsyscall_memory
           (store_byte linux_i386 amd_vsyscall_memory 0xffffe40b 0x90)
           0xffffe400).
  intros p Hp. unfold load_byte, store_byte.
  assert (wrap_ptr linux_i386 (0xffffe400 + p) = 0xffffe400 + p) as ->.
  { unfold wrap_ptr, kMaxBytes in *. change (2 ^ ptr_bits linux_i386)
      with 4294967296. rewrite Z.mod_small; lia. }
  destruct (0xffffe400 + p =? wrap_ptr linux_i386 0xffffe40b) eqn:E;
    [| done].
  apply Z.eqb_eq in E. change (wrap_ptr linux_i386 0xffffe40b)
    with 0xffffe40b in E. unfold kMaxBytes in Hp. lia.
Defined.

(** ** The register reader *)

(** A [greg_t] is the register's word when the word lies in the lower half
    of the address space, and the word less the size of the address space
    otherwise. *)
Lemma wrap_greg_t_wrap_ptr cfg x :
  wrap_greg_t cfg x
  = if wrap_ptr cfg x <? 2 ^ (ptr_bits cfg - 1) then wrap_ptr cfg x
    else wrap_ptr cfg x - 2 ^ ptr_bits cfg.
Proof.
  unfold wrap_greg_t, wrap_ptr.
  destruct (ptr_bits_cases cfg) as [-> | ->];
    [change (2 ^ (32 - 1)) with 2147483648;
     change (2 ^ 32) with 4294967296
    |change (2 ^ (64 - 1)) with 9223372036854775808;
     change (2 ^ 64) with 18446744073709551616];
    match goal with
    | |- context [?a <? ?b] =>
      destruct (a <? b) eqn:E;
        [apply Z.ltb_lt in E | apply Z.ltb_ge in E]
    end; Z.div_mod_to_equations; lia.
Qed.

Lemma wrap_greg_t_of_wrap_ptr cfg x :
  wrap_greg_t cfg (wrap_ptr cfg x) = wrap_greg_t cfg x.
Proof.
  rewrite !wrap_greg_t_wrap_ptr.
  assert (wrap_ptr cfg (wrap_ptr cfg x) = wrap_ptr cfg x) as ->; [| done].
  unfold wrap_ptr. apply Z.mod_small, Z.mod_pos_bound.
  destruct (ptr_bits_cases cfg) as [-> | ->]; reflexivity.
Qed.

Lemma frame_pointer_value_register cfg uc :
  frame_pointer_value cfg uc
  = if frame_pointer_register cfg uc <? 2 ^ (ptr_bits cfg - 1)
    then frame_pointer_register cfg uc
    else frame_pointer_register cfg uc - 2 ^ ptr_bits cfg.
Proof.
  unfold frame_pointer_value, frame_pointer_register, greg_t_value, greg.
  destruct (def_i386 cfg); apply wrap_greg_t_wrap_ptr.
Qed.

Lemma stack_pointer_value_register cfg uc :
  stack_pointer_value cfg uc
  = if stack_pointer_register cfg uc <? 2 ^ (ptr_bits cfg - 1)
    then stack_pointer_register cfg uc
    else stack_pointer_register cfg uc - 2 ^ ptr_bits cfg.
Proof.
  unfold stack_pointer_value, stack_pointer_register, greg_t_value, greg.
  destruct (def_i386 cfg); apply wrap_greg_t_wrap_ptr.
Qed.

Lemma wrap_greg_t_frame_pointer_register cfg uc :
  wrap_greg_t cfg (frame_pointer_register cfg uc) = frame_pointer_value cfg uc.
Proof.
  unfold frame_pointer_value, frame_pointer_register, greg_t_value, greg.
  destruct (def_i386 cfg); apply wrap_greg_t_of_wrap_ptr.
Qed.

Lemma wrap_greg_t_stack_pointer_register cfg uc :
  wrap_greg_t cfg (stack_pointer_register cfg uc) = stack_pointer_value cfg uc.
Proof.
  unfold stack_pointer_value, stack_pointer_register, greg_t_value, greg.
  destruct (def_i386 cfg); apply wrap_greg_t_of_wrap_ptr.
Qed.

Lemma register_range cfg uc :
  0 <= frame_pointer_register cfg uc < 2 ^ ptr_bits cfg /\
  0 <= stack_pointer_register cfg uc < 2 ^ ptr_bits cfg.
Proof.
  unfold frame_pointer_register, stack_pointer_register, greg, wrap_ptr.
  assert (0 < 2 ^ ptr_bits cfg)
    by (destruct (ptr_bits_cases cfg) as [-> | ->]; reflexivity).
  destruct (def_i386 cfg); split; by apply Z.mod_pos_bound.
Qed.

(** X10: on an x86 Linux build, the value [GetFP] reads from a signal
    context is the frame-pointer or the stack-pointer register; read as a
    signed [greg_t] it is never below the stack pointer; and when the two
    registers lie in the same half of the address space it lies, as an
    address, in the window of [kMaxFrameBytes] bytes above the stack
    pointer. *)
Theorem GetFP_within_frame_ceiling (cfg : Config) (uc : ucontext_t) :
  def_linux cfg = true -> def_i386 cfg || def_x86_64 cfg = true ->
  (GetFP cfg (Some uc) = frame_pointer_register cfg uc \/
   GetFP cfg (Some uc) = stack_pointer_register cfg uc) /\
  stack_pointer_value cfg uc <= wrap_greg_t cfg (GetFP cfg (Some uc)) /\
  ((frame_pointer_register cfg uc <? 2 ^ (ptr_bits cfg - 1))
   = (stack_pointer_register cfg uc <? 2 ^ (ptr_bits cfg - 1)) ->
   stack_pointer_register cfg uc <= GetFP cfg (Some uc)
     <= stack_pointer_register cfg uc + 100000).
Proof.
  intros Hlinux Harch. rewrite GetFP_x86 by done. unfold kMaxFrameBytes.
  destruct (frame_pointer_value cfg uc >=? stack_pointer_value cfg uc)
    eqn:E1; cbn [andb];
    [destruct (wrap_greg_t cfg
                 (frame_pointer_value cfg uc - stack_pointer_value cfg uc)
               <=? 100000) eqn:E2 |].
  - rewrite Z.geb_leb in E1. apply Z.leb_le in E1, E2.
    split; [by left |].
    split; [by rewrite wrap_greg_t_frame_pointer_register |].
    intros Hhalf.
    rewrite frame_pointer_value_register, stack_pointer_value_register,
      <- Hhalf in E1, E2.
    pose proof (register_range cfg uc) as [Hbr Hsr].
    assert (2 ^ ptr_bits cfg = 2 * 2 ^ (ptr_bits cfg - 1)) as Hpow
      by (destruct (ptr_bits_cases cfg) as [-> | ->]; reflexivity).
    assert (100000 < 2 ^ (ptr_bits cfg - 1)) as Hbig
      by (destruct (ptr_bits_cases cfg) as [-> | ->]; reflexivity).
    set (bp := frame_pointer_register cfg uc) in *.
    set (sp := stack_pointer_register cfg uc) in *.
    set (h := 2 ^ (ptr_bits cfg - 1)) in *.
    symmetry in Hhalf.
    destruct (bp <? h) eqn:Eb;
      [apply Z.ltb_lt in Eb, Hhalf | apply Z.ltb_ge in Eb, Hhalf];
      [| replace (bp - 2 ^ ptr_bits cfg - (sp - 2 ^ ptr_bits cfg))
           with (bp - sp) in E2 by lia];
      rewrite wrap_greg_t_small in E2 by (fold h; lia); lia.
  - split; [by right |].
    split; [rewrite wrap_greg_t_stack_pointer_register |]; lia.
  - split; [by right |].
    split; [rewrite wrap_greg_t_stack_pointer_register |]; lia.
Qed.

Lemma GetFP_within_frame_ceiling_witness :
  (GetFP linux_i386 (Some (context_with 0xbf000200 0xbf000100 0))
   = frame_pointer_register linux_i386 (context_with 0xbf000200 0xbf000100 0)
   \/
   GetFP linux_i386 (Some (context_with 0xbf000200 0xbf000100 0))
   = stack_pointer_register linux_i386
       (context_with 0xbf000200 0xbf000100 0)) /\
  stack_pointer_value linux_i386 (context_with 0xbf000200 0xbf000100 0)
  <= wrap_greg_t linux_i386
       (GetFP linux_i386 (Some (context_with 0xbf000200 0xbf000100 0))) /\
  stack_pointer_register linux_i386 (context_with 0xbf000200 0xbf000100 0)
  <= GetFP linux_i386 (Some (context_with 0xbf000200 0xbf000100 0))
  <= stack_pointer_register linux_i386 (context_with 0xbf000200 0xbf000100 0)
     + 100000.
Proof.
  destruct (GetFP_within_frame_ceiling linux_i386
              (context_with 0xbf000200 0xbf000100 0) eq_refl eq_refl)
    as (Hreg & Hsigned & Haddr).
  exact (conj Hreg (conj Hsigned (Haddr eq_refl))).
Defined.

(** ** Repeating a call *)

Section Settling.

Variable cfg : Config.
Variable mem : memory.
Variable step : Z -> TrampolineCache -> outcome (Z * TrampolineCache).

Hypothesis step_settles : forall fp cache next_fp cache',
  step fp cache = Returned (next_fp, cache') -> settles step cache cache'.

Lemma settles_self cache cache' :
  settles step cache cache' -> settles step cache' cache'.
Proof. intros H fp. destruct (H fp) as (nf & _ & ?). by exists nf. Qed.

(** From a settled cache the walk is the same, and keeps the cache. *)
Lemma walk_settled k : forall fp cache cache' frames fp_end cache_end,
  settles step cache cache' ->
  walk cfg mem step k fp cache = Returned (frames, fp_end, cache_end) ->
  walk cfg mem step k fp cache' = Returned (frames, fp_end, cache') /\
  (cache_end = cache \/ cache_end = cache').
Proof.
  induction k as [| k IH]; intros fp c c' fs fpe ce Hs H; simpl in H |- *.
  - injection H as <- <- <-. auto.
  - destruct ((fp =? 0) || (return_address cfg mem fp =? 0)).
    { injection H as <- <- <-. auto. }
    destruct (Hs fp) as (nf & H1 & H2). rewrite H1 in H. rewrite H2.
    simpl in H |- *.
    destruct (walk cfg mem step k nf c') as [[[fs' fpe'] ce'] | |] eqn:Hw;
      simpl in H; [| done | done].
    injection H as <- <- <-.
    destruct (IH nf c' c' fs' fpe' ce' (settles_self _ _ Hs) Hw)
      as [Hw' Hce].
    rewrite Hw in Hw'. injection Hw' as ->. simpl. auto.
Qed.

Lemma count_frames_settled limit : forall fp cache cache' j cache_end,
  settles step cache cache' ->
  count_frames step limit fp cache = Returned (j, cache_end) ->
  count_frames step limit fp cache' = Returned (j, cache') /\
  (cache_end = cache \/ cache_end = cache').
Proof.
  induction limit as [| limit IH]; intros fp c c' j ce Hs H;
    simpl in H |- *.
  - injection H as <- <-. auto.
  - destruct (fp =? 0).
    { injection H as <- <-. auto. }
    destruct (Hs fp) as (nf & H1 & H2). rewrite H1 in H. rewrite H2.
    simpl in H |- *.
    destruct (count_frames step limit nf c') as [[j' ce'] | |] eqn:Hc;
      simpl in H; [| done | done].
    injection H as <- <-.
    destruct (IH nf c' c' j' ce' (settles_self _ _ Hs) Hc) as [Hc' Hce].
    rewrite Hc in Hc'. injection Hc' as ->. simpl. auto.
Qed.

(** The cache a walk ends with is the one it started with or a settled
    one. *)
Lemma walk_cache k : forall fp cache frames fp_end cache_end,
  walk cfg mem step k fp cache = Returned (frames, fp_end, cache_end) ->
  cache_end = cache \/ settles step cache cache_end.
Proof.
  destruct k as [| k]; intros fp c fs fpe ce H; simpl in H.
  - injection H as _ _ <-. by left.
  - destruct ((fp =? 0) || (return_address cfg mem fp =? 0)).
    { injection H as _ _ <-. by left. }
    destruct (step fp c) as [[nf c1] | |] eqn:Hstep; simpl in H;
      [| done | done].
    apply step_settles in Hstep.
    destruct (walk cfg mem step k nf c1) as [[[fs' fpe'] ce'] | |] eqn:Hw;
      simpl in H; [| done | done].
    injection H as _ _ <-.
    destruct (walk_settled k nf c1 c1 fs' fpe' ce'
                (settles_self _ _ Hstep) Hw) as [_ Hce].
    right. by destruct Hce as [-> | ->].
Qed.

Lemma count_frames_cache limit : forall fp cache j cache_end,
  count_frames step limit fp cache = Returned (j, cache_end) ->
  cache_end = cache \/ settles step cache cache_end.
Proof.
  destruct limit as [| limit]; intros fp c j ce H; simpl in H.
  - injection H as _ <-. by left.
  - destruct (fp =? 0).
    { injection H as _ <-. by left. }
    destruct (step fp c) as [[nf c1] | |] eqn:Hstep; simpl in H;
      [| done | done].
    apply step_settles in Hstep.
    destruct (count_frames step limit nf c1) as [[j' ce'] | |] eqn:Hc;
      simpl in H; [| done | done].
    injection H as _ <-.
    destruct (count_frames_settled limit nf c1 c1 j' ce'
                (settles_self _ _ Hstep) Hc) as [_ Hce].
    right. by destruct Hce as [-> | ->].
Qed.

(** The unwinder over the walk, called again with the cache it left, gives
    the same output. *)
Lemma unwind_spec_again isf max_depth frame_address result sizes skip_count
    min_dropped_frames cache out :
  unwind_spec cfg mem step isf max_depth frame_address result sizes
    skip_count min_dropped_frames cache = Returned out ->
  unwind_spec cfg mem step isf max_depth frame_address result sizes
    skip_count min_dropped_frames (out_cache out) = Returned out.
Proof.
  unfold unwind_spec.
  set (k := if 0 <? max_depth
            then (Z.to_nat skip_count + Z.to_nat max_depth)%nat else O).
  destruct (walk cfg mem step k frame_address cache)
    as [[[fs fpe] ce] | |] eqn:Hw; [| done | done].
  unfold mbind at 1. unfold outcome_bind at 1. cbv beta match.
  pose proof (walk_cache _ _ _ _ _ _ Hw) as Hce.
  destruct min_dropped_frames as [v |].
  - destruct (count_frames step (Z.to_nat kMaxUnwind) fpe ce)
      as [[j cj] | |] eqn:Hc; [| done | done].
    unfold mbind at 1. unfold outcome_bind at 1. cbv beta match.
    intros [= <-]. cbn [out_cache].
    pose proof (count_frames_cache _ _ _ _ _ Hc) as Hcj.
    assert (walk cfg mem step k frame_address cj = Returned (fs, fpe, cj) /\
            count_frames step (Z.to_nat kMaxUnwind) fpe cj
            = Returned (j, cj)) as [-> Hc'].
    { destruct Hce as [-> | Hs1].
      - destruct Hcj as [-> | Hs2]; [done |].
        split; [by eapply walk_settled | by eapply count_frames_settled].
      - assert (cj = ce) as ->.
        { destruct (count_frames_settled _ _ _ _ _ _
                      (settles_self _ _ Hs1) Hc) as [_ [? | ?]]; done. }
        split; [by eapply walk_settled | done]. }
    unfold mbind at 1. unfold outcome_bind at 1. cbv beta match.
    by rewrite Hc'.
  - intros [= <-]. cbn [out_cache].
    assert (walk cfg mem step k frame_address ce = Returned (fs, fpe, ce))
      as ->.
    { destruct Hce as [-> | Hs1]; [done | by eapply walk_settled]. }
    done.
Qed.

End Settling.

(** X11: calling [UnwindImpl] a second time on the unmodified stack, with
    the same arguments and the trampoline cache the first call left, gives
    exactly the output of the first call: the same count, the same
    [result] and [sizes], the same dropped-frame count, and the same
    cache. *)
Theorem UnwindImpl_idempotent (cfg : Config) (mem : memory)
    (AddressIsReadable : Z -> bool) (vdso : VDSOSupport)
    (IS_STACK_FRAMES IS_WITH_CONTEXT : bool) (max_depth : Z)
    (ucp : option ucontext_t) (frame_address : Z) (result sizes : list Z)
    (skip_count : Z) (min_dropped_frames : option Z)
    (cache : TrampolineCache) (out : unwind_output) :
  UnwindImpl cfg mem AddressIsReadable vdso IS_STACK_FRAMES IS_WITH_CONTEXT
    max_depth ucp frame_address result sizes skip_count min_dropped_frames
    cache = Returned out ->
  UnwindImpl cfg mem AddressIsReadable vdso IS_STACK_FRAMES IS_WITH_CONTEXT
    max_depth ucp frame_address result sizes skip_count min_dropped_frames
    (out_cache out) = Returned out.
Proof.
  rewrite !UnwindImpl_walk. apply unwind_spec_again.
  intros fp c nf c1 Hstep fp2.
  apply NextStackFrame_settled in Hstep as [_ Hlater].
  apply Hlater.
Qed.

Lemma UnwindImpl_idempotent_witness :
  UnwindImpl linux_i386 vsyscall_signal_memory all_readable vdso_32 false true
    4 (Some vsyscall_signal_context) 0xbf000100 [0; 0; 0; 0] [] 0 (Some 0)
    {| num_push_instructions := 1;
       kernel_rt_sigreturn_address := 0xffffe500;
       kernel_vsyscall_address := 0xffffe400 |}
  = Returned
      {| out_n := 1; out_result := [0xffffe500; 0; 0; 0]; out_sizes := [];
         out_min_dropped_frames := Some 1;
         out_cache :=
           {| num_push_instructions := 1;
              kernel_rt_sigreturn_address := 0xffffe500;
              kernel_vsyscall_address := 0xffffe400 |} |}.
Proof.
  apply (UnwindImpl_idempotent linux_i386 vsyscall_signal_memory all_readable
           vdso_32 false true 4 (Some vsyscall_signal_context) 0xbf000100
           [0; 0; 0; 0] [] 0 (Some 0) initial_cache
           {| out_n := 1; out_result := [0xffffe500; 0; 0; 0];
              out_sizes := [];
              out_min_dropped_frames := Some 1;
              out_cache :=
                {| num_push_instructions := 1;
                   kernel_rt_sigreturn_address := 0xffffe500;
                   kernel_vsyscall_address := 0xffffe400 |} |}).
  vm_compute. reflexivity.
Defined.

(** ** More on the driver *)

(** X12: skipping composes with capturing.  A call with [skip_count = s]
    and [max_depth = d > 0] records what a call with no skipping and
    [max_depth = s + d] records from its slot [s] on: the count is the
    other count less [s] (0 if that is negative), and slot [i] of [result]
    is slot [s + i] of the other [result]. *)
Theorem UnwindImpl_skip_is_drop (cfg : Config) (mem : memory)
    (AddressIsReadable : Z -> bool) (vdso : VDSOSupport)
    (IS_STACK_FRAMES IS_WITH_CONTEXT : bool) (max_depth : Z)
    (ucp : option ucontext_t) (frame_address : Z)
    (result sizes result' sizes' : list Z) (skip_count : Z)
    (min_dropped_frames min_dropped_frames' : option Z)
    (cache : TrampolineCache) (out out' : unwind_output) :
  0 <= skip_count -> 0 < max_depth ->
  UnwindImpl cfg mem AddressIsReadable vdso IS_STACK_FRAMES IS_WITH_CONTEXT
    max_depth ucp frame_address result sizes skip_count min_dropped_frames
    cache = Returned out ->
  UnwindImpl cfg mem AddressIsReadable vdso IS_STACK_FRAMES IS_WITH_CONTEXT
    (skip_count + max_depth) ucp frame_address result' sizes' 0
    min_dropped_frames' cache = Returned out' ->
  out_n out = Z.max 0 (out_n out' - skip_count) /\
  forall i : nat,
    Z.of_nat i < out_n out -> (i < length result)%nat ->
    (Z.to_nat skip_count + i < length result')%nat ->
    out_result out !! i = out_result out' !! (Z.to_nat skip_count + i)%nat.
Proof.
  intros Hs Hd Hout Hout'.
  apply UnwindImpl_Returned in Hout
    as (fs & fpe & ce & Hwalk & Hn & Hres & _).
  apply UnwindImpl_Returned in Hout'
    as (fs' & fpe' & ce' & Hwalk' & Hn' & Hres' & _).
  rewrite (proj2 (Z.ltb_lt 0 max_depth) Hd) in Hwalk.
  rewrite (proj2 (Z.ltb_lt 0 (skip_count + max_depth))) in Hwalk' by lia.
  replace (Z.to_nat 0 + Z.to_nat (skip_count + max_depth))%nat
    with (Z.to_nat skip_count + Z.to_nat max_depth)%nat in Hwalk' by lia.
  rewrite Hwalk in Hwalk'. injection Hwalk' as <- <- <-.
  change (Z.to_nat 0) with O in *. rewrite drop_0 in Hn', Hres'.
  rewrite Hn, Hn', Hres, Hres', length_drop. split; [lia |].
  intros i Hi Hlen Hlen'.
  destruct (fs !! (Z.to_nat skip_count + i)%nat) as [[fp nf] |] eqn:Hf.
  2:{ apply lookup_ge_None in Hf. lia. }
  rewrite (store_from_lookup _ 0 result i (return_address cfg mem fp));
    [| by rewrite list_lookup_fmap, lookup_drop, Hf | done].
  symmetry.
  apply (store_from_lookup _ 0 result' (Z.to_nat skip_count + i));
    [by rewrite list_lookup_fmap, Hf | done].
Qed.

Lemma UnwindImpl_skip_is_drop_witness :
  out_n {| out_n := 2; out_result := [0x401100; 0x401200]; out_sizes := [];
           out_min_dropped_frames := None; out_cache := initial_cache |}
  = Z.max 0
      (out_n {| out_n := 3; out_result := [0x401000; 0x401100; 0x401200];
                out_sizes := []; out_min_dropped_frames := None;
                out_cache := initial_cache |} - 1) /\
  forall i : nat,
    Z.of_nat i
    < out_n {| out_n := 2; out_result := [0x401100; 0x401200];
               out_sizes := []; out_min_dropped_frames := None;
               out_cache := initial_cache |} ->
    (i < length [0; 0])%nat -> (Z.to_nat 1 + i < length [0; 0; 0])%nat ->
    out_result {| out_n := 2; out_result := [0x401100; 0x401200];
                  out_sizes := []; out_min_dropped_frames := None;
                  out_cache := initial_cache |} !! i
    = out_result {| out_n := 3;
                    out_result := [0x401000; 0x401100; 0x401200];
                    out_sizes := []; out_min_dropped_frames := None;
                    out_cache := initial_cache |} !! (Z.to_nat 1 + i)%nat.
Proof.
  apply (UnwindImpl_skip_is_drop linux_x86_64 three_frame_memory all_readable
           no_vdso false false 2 None 0x7000 [0; 0] [] [0; 0; 0] [] 1 None
           None initial_cache).
  - lia.
  - lia.
  - vm_compute. reflexivity.
  - vm_compute. reflexivity.
Defined.

(** X13: a call writes only what it was asked for.  The [sizes] array keeps
    its length and every slot from [n] on; without [IS_STACK_FRAMES] it is
    not written at all; and without a [min_dropped_frames] pointer no
    dropped-frame count is produced. *)
Theorem UnwindImpl_writes_only_what_is_asked (cfg : Config) (mem : memory)
    (AddressIsReadable : Z -> bool) (vdso : VDSOSupport)
    (IS_STACK_FRAMES IS_WITH_CONTEXT : bool) (max_depth : Z)
    (ucp : option ucontext_t) (frame_address : Z) (result sizes : list Z)
    (skip_count : Z) (min_dropped_frames : option Z)
    (cache : TrampolineCache) :
  returns_unless (trampoline_abort cfg mem vdso IS_WITH_CONTEXT ucp cache)
    (UnwindImpl cfg mem AddressIsReadable vdso IS_STACK_FRAMES
       IS_WITH_CONTEXT max_depth ucp frame_address result sizes skip_count
       min_dropped_frames cache)
    (fun out =>
       length (out_sizes out) = length sizes /\
       (forall i : nat,
          out_n out <= Z.of_nat i -> out_sizes out !! i = sizes !! i) /\
       (IS_STACK_FRAMES = false -> out_sizes out = sizes) /\
       (min_dropped_frames = None -> out_min_dropped_frames out = None)).
Proof.
  eapply returns_unless_weaken; [apply UnwindImpl_outcome |].
  intros out Hout _.
  apply UnwindImpl_Returned in Hout
    as (fs & fpe & ce & _ & Hn & _ & Hsz & Hmd).
  rewrite Hn, Hsz. repeat split.
  - destruct IS_STACK_FRAMES; [apply length_store_from | done].
  - intros i Hi. destruct IS_STACK_FRAMES; [| done].
    apply store_from_lookup_other. right. rewrite length_fmap. lia.
  - by intros ->.
  - by intros ->.
Qed.

Section CaptureLoopExtras.

Variable cfg : Config.
Variable mem : memory.
Variable AddressIsReadable : Z -> bool.
Variable vdso : VDSOSupport.
Variable IS_STACK_FRAMES IS_WITH_CONTEXT : bool.
Variable max_depth : Z.
Variable ucp : option ucontext_t.

(** X14: the capture loop gives up early only for a reason.  When it ends
    with fewer than [max_depth] frames recorded, the frame pointer it
    stopped at is null or has a null return address; no frame that could
    have been recorded is left out. *)
Theorem capture_loop_stops_for_a_reason frame_address result sizes skip_count
    cache st :
  0 <= max_depth ->
  capture_loop cfg mem AddressIsReadable vdso IS_STACK_FRAMES IS_WITH_CONTEXT
    max_depth ucp (capture_budget max_depth skip_count)
    {| st_n := 0; st_fp := frame_address; st_skip_count := skip_count;
       st_result := result; st_sizes := sizes; st_cache := cache |}
    = Returned st ->
  0 <= st_n st <= max_depth /\
  (st_n st < max_depth ->
   st_fp st = 0 \/ load_ptr cfg mem (st_fp st + sizeof_ptr cfg) = 0).
Proof.
  intros Hd Hcap. unfold capture_budget in Hcap.
  rewrite capture_loop_walk in Hcap by (cbn [st_n st_skip_count]; lia).
  unfold frames_to_visit in Hcap.
  cbn [st_n st_fp st_skip_count st_cache] in Hcap.
  rewrite Z.sub_0_r in Hcap.
  destruct (walk cfg mem _ _ frame_address cache)
    as [[[fs fpe] ce] | |] eqn:Hw; [| done | done].
  unfold mbind, outcome_bind in Hcap. cbv beta match in Hcap.
  injection Hcap as <-. unfold record_frames.
  cbn [st_n st_fp st_skip_count].
  pose proof (walk_length _ _ _ _ _ _ _ _ _ Hw) as Hlen.
  rewrite length_drop.
  destruct (0 <? max_depth) eqn:E.
  - apply Z.ltb_lt in E. split; [lia |]. intros Hn.
    eapply walk_stopped; [exact Hw | lia].
  - apply Z.ltb_ge in E. split; lia.
Qed.

End CaptureLoopExtras.

Lemma capture_loop_stops_for_a_reason_witness :
  0 <= st_n {| st_n := 3; st_fp := 0; st_skip_count := 0;
               st_result := [0x401000; 0x401100; 0x401200; 0];
               st_sizes := []; st_cache := initial_cache |} <= 4 /\
  (st_n {| st_n := 3; st_fp := 0; st_skip_count := 0;
           st_result := [0x401000; 0x401100; 0x401200; 0];
           st_sizes := []; st_cache := initial_cache |} < 4 ->
   st_fp {| st_n := 3; st_fp := 0; st_skip_count := 0;
            st_result := [0x401000; 0x401100; 0x401200; 0];
            st_sizes := []; st_cache := initial_cache |} = 0 \/
   load_ptr linux_x86_64 three_frame_memory
     (st_fp {| st_n := 3; st_fp := 0; st_skip_count := 0;
               st_result := [0x401000; 0x401100; 0x401200; 0];
               st_sizes := []; st_cache := initial_cache |}
      + sizeof_ptr linux_x86_64) = 0).
Proof.
  apply (capture_loop_stops_for_a_reason linux_x86_64 three_frame_memory
           all_readable no_vdso false false 4 None 0x7000 [0; 0; 0; 0] [] 0
           initial_cache).
  - lia.
  - vm_compute. reflexivity.
Defined.

Lemma UnwindImpl_writes_only_what_is_asked_witness :
  returns_unless
    (trampoline_abort linux_x86_64 three_frame_memory no_vdso false None
       initial_cache)
    (UnwindImpl linux_x86_64 three_frame_memory all_readable no_vdso false
       false 2 None 0x7000 [0; 0] [7; 7] 0 None initial_cache)
    (fun out =>
       length (out_sizes out) = length [7; 7] /\
       (forall i : nat,
          out_n out <= Z.of_nat i -> out_sizes out !! i = [7; 7] !! i) /\
       (false = false -> out_sizes out = [7; 7]) /\
       (None = None :> option Z -> out_min_dropped_frames out = None)).
Proof.
  exact (UnwindImpl_writes_only_what_is_asked linux_x86_64 three_frame_memory
           all_readable no_vdso false false 2 None 0x7000 [0; 0] [7; 7] 0
           None initial_cache).
Defined.

Section WalkLinks.

Variable cfg : Config.
Variable mem : memory.
Variable step : Z -> TrampolineCache -> outcome (Z * TrampolineCache).

(** The walk starts at the frame it is given, and each frame it visits is
    the validator's answer for the frame before. *)
Lemma walk_linked k : forall fp cache frames fp_end cache',
  walk cfg mem step k fp cache = Returned (frames, fp_end, cache') ->
  (forall f, frames !! O = Some f -> f.1 = fp) /\
  (forall i f g,
     frames !! i = Some f -> frames !! S i = Some g -> g.1 = f.2).
Proof.
  induction k as [| k IH]; intros fp c fs fpe ce H; simpl in H.
  - injection H as <- _ _. split; [done |]. by intros i f g.
  - destruct ((fp =? 0) || (return_address cfg mem fp =? 0)).
    { injection H as <- _ _. split; [done |]. by intros i f g. }
    destruct (step fp c) as [[nf c1] | |]; simpl in H; [| done | done].
    destruct (walk cfg mem step k nf c1) as [[[fs' fpe'] ce'] | |] eqn:Hw;
      simpl in H; [| done | done].
    injection H as <- _ _.
    destruct (IH _ _ _ _ _ Hw) as [Hhead Hlink]. split.
    + by intros f [= <-].
    + intros [| i] f g Hf Hg; simpl in Hf, Hg.
      * injection Hf as <-. by apply Hhead.
      * by eapply Hlink.
Qed.

End WalkLinks.

(** X15: without frame sizes (strict validation) and without a signal
    context in use, the frames a call records lie at strictly increasing
    addresses, each at most [kMaxFrameBytes] above the one before; so no
    frame is recorded twice.  [frames] lists the frame pointers whose
    return addresses fill [result]. *)
Theorem UnwindImpl_strict_frames_ascend (cfg : Config) (mem : memory)
    (AddressIsReadable : Z -> bool) (vdso : VDSOSupport)
    (IS_WITH_CONTEXT : bool) (max_depth : Z) (ucp : option ucontext_t)
    (frame_address : Z) (result sizes : list Z) (skip_count : Z)
    (min_dropped_frames : option Z) (cache : TrampolineCache) :
  IS_WITH_CONTEXT = false \/ ucp = None ->
  exists out frames,
    UnwindImpl cfg mem AddressIsReadable vdso false IS_WITH_CONTEXT max_depth
      ucp frame_address result sizes skip_count min_dropped_frames cache
      = Returned out /\
    Z.of_nat (length frames) = out_n out /\
    (forall (i : nat) fp,
       frames !! i = Some fp -> (i < length result)%nat ->
       out_result out !! i = Some (return_address cfg mem fp)) /\
    (forall (i : nat) a b,
       frames !! i = Some a -> frames !! S i = Some b ->
       a < b /\ b - a <= 100000).
Proof.
  intros Hctx.
  pose proof (UnwindImpl_outcome cfg mem AddressIsReadable vdso false
                IS_WITH_CONTEXT max_depth ucp frame_address result sizes
                skip_count min_dropped_frames cache) as Ho.
  destruct (UnwindImpl cfg mem AddressIsReadable vdso false IS_WITH_CONTEXT
              max_depth ucp frame_address result sizes skip_count
              min_dropped_frames cache) as [out | msg |] eqn:Hout;
    simpl in Ho; [| | done].
  2:{ destruct Ho as (_ & ? & ? & _). destruct Hctx; congruence. }
  apply UnwindImpl_Returned in Hout
    as (fs & fpe & ce & Hwalk & Hn & Hres & _).
  exists out, (drop (Z.to_nat skip_count) fs).*1.
  split; [done |]. split; [by rewrite length_fmap |]. split.
  - intros i fp Hi Hlen. rewrite Hres.
    apply (store_from_lookup _ 0 result i); [| done].
    rewrite list_lookup_fmap in Hi |- *.
    destruct (drop (Z.to_nat skip_count) fs !! i) as [[fp' nf] |]; [| done].
    by injection Hi as <-.
  - intros i a b Ha Hb.
    rewrite list_lookup_fmap, lookup_drop in Ha, Hb.
    destruct (fs !! (Z.to_nat skip_count + i)%nat) as [[a' x] |] eqn:Hfa;
      [| done].
    destruct (fs !! (Z.to_nat skip_count + S i)%nat) as [[b' y] |] eqn:Hfb;
      [| done].
    injection Ha as <-. injection Hb as <-.
    replace (Z.to_nat skip_count + S i)%nat
      with (S (Z.to_nat skip_count + i)) in Hfb by lia.
    destruct (walk_linked _ _ _ _ _ _ _ _ _ Hwalk) as [_ Hlink].
    specialize (Hlink _ _ _ Hfa Hfb). simpl in Hlink. subst x.
    pose proof (walk_frames _ _ _ _ _ _ _ _ _ Hwalk) as Hvalid.
    pose proof (Forall_lookup_1 _ _ _ _ Hvalid Hfa) as (_ & _ & c & c' & Hs).
    pose proof (Forall_lookup_1 _ _ _ _ Hvalid Hfb) as (Hb0 & _).
    simpl in Hs, Hb0.
    apply NextStackFrame_validated in Hs as [cand Hcand].
    destruct (validate_transition_cases cfg AddressIsReadable true
                IS_WITH_CONTEXT a' cand ucp) as [E | E]; [congruence |].
    rewrite E in Hcand. subst cand.
    apply (validate_transition_strict cfg AddressIsReadable IS_WITH_CONTEXT
             a' b' ucp); [by rewrite E | tauto].
Qed.

Lemma UnwindImpl_strict_frames_ascend_witness :
  exists out frames,
    UnwindImpl linux_x86_64 three_frame_memory all_readable no_vdso false
      false 3 None 0x7000 [0; 0; 0] [] 0 None initial_cache = Returned out /\
    Z.of_nat (length frames) = out_n out /\
    (forall (i : nat) fp,
       frames !! i = Some fp -> (i < length [0; 0; 0])%nat ->
       out_result out !! i
       = Some (return_address linux_x86_64 three_frame_memory fp)) /\
    (forall (i : nat) a b,
       frames !! i = Some a -> frames !! S i = Some b ->
       a < b /\ b - a <= 100000).
Proof.
  apply (UnwindImpl_strict_frames_ascend linux_x86_64 three_frame_memory
           all_readable no_vdso false 3 None 0x7000 [0; 0; 0] [] 0 None
           initial_cache).
  right. reflexivity.
Defined.

(** X16: a [skip_count] that is zero or negative skips nothing: the call
    does exactly what it does with [skip_count = 0]. *)
Theorem UnwindImpl_negative_skip_count (cfg : Config) (mem : memory)
    (AddressIsReadable : Z -> bool) (vdso : VDSOSupport)
    (IS_STACK_FRAMES IS_WITH_CONTEXT : bool) (max_depth : Z)
    (ucp : option ucontext_t) (frame_address : Z) (result sizes : list Z)
    (skip_count : Z) (min_dropped_frames : option Z)
    (cache : TrampolineCache) :
  skip_count <= 0 ->
  UnwindImpl cfg mem AddressIsReadable vdso IS_STACK_FRAMES IS_WITH_CONTEXT
    max_depth ucp frame_address result sizes skip_count min_dropped_frames
    cache
  = UnwindImpl cfg mem AddressIsReadable vdso IS_STACK_FRAMES IS_WITH_CONTEXT
      max_depth ucp frame_address result sizes 0 min_dropped_frames cache.
Proof.
  intros Hs. rewrite !UnwindImpl_walk. unfold unwind_spec.
  by replace (Z.to_nat skip_count) with (Z.to_nat 0) by lia.
Qed.

Lemma UnwindImpl_negative_skip_count_witness :
  UnwindImpl linux_x86_64 three_frame_memory all_readable no_vdso false false
    2 None 0x7000 [0; 0] [] (-3) None initial_cache
  = UnwindImpl linux_x86_64 three_frame_memory all_readable no_vdso false
      false 2 None 0x7000 [0; 0] [] 0 None initial_cache.
Proof.
  apply (UnwindImpl_negative_skip_count linux_x86_64 three_frame_memory
           all_readable no_vdso false false 2 None 0x7000 [0; 0] [] (-3)
           None initial_cache).
  lia.
Defined.

(** X17: with [max_depth <= 0] nothing is captured: the call returns 0 and
    leaves [result] and [sizes] as they were, whatever [skip_count] is.
    Without a [min_dropped_frames] pointer the validator is not even
    called, so the call returns with the cache untouched; with one, the
    frames are still counted from the caller's own frame. *)
Theorem UnwindImpl_no_depth (cfg : Config) (mem : memory)
    (AddressIsReadable : Z -> bool) (vdso : VDSOSupport)
    (IS_STACK_FRAMES IS_WITH_CONTEXT : bool) (max_depth : Z)
    (ucp : option ucontext_t) (frame_address : Z) (result sizes : list Z)
    (skip_count : Z) (v : Z) (cache : TrampolineCache) :
  max_depth <= 0 ->
  UnwindImpl cfg mem AddressIsReadable vdso IS_STACK_FRAMES IS_WITH_CONTEXT
    max_depth ucp frame_address result sizes skip_count None cache
  = Returned {| out_n := 0; out_result := result; out_sizes := sizes;
                out_min_dropped_frames := None; out_cache := cache |} /\
  returns_unless (trampoline_abort cfg mem vdso IS_WITH_CONTEXT ucp cache)
    (UnwindImpl cfg mem AddressIsReadable vdso IS_STACK_FRAMES
       IS_WITH_CONTEXT max_depth ucp frame_address result sizes skip_count
       (Some v) cache)
    (fun out =>
       out_n out = 0 /\ out_result out = result /\ out_sizes out = sizes /\
       exists j cache',
         count_dropped_loop cfg mem AddressIsReadable vdso IS_STACK_FRAMES
           IS_WITH_CONTEXT ucp (S (Z.to_nat kMaxUnwind)) frame_address 0
           cache = Returned (j, cache') /\
         out_min_dropped_frames out = Some j).
Proof.
  intros Hd. split.
  - rewrite UnwindImpl_walk. unfold unwind_spec.
    rewrite (proj2 (Z.ltb_ge 0 max_depth) Hd). simpl walk.
    unfold mbind, outcome_bind. cbv beta match.
    rewrite drop_nil. by destruct IS_STACK_FRAMES.
  - eapply returns_unless_weaken; [apply UnwindImpl_outcome |].
    intros out Hout _. unfold UnwindImpl, capture_budget in Hout.
    rewrite capture_loop_walk in Hout by (cbn [st_n st_skip_count]; lia).
    unfold frames_to_visit in Hout.
    cbn [st_n st_fp st_skip_count st_cache] in Hout.
    rewrite (proj2 (Z.ltb_ge 0 max_depth) Hd) in Hout.
    change (walk cfg mem _ O frame_address cache)
      with (Returned (@nil (Z * Z), frame_address, cache)) in Hout.
    unfold mbind, outcome_bind in Hout. cbv beta match in Hout.
    unfold record_frames in Hout.
    cbn [st_n st_fp st_skip_count st_cache st_result st_sizes] in Hout.
    destruct (count_dropped_loop cfg mem AddressIsReadable vdso
                IS_STACK_FRAMES IS_WITH_CONTEXT ucp _ frame_address 0 cache)
      as [[j cj] | |] eqn:Hc; [| done | done].
    injection Hout as <-.
    cbn [out_n out_result out_sizes out_min_dropped_frames].
    rewrite drop_nil. repeat split.
    + by destruct IS_STACK_FRAMES.
    + by exists j, cj.
Qed.

Lemma UnwindImpl_no_depth_witness :
  UnwindImpl linux_x86_64 three_frame_memory all_readable no_vdso true false
    0 None 0x7000 [5; 5] [7; 7] 4 None initial_cache
  = Returned {| out_n := 0; out_result := [5; 5]; out_sizes := [7; 7];
                out_min_dropped_frames := None;
                out_cache := initial_cache |}.
Proof.
  apply (proj1 (UnwindImpl_no_depth linux_x86_64 three_frame_memory
                  all_readable no_vdso true false 0 None 0x7000 [5; 5]
                  [7; 7] 4 0 initial_cache ltac:(lia))).
Defined.

(** ** Cycles and the driver's bounds *)

Section CycleBounds.

Variable cfg : Config.
Variable mem : memory.
Variable step : Z -> TrampolineCache -> outcome (Z * TrampolineCache).
Variable A B : Z.
Variable cache : TrampolineCache.

Hypothesis step_A : step A cache = Returned (B, cache).
Hypothesis step_B : step B cache = Returned (A, cache).
Hypothesis A_valid : A <> 0 /\ return_address cfg mem A <> 0.
Hypothesis B_valid : B <> 0 /\ return_address cfg mem B <> 0.

(** Round a cycle the walk never runs short of frames. *)
Lemma walk_cycle k : forall x,
  x = A \/ x = B ->
  exists frames fp_end,
    walk cfg mem step k x cache = Returned (frames, fp_end, cache) /\
    length frames = k /\ (fp_end = A \/ fp_end = B).
Proof.
  induction k as [| k IH]; intros x Hx.
  - exists [], x. by repeat split.
  - assert (exists y, (y = A \/ y = B) /\ step x cache = Returned (y, cache) /\
                      x <> 0 /\ return_address cfg mem x <> 0)
      as (y & Hy & Hstep & Hx0 & Hra).
    { destruct Hx as [-> | ->]; [exists B | exists A]; tauto. }
    destruct (IH y Hy) as (fs & fpe & Hw & Hlen & Hfpe).
    exists ((x, y) :: fs), fpe. simpl walk.
    rewrite (proj2 (Z.eqb_neq x 0) Hx0), (proj2 (Z.eqb_neq _ 0) Hra).
    simpl orb. cbv iota. rewrite Hstep.
    unfold mbind at 1. unfold outcome_bind at 1. cbv beta match.
    rewrite Hw. simpl. rewrite Hlen. by repeat split.
Qed.

Lemma count_frames_cycle limit : forall x,
  x = A \/ x = B ->
  count_frames step limit x cache = Returned (Z.of_nat limit, cache).
Proof.
  induction limit as [| limit IH]; intros x Hx; [done |].
  assert (exists y, (y = A \/ y = B) /\ step x cache = Returned (y, cache) /\
                    x <> 0) as (y & Hy & Hstep & Hx0).
  { destruct Hx as [-> | ->]; [exists B | exists A]; tauto. }
  simpl count_frames. rewrite (proj2 (Z.eqb_neq x 0) Hx0). cbv iota.
  rewrite Hstep. unfold mbind at 1. unfold outcome_bind at 1.
  cbv beta match. rewrite (IH y Hy). simpl. do 2 f_equal. lia.
Qed.

End CycleBounds.

(** X18: a frame-pointer cycle cannot keep the driver going.  With frame
    sizes requested (lax validation) and no signal context in use, on two
    valid frames that point at each other the call still returns: it
    records exactly [max_depth] frames and reports the cap, 1000, as the
    dropped-frame count. *)
Theorem UnwindImpl_cycle_bounded (cfg : Config) (mem : memory)
    (AddressIsReadable : Z -> bool) (vdso : VDSOSupport)
    (IS_WITH_CONTEXT : bool) (max_depth : Z) (ucp : option ucontext_t)
    (A B : Z) (result sizes : list Z) (skip_count : Z) (v : Z)
    (cache : TrampolineCache) :
  load_ptr cfg mem A = B -> load_ptr cfg mem B = A ->
  A <> 0 -> B <> 0 -> A <> B ->
  return_address cfg mem A <> 0 -> return_address cfg mem B <> 0 ->
  Z.land A (sizeof_ptr cfg - 1) = 0 -> Z.land B (sizeof_ptr cfg - 1) = 0 ->
  (def_i386 cfg = true -> A < 0xffffe000 /\ B < 0xffffe000) ->
  AddressIsReadable A = true -> AddressIsReadable B = true ->
  IS_WITH_CONTEXT = false \/ ucp = None \/
    def_linux cfg && def_i386 cfg = false ->
  0 <= skip_count -> 0 <= max_depth ->
  exists out,
    UnwindImpl cfg mem AddressIsReadable vdso true IS_WITH_CONTEXT max_depth
      ucp A result sizes skip_count (Some v) cache = Returned out /\
    out_n out = max_depth /\
    out_min_dropped_frames out = Some 1000.
Proof.
  intros HA HB HA0 HB0 HAB HraA HraB HalA HalB Hpg HrdA HrdB Hpure Hs Hd.
  assert (forall x y, (x = A /\ y = B) \/ (x = B /\ y = A) ->
            NextStackFrame cfg mem AddressIsReadable vdso (negb true)
              IS_WITH_CONTEXT x ucp cache = Returned (y, cache)) as Hstep.
  { intros x y Hxy. rewrite NextStackFrame_no_context by done.
    f_equal. f_equal.
    destruct Hxy as [[-> ->] | [-> ->]]; rewrite ?HA, ?HB;
      apply validate_transition_lax_accept; auto; intros Hi;
      by destruct (Hpg Hi). }
  rewrite UnwindImpl_walk. unfold unwind_spec.
  set (k := if 0 <? max_depth
            then (Z.to_nat skip_count + Z.to_nat max_depth)%nat else O).
  destruct (walk_cycle cfg mem
              (fun fp c =>
                 NextStackFrame cfg mem AddressIsReadable vdso (negb true)
                   IS_WITH_CONTEXT fp ucp c)
              A B cache (Hstep A B ltac:(tauto)) (Hstep B A ltac:(tauto))
              (conj HA0 HraA) (conj HB0 HraB) k A ltac:(tauto))
    as (fs & fpe & -> & Hlen & Hfpe).
  unfold mbind at 1. unfold outcome_bind at 1. cbv beta match.
  rewrite (count_frames_cycle cfg mem
             (fun fp c =>
                NextStackFrame cfg mem AddressIsReadable vdso (negb true)
                  IS_WITH_CONTEXT fp ucp c)
             A B cache (Hstep A B ltac:(tauto)) (Hstep B A ltac:(tauto))
             (conj HA0 HraA) (conj HB0 HraB)) by done.
  unfold mbind, outcome_bind. cbv beta match.
  eexists. split; [reflexivity |].
  cbn [out_n out_min_dropped_frames]. rewrite length_drop, Hlen.
  split; [| done]. subst k.
  destruct (0 <? max_depth) eqn:E; [apply Z.ltb_lt in E | apply Z.ltb_ge in E];
    lia.
Qed.

Lemma UnwindImpl_cycle_bounded_witness :
  exists out,
    UnwindImpl linux_x86_64 two_cycle_frames_memory all_readable no_vdso true
      false 3 None 0x1000 [0; 0; 0] [0; 0; 0] 1 (Some 0) initial_cache
      = Returned out /\
    out_n out = 3 /\
    out_min_dropped_frames out = Some 1000.
Proof.
  apply (UnwindImpl_cycle_bounded linux_x86_64 two_cycle_frames_memory
           all_readable no_vdso false 3 None 0x1000 0x2000 [0; 0; 0]
           [0; 0; 0] 1 0 initial_cache);
    try reflexivity; try discriminate; try lia.
Defined.
